(** * neural_sp: decoding orchestration and forward-backward fusion

    A shallow embedding of [Seq2seq.encode], [Seq2seq.decode] and
    [fwd_bwd_attention] from [neural_sp/models/seq2seq/seq2seq.py],
    together with the properties the specification states about them.

    Python values are modelled as follows.
    - Python integers are [Z]; lists and numpy arrays are [list];
      indexing follows Python (negative indices count from the end, an
      index outside the list raises [IndexError]).
    - Exceptions are explicit: a computation returns [Ok v] or [Raise e].
    - Scores (cumulative log-probabilities) are kept abstract: the code
      only adds, subtracts and compares them with [<], so they are any
      type carrying these three operations ([Score]).
    - An alignment row is a tensor over the input timesteps of which the
      code only takes [argmax(-1).item()] ([Attention]).
    - [sorted] is the documented stable sort that compares keys with [<]
      only; [reverse=True] reverses, sorts and reverses again. *)

From Stdlib Require Import ZArith List Bool Lia String QArith Permutation Sorted.
From Stdlib Require Import Lqa.
Import ListNotations.
Local Open Scope Z_scope.

Set Implicit Arguments.

(* ================================================================= *)
(** * Part I: definitions *)
(* ================================================================= *)

(** ** Exceptions and results *)

(** [IndexError], [AssertionError] and [AttributeError] are the
    exceptions the source can raise on the paths modelled here.
    [ConfigurationError] and [FusionError] are the error classes of the
    specification's taxonomy; no statement of the source constructs
    them. *)
Inductive exn : Type :=
| IndexError
| AssertionError
| AttributeError
| ConfigurationError
| FusionError (msg : string).

Inductive result (A : Type) : Type :=
| Ok (a : A)
| Raise (e : exn).

Arguments Ok {A} a.
Arguments Raise {A} e.

Definition bind {A B : Type} (m : result A) (k : A -> result B) : result B :=
  match m with
  | Ok a => k a
  | Raise e => Raise e
  end.

Notation "x <- m ;; k" := (bind m (fun x => k))
  (at level 61, m at next level, right associativity).

(** ** Python lists *)

Definition len {A : Type} (l : list A) : Z := Z.of_nat (List.length l).

(** [l[i]] *)
Definition py_index {A : Type} (l : list A) (i : Z) : result A :=
  let j := if i <? 0 then i + len l else i in
  if (0 <=? j) && (j <? len l) then
    match nth_error l (Z.to_nat j) with
    | Some a => Ok a
    | None => Raise IndexError
    end
  else Raise IndexError.

(** [l[b][n]] *)
Definition py_index2 {A : Type} (l : list (list A)) (b n : Z) : result A :=
  lb <- py_index l b ;; py_index lb n.

(** [l[:k]] and [l[k:]]: a bound is counted from the end when negative
    and clipped to the list. *)
Definition py_slice_to {A : Type} (l : list A) (k : Z) : list A :=
  firstn (Z.to_nat (if k <? 0 then k + len l else k)) l.

Definition py_slice_from {A : Type} (l : list A) (k : Z) : list A :=
  skipn (Z.to_nat (if k <? 0 then k + len l else k)) l.

(** [range(n)] *)
Definition py_range (n : Z) : list Z := map Z.of_nat (seq 0 (Z.to_nat n)).

(** [for x in xs: body], threading the variables the body assigns. *)
Fixpoint for_each {X St : Type} (xs : list X) (body : X -> St -> result St)
  (s : St) : result St :=
  match xs with
  | [] => Ok s
  | x :: xs' => s' <- body x s ;; for_each xs' body s'
  end.

(** ** [sorted] *)

Section Sorted.
Variables (A K : Type).
Variable lt : K -> K -> bool.
Variable key : A -> K.

(** [x] stood before every element of [l] in the input: it passes the
    elements whose key is strictly smaller and stops at the first one
    that is not. *)
Fixpoint insert_stable (x : A) (l : list A) : list A :=
  match l with
  | [] => [x]
  | y :: l' =>
      if lt (key y) (key x) then y :: insert_stable x l' else x :: y :: l'
  end.

Fixpoint sort_stable (l : list A) : list A :=
  match l with
  | [] => []
  | x :: l' => insert_stable x (sort_stable l')
  end.

(** [sorted(l, key=key, reverse=reverse)] *)
Definition py_sorted (reverse : bool) (l : list A) : list A :=
  if reverse then rev (sort_stable (rev l)) else sort_stable l.
End Sorted.

(** ** Scores and alignment rows *)

Class Score (S : Type) : Type := {
  sadd : S -> S -> S;      (* a + b *)
  ssub : S -> S -> S;      (* a - b *)
  sltb : S -> S -> bool    (* a < b *)
}.

(** The comparison is a strict weak order: what [<] is on numbers. *)
Class ScoreOrder (S : Type) `{Score S} : Prop := {
  sltb_asym : forall a b, sltb a b = true -> sltb b a = false;
  sltb_negtrans : forall a b c,
      sltb a c = true -> sltb a b = true \/ sltb b c = true
}.

(** [max(a, b)]: the first argument is kept unless the second is
    strictly greater. *)
Definition py_max {S : Type} `{Score S} (a b : S) : S :=
  if sltb a b then b else a.

Class Attention (Row : Type) : Type := {
  argmax : Row -> Z        (* row.argmax(-1).item() *)
}.

(** ** [fwd_bwd_attention] *)

(** The calls of the logger are left out. They are made with the default
    [idx2token=None], read only scores that the candidate just built has
    read already, and change neither [merged] nor the result. *)

Definition eos : Z := 2.

(** An entry of [merged]: [{'hyp': ..., 'score': ...}]. *)
Record cand (S : Type) : Type := mk_cand {
  hyp : list Z;
  score : S
}.

Section Fusion.
Context {S Row : Type} `{Score S} `{Attention Row}.

Variables (nbest_hyps_fwd : list (list (list Z)))
          (aws_fwd : list (list (list Row)))
          (scores_fwd : list (list (list S)))
          (nbest_hyps_bwd : list (list (list Z)))
          (aws_bwd : list (list (list Row)))
          (scores_bwd : list (list (list S))).

(** The forward half of the body of [for n in range(nbest)]. *)
Definition seed_fwd (b n : Z) (merged : list (cand S)) : result (list (cand S)) :=
  h <- py_index2 nbest_hyps_fwd b n ;;
  if 1 <? len h then
    t <- py_index h (-1) ;;
    if t =? eos then
      sc <- py_index2 scores_fwd b n ;;
      s <- py_index sc (-2) ;;
      Ok (merged ++ [mk_cand (py_slice_to h (-1)) s])
    else
      sc <- py_index2 scores_fwd b n ;;
      s <- py_index sc (-1) ;;
      Ok (merged ++ [mk_cand h s])
  else Ok merged.

(** The backward half. *)
Definition seed_bwd (b n : Z) (merged : list (cand S)) : result (list (cand S)) :=
  h <- py_index2 nbest_hyps_bwd b n ;;
  if 1 <? len h then
    t <- py_index h 0 ;;
    if t =? eos then
      sc <- py_index2 scores_bwd b n ;;
      s <- py_index sc 1 ;;
      Ok (merged ++ [mk_cand (py_slice_from h 1) s])
    else
      sc <- py_index2 scores_bwd b n ;;
      s <- py_index sc 0 ;;
      Ok (merged ++ [mk_cand h s])
  else Ok merged.

Definition seed_step (b n : Z) (merged : list (cand S)) : result (list (cand S)) :=
  merged1 <- seed_fwd b n merged ;;
  seed_bwd b n merged1.

(** The body of the innermost loop of the search. The condition is a
    short-circuit [and]: the tokens are read only when the three
    timesteps are ordered. *)
Definition splice_body (b n_f n_b i_f i_b : Z) (merged : list (cand S))
  : result (list (cand S)) :=
  ab <- py_index2 aws_bwd b n_b ;;
  r_prev <- py_index ab (i_b + 1) ;;
  let t_prev := argmax r_prev in
  af <- py_index2 aws_fwd b n_f ;;
  r_curr <- py_index af i_f ;;
  let t_curr := argmax r_curr in
  r_next <- py_index ab (i_b - 1) ;;
  let t_next := argmax r_next in
  if t_prev <=? t_curr then
    if t_curr <=? t_next then
      hf <- py_index2 nbest_hyps_fwd b n_f ;;
      tok_f <- py_index hf i_f ;;
      hb <- py_index2 nbest_hyps_bwd b n_b ;;
      tok_b <- py_index hb i_b ;;
      if tok_f =? tok_b then
        let new_hyp := py_slice_to hf (i_f + 1) ++ py_slice_from hb (i_b + 1) in
        sf <- py_index2 scores_fwd b n_f ;;
        sf_i <- py_index sf i_f ;;
        sf_p <- py_index sf (i_f - 1) ;;
        let score_curr_fwd := ssub sf_i sf_p in
        sb <- py_index2 scores_bwd b n_b ;;
        sb_i <- py_index sb i_b ;;
        sb_n <- py_index sb (i_b + 1) ;;
        let score_curr_bwd := ssub sb_i sb_n in
        let score_curr := py_max score_curr_fwd score_curr_bwd in
        let new_score := sadd (sadd sf_p sb_n) score_curr in
        Ok (merged ++ [mk_cand new_hyp new_score])
      else Ok merged
    else Ok merged
  else Ok merged.

(** What the iteration [(n_f, n_b, i_f, i_b)] appends to [merged]. *)
Definition appended_at (b n_f n_b i_f i_b : Z) : list (cand S) :=
  match splice_body b n_f n_b i_f i_b [] with
  | Ok l => l
  | Raise _ => []
  end.

(** [for i_b in range(len(aws_bwd[b][n_b]) - 1)] *)
Definition splice_i_b (b n_f n_b i_f : Z) (merged : list (cand S))
  : result (list (cand S)) :=
  ab <- py_index2 aws_bwd b n_b ;;
  for_each (py_range (len ab - 1)) (splice_body b n_f n_b i_f) merged.

(** [for i_f in range(len(aws_fwd[b][n_f]) - 1)] *)
Definition splice_i_f (b n_f n_b : Z) (merged : list (cand S))
  : result (list (cand S)) :=
  af <- py_index2 aws_fwd b n_f ;;
  for_each (py_range (len af - 1)) (splice_i_b b n_f n_b) merged.

(** [for n_f in range(nbest): for n_b in range(nbest)] *)
Definition splice_search (nbest b : Z) (merged : list (cand S))
  : result (list (cand S)) :=
  for_each (py_range nbest)
    (fun n_f => for_each (py_range nbest) (splice_i_f b n_f)) merged.

(** [merged] as it stands before the final sort. *)
Definition merged_of (nbest b : Z) : result (list (cand S)) :=
  merged <- for_each (py_range nbest) (seed_step b) [] ;;
  splice_search nbest b merged.

(** [sorted(merged, key=lambda x: x['score'], reverse=True)[0]['hyp']] *)
Definition select (merged : list (cand S)) : result (list Z) :=
  c <- py_index (py_sorted sltb (@score S) true merged) 0 ;;
  Ok (hyp c).

(** The body of [for b in range(batch_size)]. *)
Definition fuse_item (nbest b : Z) (best_hyps : list (list Z))
  : result (list (list Z)) :=
  merged <- merged_of nbest b ;;
  h <- select merged ;;
  Ok (best_hyps ++ [h]).

Definition fwd_bwd_attention : result (list (list Z)) :=
  let batch_size := len nbest_hyps_fwd in
  h0 <- py_index nbest_hyps_fwd 0 ;;
  let nbest := len h0 in
  for_each (py_range batch_size) (fuse_item nbest) [].
End Fusion.

(** Integer scores (log-probabilities on a fixed-point scale) and rows of
    integer attention weights, to run the functions on examples. *)
#[export] Instance Score_Z : Score Z :=
  {| sadd := Z.add; ssub := Z.sub; sltb := Z.ltb |}.

Fixpoint argmax_from (best : Z) (besti : Z) (i : Z) (row : list Z) : Z :=
  match row with
  | [] => besti
  | w :: row' =>
      if best <? w then argmax_from w i (i + 1) row'
      else argmax_from best besti (i + 1) row'
  end.

(** The index of the first maximum. *)
Definition argmax_list (row : list Z) : Z :=
  match row with
  | [] => 0
  | w :: row' => argmax_from w 0 1 row'
  end.

#[export] Instance Attention_list : Attention (list Z) :=
  {| argmax := argmax_list |}.

(** Every alignment row has an arg-max: none is empty. On an empty row
    [row.argmax(-1)] raises in the source, while [argmax_list] gives 0;
    a statement about which exceptions the fusion raises, or that it
    returns, is about alignments for which this holds. *)
Definition rows_nonempty (aws : list (list (list (list Z)))) : bool :=
  forallb (forallb (forallb (fun row : list Z => negb (len row =? 0)))) aws.

(** ** [Seq2seq.encode] and [Seq2seq.decode] *)

(** Weights are compared as exact numbers. *)
Definition Qgtb (a b : Q) : bool := negb (Qle_bool a b).   (* a > b *)
Definition Qgeb (a b : Q) : bool := Qle_bool b a.          (* a >= b *)

(** [[f(x) for x in xs]] for a body that can raise. *)
Fixpoint map_m {X Y : Type} (f : X -> result Y) (xs : list X) : result (list Y) :=
  match xs with
  | [] => Ok []
  | x :: xs' => y <- f x ;; ys <- map_m f xs' ;; Ok (y :: ys)
  end.

(** [decode_params]: the keys the dispatcher and the decoders read. *)
Record decode_params : Type := {
  dp_beam_width : Z;
  dp_min_len_ratio : Q;
  dp_max_len_ratio : Q;
  dp_len_penalty : Q;
  dp_cov_penalty : Q;
  dp_cov_threshold : Q;
  dp_rnnlm_weight : Q;
  dp_fwd_bwd_attention : bool
}.

Section Model.
(** [Frame]: a row of an input item; [Enc]: [enc_out[task]] (the encoded
    tensor and its lengths); [LM]: a language model; [Conv], [Refs]:
    the token converter and the references handed on to beam search. *)
Variables (Frame Enc LM Conv Refs : Type).
Context {S Row : Type} `{Score S} `{Attention Row}.

(** The capability object behind [getattr(self, 'dec_' + dir)]. *)
Record Decoder : Type := {
  greedy : Enc -> Q -> bool -> list (list Z) * list (list Row);
  beam_search : Enc -> decode_params -> option LM -> Z -> bool ->
                option Conv -> option Refs ->
                list (list (list Z)) * list (list (list Row)) * list (list (list S));
  decode_ctc : Enc -> Z -> option LM -> list (list Z)
}.

(** The attributes of [self] that [encode] and [decode] read. [enc] is
    everything [encode] does after the sort (stacking, splicing,
    padding, [self.enc], the bridges) followed by [enc_out[task]];
    [dec] and [rnnlm] are the attributes ['dec_' + dir] and
    ['rnnlm_' + dir], [None] when the attribute is not set. *)
Record Seq2seq : Type := {
  fwd_weight : Q;
  bwd_weight : Q;
  ctc_weight : Q;
  ctc_weight_sub1 : Q;
  ctc_weight_sub2 : Q;
  enc : list (list Frame) -> string -> Enc;
  dec : string -> option Decoder;
  rnnlm : string -> option LM
}.

(** [len(xs[i])] for [i] in [range(len(xs))]. *)
Definition item_len (xs : list (list Frame)) (i : Z) : Z :=
  len (nth (Z.to_nat i) xs []).

(** [sorted(list(range(0, len(xs), 1)), key=lambda i: len(xs[i]), reverse=True)] *)
Definition sort_perm (xs : list (list Frame)) : list Z :=
  py_sorted Z.ltb (item_len xs) true (py_range (len xs)).

(** [[xs[i] for i in perm_idx]] *)
Definition take_perm {X : Type} (xs : list X) (perm_idx : list Z) : result (list X) :=
  map_m (py_index xs) perm_idx.

Definition encode (self : Seq2seq) (xs : list (list Frame)) (task : string)
  : result (Enc * list Z) :=
  let perm_idx := sort_perm xs in
  xs' <- take_perm xs perm_idx ;;
  Ok (enc self xs' task, perm_idx).

(** The decoder methods called, in order, with the arguments the
    dispatcher chooses. *)
Inductive call : Type :=
| call_decode_ctc (dec_name : string) (beam_width : Z) (lm : option LM)
| call_greedy (dec_name : string) (max_len_ratio : Q) (exclude_eos : bool)
| call_beam_search (dec_name : string) (lm : option LM) (nbest : Z)
                   (exclude_eos : bool).

(** What [decode] returns: a 3-tuple or a 4-tuple. *)
Inductive decode_ret : Type :=
| Ret3 (best_hyps : list (list Z)) (aws : option (list (list Row)))
       (perm_idx : list Z)
| Ret4 (nbest_hyps : list (list (list Z))) (aws : list (list (list Row)))
       (scores : list (list (list S))) (perm_idx : list Z).

(** A computation that calls decoders: the calls made, and the result. *)
Definition traced (A : Type) : Type := (list call * result A)%type.

Definition tret {A : Type} (a : A) : traced A := ([], Ok a).

Definition tbind {A B : Type} (m : traced A) (k : A -> traced B) : traced B :=
  match m with
  | (t, Ok a) => let (t', r) := k a in (t ++ t', r)
  | (t, Raise e) => (t, Raise e)
  end.

Definition lift {A : Type} (r : result A) : traced A := ([], r).

Definition called {A : Type} (c : call) (a : A) : traced A := ([c], Ok a).

(** [getattr(self, 'dec_' + dir)] *)
Definition get_dec (self : Seq2seq) (dir : string) : result Decoder :=
  match dec self dir with
  | Some d => Ok d
  | None => Raise AttributeError
  end.

(** [assert hasattr(self, 'rnnlm_' + dir); rnnlm = getattr(self, 'rnnlm_' + dir)] *)
Definition get_rnnlm (self : Seq2seq) (dir : string) : result (option LM) :=
  match rnnlm self dir with
  | Some lm => Ok (Some lm)
  | None => Raise AssertionError
  end.

(** The direction and task suffix of the decoder. *)
Definition decode_dir (self : Seq2seq) (task : string) : string :=
  let dir := if Qgeb (fwd_weight self) (bwd_weight self) then "fwd"%string else "bwd"%string in
  if String.eqb task "ys_sub1" then String.append dir "_sub1"
  else if String.eqb task "ys_sub2" then String.append dir "_sub2"
  else dir.

Notation "x <~ m ;; k" := (tbind m (fun x => k))
  (at level 61, m at next level, right associativity).

Definition decode (self : Seq2seq) (xs : list (list Frame)) (dp : decode_params)
  (nbest : Z) (exclude_eos : bool) (idx2token : option Conv)
  (refs : option Refs) (ctc : bool) (task : string) : traced decode_ret :=
  e <~ lift (encode self xs task) ;;
  let '(enc_out, perm_idx) := e in
  let dir := decode_dir self task in
  if Qeq_bool (ctc_weight self) 1 || (Qgtb (ctc_weight self) 0 && ctc) then
    lm <~ lift (if Qgtb (dp_rnnlm_weight dp) 0 then get_rnnlm self dir
                else Ok None) ;;
    d <~ lift (get_dec self dir) ;;
    best_hyps <~ called (call_decode_ctc dir (dp_beam_width dp) lm)
                        (decode_ctc d enc_out (dp_beam_width dp) lm) ;;
    tret (Ret3 best_hyps None perm_idx)
  else
    if (dp_beam_width dp =? 1) && negb (dp_fwd_bwd_attention dp) then
      d <~ lift (get_dec self dir) ;;
      g <~ called (call_greedy dir (dp_max_len_ratio dp) exclude_eos)
                  (greedy d enc_out (dp_max_len_ratio dp) exclude_eos) ;;
      let '(best_hyps, aws) := g in
      tret (Ret3 best_hyps (Some aws) perm_idx)
    else
      if dp_fwd_bwd_attention dp then
        d_fwd <~ lift (get_dec self "fwd"%string) ;;
        f <~ called (call_beam_search "fwd"%string None (dp_beam_width dp) false)
                    (beam_search d_fwd enc_out dp None (dp_beam_width dp) false
                                 idx2token refs) ;;
        let '(nbest_hyps_fwd, aws_fwd, scores_fwd) := f in
        d_bwd <~ lift (get_dec self "bwd"%string) ;;
        g <~ called (call_beam_search "bwd"%string None (dp_beam_width dp) false)
                    (beam_search d_bwd enc_out dp None (dp_beam_width dp) false
                                 idx2token refs) ;;
        let '(nbest_hyps_bwd, aws_bwd, scores_bwd) := g in
        best_hyps <~ lift (fwd_bwd_attention nbest_hyps_fwd aws_fwd scores_fwd
                                             nbest_hyps_bwd aws_bwd scores_bwd) ;;
        tret (Ret3 best_hyps None perm_idx)
      else
        lm <~ lift (if Qgtb (dp_rnnlm_weight dp) 0 then get_rnnlm self dir
                    else Ok None) ;;
        d <~ lift (get_dec self dir) ;;
        r <~ called (call_beam_search dir lm nbest exclude_eos)
                    (beam_search d enc_out dp lm nbest exclude_eos
                                 idx2token refs) ;;
        let '(nbest_hyps, aws, scores) := r in
        if nbest =? 1 then
          best_hyps <~ lift (map_m (fun hyp => py_index hyp 0) nbest_hyps) ;;
          aws1 <~ lift (map_m (fun aw => py_index aw 0) aws) ;;
          tret (Ret3 best_hyps (Some aws1) perm_idx)
        else
          tret (Ret4 nbest_hyps aws scores perm_idx).
(** The guards of the dispatcher, by name. *)
Definition ctc_path (self : Seq2seq) (ctc : bool) : bool :=
  Qeq_bool (ctc_weight self) 1 || (Qgtb (ctc_weight self) 0 && ctc).

Definition greedy_path (dp : decode_params) : bool :=
  (dp_beam_width dp =? 1) && negb (dp_fwd_bwd_attention dp).

(** The language model the CTC-only and single-direction beam-search
    paths hand to the decoder. *)
Definition choose_rnnlm (self : Seq2seq) (dp : decode_params) (dir : string)
  : result (option LM) :=
  if Qgtb (dp_rnnlm_weight dp) 0 then get_rnnlm self dir else Ok None.

(** The batch in the order of [perm_idx]. *)
Definition sorted_batch (xs : list (list Frame)) : list (list Frame) :=
  map (fun i => nth (Z.to_nat i) xs []) (sort_perm xs).
End Model.

(** ** Well-formed n-best sets and the inverse of the permutation *)

(** Entry by entry, the two lists hold sequences of the same length. *)
Fixpoint same_lens {A B : Type} (xs : list (list A)) (ys : list (list B)) : bool :=
  match xs, ys with
  | [], [] => true
  | x :: xs', y :: ys' => Nat.eqb (List.length x) (List.length y) && same_lens xs' ys'
  | _, _ => false
  end.

(** The n-best set of one direction for one batch item: at least
    [nbest] hypotheses, each with an alignment row and a cumulative score
    per token. *)
Definition wf_nbest {S Row : Type} (nbest : Z) (hyps : list (list Z))
  (aws : list (list Row)) (scores : list (list S)) : bool :=
  (0 <=? nbest) && (nbest <=? len hyps) && same_lens hyps aws && same_lens hyps scores.

(** The entry of rank [n], empty when there is none. *)
Definition rank {A : Type} (l : list (list A)) (n : Z) : list A :=
  nth (Z.to_nat n) l [].

(** [perm.index(j)], the length of [perm] when [j] does not occur. *)
Fixpoint index_of (j : Z) (perm : list Z) : Z :=
  match perm with
  | [] => 0
  | p :: perm' => if p =? j then 0 else 1 + index_of j perm'
  end.

(** The inverse of the Permutation Index: where each original position
    went. *)
Definition inv_perm (perm : list Z) : list Z :=
  map (fun j => index_of j perm) (py_range (len perm)).

(** ** Example inputs *)

(** One batch item, one hypothesis per direction. The forward decoder
    read [5 6 7 <eos>], the backward one [<eos> 5 6 8]; scores are
    log-probabilities in tenths. *)
Definition ex_hyps_fwd : list (list (list Z)) := [[[5; 6; 7; 2]]].
Definition ex_aws_fwd : list (list (list (list Z))) :=
  [[[[9; 0; 0; 0]; [0; 9; 0; 0]; [0; 0; 9; 0]; [0; 0; 0; 9]]]].
Definition ex_scores_fwd : list (list (list Z)) := [[[-1; -3; -6; -7]]].
Definition ex_hyps_bwd : list (list (list Z)) := [[[2; 5; 6; 8]]].
Definition ex_aws_bwd : list (list (list (list Z))) :=
  [[[[0; 0; 0; 9]; [0; 0; 9; 0]; [9; 0; 0; 0]; [9; 0; 0; 0]]]].
Definition ex_scores_bwd : list (list (list Z)) := [[[-8; -7; -4; -2]]].

(** Both directions returned the end marker only. *)
Definition deg_hyps : list (list (list Z)) := [[[2]]].
Definition deg_aws : list (list (list (list Z))) := [[[[9]]]].
Definition deg_scores : list (list (list Z)) := [[[0]]].

(** A model whose encoder is the identity and whose decoders return, for
    each item, its number of frames as the only token, followed by the
    end marker. Language models are known by name. *)
Definition toy_hyp (x : list Z) : list Z := [len x; 2].

Definition toy_decoder : @Decoder (list (list Z)) string unit unit Z (list Z) :=
  {| greedy := fun enc_out _ _ =>
       (map toy_hyp enc_out, map (fun _ => [[1]; [1]]) enc_out);
     beam_search := fun enc_out _ _ _ _ _ _ =>
       (map (fun x => [toy_hyp x]) enc_out,
        map (fun _ => [[[1]; [1]]]) enc_out,
        map (fun _ => [[-1; -2]]) enc_out);
     decode_ctc := fun enc_out _ _ => map toy_hyp enc_out |}.

Definition toy_model (ctc_w ctc_w_sub1 : Q) (lms : string -> option string)
  : @Seq2seq Z (list (list Z)) string unit unit Z (list Z) :=
  {| fwd_weight := 1; bwd_weight := 0;
     ctc_weight := ctc_w; ctc_weight_sub1 := ctc_w_sub1; ctc_weight_sub2 := 0;
     enc := fun xs _ => xs;
     dec := fun _ => Some toy_decoder;
     rnnlm := lms |}.

(** A decoder whose methods differ: CTC decoding returns the number of
    frames alone, without the end marker. *)
Definition ctc_hyp (x : list Z) : list Z := [len x].

Definition split_decoder : @Decoder (list (list Z)) string unit unit Z (list Z) :=
  {| greedy := greedy toy_decoder;
     beam_search := beam_search toy_decoder;
     decode_ctc := fun enc_out _ _ => map ctc_hyp enc_out |}.

Definition split_model (ctc_w : Q) (lms : string -> option string)
  : @Seq2seq Z (list (list Z)) string unit unit Z (list Z) :=
  {| fwd_weight := 1; bwd_weight := 0;
     ctc_weight := ctc_w; ctc_weight_sub1 := 0; ctc_weight_sub2 := 0;
     enc := fun xs _ => xs;
     dec := fun _ => Some split_decoder;
     rnnlm := lms |}.

Definition toy_params (beam_width : Z) (rnnlm_weight : Q) (fba : bool)
  : decode_params :=
  {| dp_beam_width := beam_width; dp_min_len_ratio := 0; dp_max_len_ratio := 1;
     dp_len_penalty := 0; dp_cov_penalty := 0; dp_cov_threshold := 0;
     dp_rnnlm_weight := rnnlm_weight; dp_fwd_bwd_attention := fba |}.

Definition no_lm : string -> option string := fun _ => None.
Definition lm_by_name : string -> option string :=
  fun dir => Some (String.append "rnnlm_" dir).

(** A call that hands no language model to the decoder. *)
Definition without_lm {LM : Type} (c : call LM) : Prop :=
  match c with
  | call_decode_ctc _ _ lm => lm = None
  | call_greedy _ _ _ _ => True
  | call_beam_search _ lm _ _ => lm = None
  end.

(** ** [Seq2seq.__init__] *)

(** The part of the constructor that fixes the weights and decides which
    decoders and bridges the model has. The constructors of the layers
    themselves ([RNNEncoder], [Decoder], the attention mechanisms,
    [LinearND]) and the initialisation of the parameters are outside this
    file; a decoder is represented by the arguments it is built with. *)

Definition Qltb (a b : Q) : bool := negb (Qle_bool b a).   (* a < b *)

(** The fields of [args] read here. [a_dict_sub1], [a_dict_sub2]: the
    truth value of [args.dict_sub1], [args.dict_sub2]. *)
Record init_args : Type := {
  a_input_type : string;
  a_enc_type : string;
  a_bridge_layer : bool;
  a_attn_nheads : Z;
  a_attn_nheads_sub1 : Z;
  a_attn_nheads_sub2 : Z;
  a_vocab : Z;
  a_vocab_sub1 : Z;
  a_vocab_sub2 : Z;
  a_ctc_weight : Q;
  a_ctc_weight_sub1 : Q;
  a_ctc_weight_sub2 : Q;
  a_bwd_weight : Q;
  a_sub1_weight : Q;
  a_sub2_weight : Q;
  a_mtl_per_batch : bool;
  a_dict_sub1 : bool;
  a_dict_sub2 : bool;
  a_rnnlm_cold_fusion : bool
}.

Inductive attention_kind : Type :=
| MultiheadAttention (nheads : Z)
| SingleHeadAttention.

(** The arguments of [Decoder(...)] that differ between the decoders.
    [None] for [backward] and [rnnlm_cold_fusion]: the argument is not
    passed. *)
Record decoder_args : Type := {
  da_attention : option attention_kind;
  da_vocab : Z;
  da_ctc_weight : Q;
  da_backward : option bool;
  da_rnnlm_cold_fusion : option bool;
  da_global_weight : Q
}.

(** The model as [__init__] leaves it: the attributes [dec_*] by the
    part of their name after [dec_], latest first, the bridges by name,
    and [args.rnnlm_cold_fusion], which the constructor overwrites. *)
Record built : Type := {
  m_fwd_weight : Q;
  m_bwd_weight : Q;
  m_main_weight : Q;
  m_sub1_weight : Q;
  m_sub2_weight : Q;
  m_ctc_weight : Q;
  m_ctc_weight_sub1 : Q;
  m_ctc_weight_sub2 : Q;
  m_mtl_per_batch : bool;
  m_input_type : string;
  m_enc_type : string;
  m_bridge_layer : bool;
  m_decs : list (string * decoder_args);
  m_bridges : list string;
  m_args_rnnlm_cold_fusion : bool
}.

Fixpoint lookup_attr {V : Type} (name : string) (attrs : list (string * V))
  : option V :=
  match attrs with
  | [] => None
  | (k, v) :: attrs' => if String.eqb k name then Some v else lookup_attr name attrs'
  end.

Definition attention_for (nheads : Z) : attention_kind :=
  if 1 <? nheads then MultiheadAttention nheads else SingleHeadAttention.

(** The bridges: [bridge] always, the sub-task ones by their weight, when
    the encoder is a CNN or a bridge layer is asked for. *)
Definition init_bridges (a : init_args) : list string :=
  if String.eqb (a_enc_type a) "cnn" || a_bridge_layer a then
    ["bridge"%string]
      ++ (if Qgtb (a_sub1_weight a) 0 then ["bridge_sub1"%string] else [])
      ++ (if Qgtb (a_sub2_weight a) 0 then ["bridge_sub2"%string] else [])
  else [].

Definition init_directions (fwd_w bwd_w ctc_w : Q) : list string :=
  (if Qgtb fwd_w 0 || Qgtb ctc_w 0 then ["fwd"%string] else [])
    ++ (if Qgtb bwd_w 0 then ["bwd"%string] else []).

(** The body of [for dir in directions]; the state is
    [args.rnnlm_cold_fusion] and the attributes set so far.
    [logger.inof] does not exist: the cold-fusion branch raises
    [AttributeError] before it reaches its [raise NotImplementedError()]. *)
Definition init_main_decoder (a : init_args) (fwd_w main_w : Q) (dir : string)
  (st : bool * list (string * decoder_args))
  : result (bool * list (string * decoder_args)) :=
  let '(cold_fusion, attrs) := st in
  let attn :=
    if (String.eqb dir "fwd" && Qltb (a_ctc_weight a) 1) || String.eqb dir "bwd"
    then Some (attention_for (a_attn_nheads a)) else None in
  if cold_fusion && String.eqb dir "fwd" then Raise AttributeError
  else
    let cold_fusion := false in
    let dec :=
      {| da_attention := attn;
         da_vocab := a_vocab a;
         da_ctc_weight := if String.eqb dir "fwd" then a_ctc_weight a else 0%Q;
         da_backward := Some (String.eqb dir "bwd");
         da_rnnlm_cold_fusion := Some cold_fusion;
         da_global_weight :=
           if String.eqb dir "fwd" then (main_w - a_bwd_weight a)%Q
           else a_bwd_weight a |} in
    Ok (cold_fusion, (dir, dec) :: attrs).

Definition init_sub1_decoder (a : init_args) : decoder_args :=
  {| da_attention :=
       if Qltb (a_ctc_weight_sub1 a) (a_sub1_weight a)
       then Some (attention_for (a_attn_nheads_sub1 a)) else None;
     da_vocab := a_vocab_sub1 a;
     da_ctc_weight := a_ctc_weight_sub1 a;
     da_backward := None;
     da_rnnlm_cold_fusion := None;
     da_global_weight := a_sub1_weight a |}.

Definition init_sub2_decoder (a : init_args) : decoder_args :=
  {| da_attention :=
       if Qltb (a_ctc_weight_sub2 a) (a_sub2_weight a)
       then Some (attention_for (a_attn_nheads_sub2 a)) else None;
     da_vocab := a_vocab_sub2 a;
     da_ctc_weight := a_ctc_weight_sub2 a;
     da_backward := None;
     da_rnnlm_cold_fusion := None;
     da_global_weight := a_sub2_weight a |}.

(** [Seq2seq.__init__(args)]. The differences [1 - bwd_weight],
    [1 - sub1_weight - sub2_weight] and [main_weight - bwd_weight] are
    exact here and rounded in the source. Rounding keeps the sign of
    [1 - bwd_weight] and its order with [bwd_weight], which is all that is
    read of [fwd_weight]; it can change [main_weight], see
    [with_main_weight]. *)
Definition init (a : init_args) : result built :=
  let fwd_w := (1 - a_bwd_weight a)%Q in
  let bwd_w := a_bwd_weight a in
  let main_w := (1 - a_sub1_weight a - a_sub2_weight a)%Q in
  let bridges := init_bridges a in
  let directions := init_directions fwd_w bwd_w (a_ctc_weight a) in
  st <- for_each directions (init_main_decoder a fwd_w main_w)
                 (a_rnnlm_cold_fusion a, []) ;;
  let '(cold_fusion, attrs) := st in
  let attrs :=
    if Qgtb (a_sub1_weight a) 0 || (a_mtl_per_batch a && a_dict_sub1 a)
    then ("fwd_sub1"%string, init_sub1_decoder a) :: attrs else attrs in
  let attrs :=
    if Qgtb (a_sub2_weight a) 1 || (a_mtl_per_batch a && a_dict_sub2 a)
    then ("fwd_sub2"%string, init_sub2_decoder a) :: attrs else attrs in
  Ok {| m_fwd_weight := fwd_w;
        m_bwd_weight := bwd_w;
        m_main_weight := main_w;
        m_sub1_weight := a_sub1_weight a;
        m_sub2_weight := a_sub2_weight a;
        m_ctc_weight := a_ctc_weight a;
        m_ctc_weight_sub1 := a_ctc_weight_sub1 a;
        m_ctc_weight_sub2 := a_ctc_weight_sub2 a;
        m_mtl_per_batch := a_mtl_per_batch a;
        m_input_type := a_input_type a;
        m_enc_type := a_enc_type a;
        m_bridge_layer := a_bridge_layer a;
        m_decs := attrs;
        m_bridges := bridges;
        m_args_rnnlm_cold_fusion := cold_fusion |}.

(** The constructed model as [encode] and [decode] see it. [realise]
    stands for the [Decoder] class, [encoder] for the encoder with its
    preprocessing and bridges, [lms] for the language models that the
    caller attaches after construction. *)
Definition model_of {Frame Enc LM Conv Refs S Row : Type} (b : built)
  (realise : decoder_args -> @Decoder Enc LM Conv Refs S Row)
  (encoder : list (list Frame) -> string -> Enc)
  (lms : string -> option LM) : @Seq2seq Frame Enc LM Conv Refs S Row :=
  {| fwd_weight := m_fwd_weight b;
     bwd_weight := m_bwd_weight b;
     ctc_weight := m_ctc_weight b;
     ctc_weight_sub1 := m_ctc_weight_sub1 b;
     ctc_weight_sub2 := m_ctc_weight_sub2 b;
     enc := encoder;
     dec := fun dir => option_map realise (lookup_attr dir (m_decs b));
     rnnlm := lms |}.

(** Arguments of a plain forward-only attention model, by backward
    weight, CTC weight and cold fusion. *)
Definition plain_args (bwd_w ctc_w : Q) (cold_fusion : bool) : init_args :=
  {| a_input_type := "speech"; a_enc_type := "blstm"; a_bridge_layer := false;
     a_attn_nheads := 1; a_attn_nheads_sub1 := 1; a_attn_nheads_sub2 := 1;
     a_vocab := 100; a_vocab_sub1 := 50; a_vocab_sub2 := 30;
     a_ctc_weight := ctc_w; a_ctc_weight_sub1 := 0; a_ctc_weight_sub2 := 0;
     a_bwd_weight := bwd_w; a_sub1_weight := 0; a_sub2_weight := 0;
     a_mtl_per_batch := false; a_dict_sub1 := false; a_dict_sub2 := false;
     a_rnnlm_cold_fusion := cold_fusion |}.

(** The decoder a call addresses was built with an attention mechanism. *)
Definition attends {LM : Type} (b : built) (c : call LM) : Prop :=
  match c with
  | call_decode_ctc _ _ _ => True
  | call_greedy _ name _ _ | call_beam_search name _ _ _ =>
      exists da, lookup_attr name (m_decs b) = Some da /\ da_attention da <> None
  end.

(** ** [Seq2seq.get_ctc_posteriors] *)

(** [assert c] *)
Definition py_assert (c : bool) : result unit :=
  if c then Ok tt else Raise AssertionError.

Section Posteriors.
Variables (Frame Enc LM Conv Refs Probs Idx : Type).
Context {S Row : Type}.

(** [ctc_posteriors] is a method of the decoder objects besides the three
    the dispatcher calls; [x_lens_of] is [enc_out[task]['x_lens']]. *)
Variable ctc_posteriors :
  @Decoder Enc LM Conv Refs S Row -> Enc -> Q -> option Z -> Probs * Idx.
Variable x_lens_of : Enc -> list Z.

Definition get_ctc_posteriors (self : @Seq2seq Frame Enc LM Conv Refs S Row)
  (xs : list (list Frame)) (task : string) (temperature : Q) (topk : option Z)
  : result (Probs * Idx * list Z) :=
  e <- encode self xs task ;;
  let '(enc_out, perm_idx) := e in
  let dir := decode_dir self task in
  _ <- (if String.eqb task "ys" then py_assert (Qgtb (ctc_weight self) 0)
        else if String.eqb task "ys_sub1"
             then py_assert (Qgtb (ctc_weight_sub1 self) 0)
        else if String.eqb task "ys_sub2"
             then py_assert (Qgtb (ctc_weight_sub2 self) 0)
        else Ok tt) ;;
  d <- get_dec self dir ;;
  let '(ctc_probs, indices_topk) := ctc_posteriors d enc_out temperature topk in
  Ok (ctc_probs, indices_topk, x_lens_of enc_out).
End Posteriors.

(** ** [Seq2seq._forward] *)

(** A computation that logs events of type [Ev]. *)
Definition logged (Ev A : Type) : Type := (list Ev * result A)%type.

Definition lret {Ev A : Type} (a : A) : logged Ev A := ([], Ok a).

Definition lbind {Ev A B : Type} (m : logged Ev A) (k : A -> logged Ev B)
  : logged Ev B :=
  match m with
  | (t, Ok a) => let (t', r) := k a in (t ++ t', r)
  | (t, Raise e) => (t, Raise e)
  end.

Definition llift {Ev A : Type} (r : result A) : logged Ev A := ([], r).

Notation "x <~~ m ;; k" := (lbind m (fun x => k))
  (at level 61, m at next level, right associativity).

(** [d[k] = v] on a dict kept in insertion order. *)
Fixpoint dict_set {V : Type} (d : list (string * V)) (k : string) (v : V)
  : list (string * V) :=
  match d with
  | [] => [(k, v)]
  | (k', v') :: d' =>
      if String.eqb k' k then (k, v) :: d' else (k', v') :: dict_set d' k v
  end.

Section Training.
(** [Elem]: what the sequences are made of (frames, tokens); [Enc]:
    [enc_out[key]]; [Loss]: the loss tensors, with [+] and the zero the
    loss starts from, which the source makes from [enc_out[task]['xs']],
    so that [task] has to be one of the keys of the encoder's result;
    [Val]: the figures a decoder reports. The targets
    [ys_sub1], [ys_sub2] are lists; [None], their default, is left out
    of the model. *)
Variables (Elem Enc Loss Val : Type).
Variable loss_add : Loss -> Loss -> Loss.
Variable loss_zero : Loss.

(** The dict a decoder returns beside its loss. *)
Record dec_obs : Type := {
  loss_att : Val;
  loss_ctc : Val;
  loss_lm : Val;
  acc : Val
}.

(** The attributes of [self] that [_forward] reads. [t_enc xs task key]
    is [enc_out[key]] for the batch [xs], already sorted, encoded for
    [task]; [t_dec] are the attributes [dec_*], called as modules. *)
Record trainee : Type := {
  t_input_type : string;
  t_mtl_per_batch : bool;
  t_fwd_weight : Q;
  t_bwd_weight : Q;
  t_sub1_weight : Q;
  t_sub2_weight : Q;
  t_enc : list (list Elem) -> string -> string -> Enc;
  t_dec : string -> option (Enc -> list (list Elem) -> Loss * dec_obs)
}.

(** A decoder called on an encoder output and targets. *)
Record train_call : Type := {
  tc_name : string;
  tc_enc : Enc;
  tc_targets : list (list Elem)
}.

(** [self.encode(xs, task)] *)
Definition encode_for (self : trainee) (xs : list (list Elem)) (task : string)
  : result ((string -> Enc) * list Z) :=
  let perm_idx := sort_perm xs in
  xs' <- take_perm xs perm_idx ;;
  Ok (t_enc self xs' task, perm_idx).

(** [loss_x, obs_x = self.dec_x(enc, x_lens, targets); loss += loss_x;
    observation[...] = ...] with the four keys of that decoder. *)
Definition forward_step (self : trainee) (name : string) (enc_x : Enc)
  (targets : list (list Elem)) (k_att k_ctc k_lm k_acc : string)
  (st : Loss * list (string * Val))
  : logged train_call (Loss * list (string * Val)) :=
  match t_dec self name with
  | None => ([], Raise AttributeError)
  | Some d =>
      let '(loss_x, obs_x) := d enc_x targets in
      let '(loss, observation) := st in
      let observation := dict_set observation k_att (loss_att obs_x) in
      let observation := dict_set observation k_ctc (loss_ctc obs_x) in
      let observation := dict_set observation k_lm (loss_lm obs_x) in
      let observation := dict_set observation k_acc (acc obs_x) in
      ([{| tc_name := name; tc_enc := enc_x; tc_targets := targets |}],
       Ok (loss_add loss loss_x, observation))
  end.

(** The four blocks of [_forward] that add a decoder's loss. *)
Definition fwd_loss (self : trainee) (enc_out : string -> Enc)
  (ys : list (list Elem)) (task : string) (st : Loss * list (string * Val))
  : logged train_call (Loss * list (string * Val)) :=
  if Qgtb (t_fwd_weight self) 0 && String.eqb task "ys" then
    forward_step self "fwd" (enc_out "ys"%string) ys
                 "loss.att" "loss.ctc" "loss.lm" "acc.main" st
  else lret st.

Definition bwd_loss (self : trainee) (enc_out : string -> Enc)
  (ys : list (list Elem)) (st : Loss * list (string * Val))
  : logged train_call (Loss * list (string * Val)) :=
  if Qgtb (t_bwd_weight self) 0 then
    forward_step self "bwd" (enc_out "ys"%string) ys
                 "loss.att-bwd" "loss.ctc-bwd" "loss.lm-bwd" "acc.bwd" st
  else lret st.

Definition sub1_loss (self : trainee) (enc_out : string -> Enc)
  (perm_idx : list Z) (ys ys_sub1 : list (list Elem)) (task : string)
  (st : Loss * list (string * Val))
  : logged train_call (Loss * list (string * Val)) :=
  if (Qgtb (t_sub1_weight self) 0 && negb (t_mtl_per_batch self))
     || (t_mtl_per_batch self && String.eqb task "ys_sub1") then
    if t_mtl_per_batch self then
      forward_step self "fwd_sub1" (enc_out "ys_sub1"%string) ys
                   "loss.att-sub1" "loss.ctc-sub1" "loss.lm-sub1" "acc.sub1" st
    else
      ys_sub1 <~~ llift (take_perm ys_sub1 perm_idx) ;;
      forward_step self "fwd_sub1" (enc_out "ys_sub1"%string) ys_sub1
                   "loss.att-sub1" "loss.ctc-sub1" "loss.lm-sub1" "acc.sub1" st
  else lret st.

Definition sub2_loss (self : trainee) (enc_out : string -> Enc)
  (perm_idx : list Z) (ys ys_sub2 : list (list Elem)) (task : string)
  (st : Loss * list (string * Val))
  : logged train_call (Loss * list (string * Val)) :=
  if (Qgtb (t_sub2_weight self) 0 && negb (t_mtl_per_batch self))
     || (t_mtl_per_batch self && String.eqb task "ys_sub2") then
    if t_mtl_per_batch self then
      forward_step self "fwd_sub2" (enc_out "ys_sub2"%string) ys
                   "loss.att-sub2" "loss.ctc-sub2" "loss.lm-sub2" "acc.sub2" st
    else
      ys_sub2 <~~ llift (take_perm ys_sub2 perm_idx) ;;
      forward_step self "fwd_sub2" (enc_out "ys_sub2"%string) ys_sub2
                   "loss.att-sub2" "loss.ctc-sub2" "loss.lm-sub2" "acc.sub2" st
  else lret st.

Definition _forward (self : trainee) (xs ys ys_sub1 ys_sub2 : list (list Elem))
  (task : string) : logged train_call (Loss * list (string * Val)) :=
  e <~~ llift (if String.eqb (t_input_type self) "speech" then
                 if t_mtl_per_batch self then encode_for self xs task
                 else encode_for self xs "all"
               else encode_for self ys_sub1 "all") ;;
  let '(enc_out, perm_idx) := e in
  ys <~~ llift (take_perm ys perm_idx) ;;
  let observation := [] in
  let loss := loss_zero in
  st <~~ fwd_loss self enc_out ys task (loss, observation) ;;
  st <~~ bwd_loss self enc_out ys st ;;
  st <~~ sub1_loss self enc_out perm_idx ys ys_sub1 task st ;;
  st <~~ sub2_loss self enc_out perm_idx ys ys_sub2 task st ;;
  lret st.

(** The constructed model as [_forward] sees it. [train] stands for the
    forward computation of the [Decoder] class, [encoder] for the
    encoder with its preprocessing and bridges. *)
Definition trainee_of (b : built)
  (train : decoder_args -> Enc -> list (list Elem) -> Loss * dec_obs)
  (encoder : list (list Elem) -> string -> string -> Enc) : trainee :=
  {| t_input_type := m_input_type b;
     t_mtl_per_batch := m_mtl_per_batch b;
     t_fwd_weight := m_fwd_weight b;
     t_bwd_weight := m_bwd_weight b;
     t_sub1_weight := m_sub1_weight b;
     t_sub2_weight := m_sub2_weight b;
     t_enc := encoder;
     t_dec := fun name => option_map train (lookup_attr name (m_decs b)) |}.
End Training.

(** ** [Seq2seq.encode], after the encoder *)

Section Bridging.
(** [X]: the tensors [enc_out[key]['xs']]; [Lens]: the lists
    [enc_out[key]['x_lens']]. The encoder's result is taken to hold the
    three keys ['ys'], ['ys_sub1'], ['ys_sub2'], each with a dict of its
    own; [clone] and [deepcopy] make the copies independent values. *)
Variables (X Lens : Type).

Definition enc_dict : Type := string -> X * Lens.

(** [enc_out[key]['xs'] = v] and [enc_out[key]['x_lens'] = v] *)
Definition set_xs (enc_out : enc_dict) (key : string) (v : X) : enc_dict :=
  fun k => if String.eqb k key then (v, snd (enc_out key)) else enc_out k.

Definition set_x_lens (enc_out : enc_dict) (key : string) (v : Lens) : enc_dict :=
  fun k => if String.eqb k key then (fst (enc_out key), v) else enc_out k.

(** [task in [...]] *)
Definition task_in (task : string) (tasks : list string) : bool :=
  existsb (String.eqb task) tasks.

(** [enc_out[key]['xs'] = self.<name>(enc_out[key]['xs'])] *)
Definition apply_bridge (bridges : string -> option (X -> X))
  (name key : string) (enc_out : enc_dict) : result enc_dict :=
  match bridges name with
  | None => Raise AttributeError
  | Some f => Ok (set_xs enc_out key (f (fst (enc_out key))))
  end.

(** The end of [encode]: what happens to [enc_out = self.enc(...)]
    before it is returned. [bridges] are the attributes [bridge],
    [bridge_sub1], [bridge_sub2], called as modules. *)
Definition bridge_enc_out (self : built) (bridges : string -> option (X -> X))
  (enc_out : enc_dict) (task : string) : result enc_dict :=
  let enc_out :=
    if Qltb (m_main_weight self) 1 && String.eqb (m_enc_type self) "cnn" then
      let enc_out := set_xs enc_out "ys_sub1" (fst (enc_out "ys"%string)) in
      let enc_out := set_xs enc_out "ys_sub2" (fst (enc_out "ys"%string)) in
      let enc_out := set_x_lens enc_out "ys_sub1" (snd (enc_out "ys"%string)) in
      set_x_lens enc_out "ys_sub2" (snd (enc_out "ys"%string))
    else enc_out in
  let bridging := String.eqb (m_enc_type self) "cnn" || m_bridge_layer self in
  enc_out <-
    (if Qgtb (m_main_weight self) 0 && bridging
        && task_in task ["all"%string; "ys"%string]
     then apply_bridge bridges "bridge" "ys" enc_out else Ok enc_out) ;;
  enc_out <-
    (if Qgtb (m_sub1_weight self) 0 && bridging
        && task_in task ["all"%string; "ys_sub1"%string]
     then apply_bridge bridges "bridge_sub1" "ys_sub1" enc_out else Ok enc_out) ;;
  enc_out <-
    (if Qgtb (m_sub2_weight self) 0 && bridging
        && task_in task ["all"%string; "ys_sub2"%string]
     then apply_bridge bridges "bridge_sub2" "ys_sub2" enc_out else Ok enc_out) ;;
  Ok enc_out.

(** The bridges of a constructed model; [layer] stands for the
    [LinearND] built under each name. *)
Definition built_bridges (b : built) (layer : string -> X -> X)
  : string -> option (X -> X) :=
  fun name =>
    if existsb (String.eqb name) (m_bridges b) then Some (layer name) else None.
End Bridging.

(** The constructed model with the value [w] that the interpreter left in
    [self.main_weight]. [init] computes [1 - sub1_weight - sub2_weight]
    exactly, the source in floating point, where the difference is
    rounded: [1 - 1e-17] is [1.0]. What reads [main_weight] is therefore
    stated for whatever value it has. The other weights read by
    [encode], [decode] and [_forward] are the arguments themselves or
    [1 - bwd_weight], whose sign rounding keeps. *)
Definition with_main_weight (b : built) (w : Q) : built :=
  {| m_fwd_weight := m_fwd_weight b;
     m_bwd_weight := m_bwd_weight b;
     m_main_weight := w;
     m_sub1_weight := m_sub1_weight b;
     m_sub2_weight := m_sub2_weight b;
     m_ctc_weight := m_ctc_weight b;
     m_ctc_weight_sub1 := m_ctc_weight_sub1 b;
     m_ctc_weight_sub2 := m_ctc_weight_sub2 b;
     m_mtl_per_batch := m_mtl_per_batch b;
     m_input_type := m_input_type b;
     m_enc_type := m_enc_type b;
     m_bridge_layer := m_bridge_layer b;
     m_decs := m_decs b;
     m_bridges := m_bridges b;
     m_args_rnnlm_cold_fusion := m_args_rnnlm_cold_fusion b |}.

(** ** Example models *)

(** Arguments of a model with sub-tasks, by encoder type and the two
    sub-task weights. *)
Definition multitask_args (enc_type : string) (sub1_w sub2_w : Q) : init_args :=
  {| a_input_type := "speech"; a_enc_type := enc_type; a_bridge_layer := false;
     a_attn_nheads := 1; a_attn_nheads_sub1 := 1; a_attn_nheads_sub2 := 1;
     a_vocab := 100; a_vocab_sub1 := 50; a_vocab_sub2 := 30;
     a_ctc_weight := 0; a_ctc_weight_sub1 := 0; a_ctc_weight_sub2 := 0;
     a_bwd_weight := 0; a_sub1_weight := sub1_w; a_sub2_weight := sub2_w;
     a_mtl_per_batch := false; a_dict_sub1 := false; a_dict_sub2 := false;
     a_rnnlm_cold_fusion := false |}.

(** Decoders in training that report the number of targets as their
    loss, and an encoder that returns the batch. *)
Definition toy_obs : dec_obs Z :=
  {| loss_att := 1; loss_ctc := 2; loss_lm := 3; acc := 4 |}.

Definition toy_loss (enc_x : list (list Z)) (targets : list (list Z))
  : Z * dec_obs Z :=
  (len targets, toy_obs).

Definition toy_train (da : decoder_args)
  : list (list Z) -> list (list Z) -> Z * dec_obs Z := toy_loss.

Definition toy_encoder (xs : list (list Z)) (task key : string)
  : list (list Z) := xs.

Definition toy_trainee (mtl : bool) (bwd_w : Q)
  : trainee Z (list (list Z)) Z Z :=
  {| t_input_type := "speech"; t_mtl_per_batch := mtl;
     t_fwd_weight := 1 - bwd_w; t_bwd_weight := bwd_w;
     t_sub1_weight := 0; t_sub2_weight := 0;
     t_enc := toy_encoder;
     t_dec := fun _ => Some toy_loss |}.

(** The only exception a computation can raise is [IndexError]. *)
Definition only_index_error {A : Type} (r : result A) : Prop :=
  forall e, r = Raise e -> e = IndexError.

(* ================================================================= *)
(** * Part II: properties *)
(* ================================================================= *)

Unset Implicit Arguments.

(** ** Python lists *)

Lemma len_nonneg {A : Type} (l : list A) : 0 <= len l.
Proof. unfold len. lia. Qed.

Lemma py_index_nonneg {A : Type} (l : list A) (i : Z) :
  0 <= i < len l ->
  exists a, nth_error l (Z.to_nat i) = Some a /\ py_index l i = Ok a.
Proof.
  intros Hi. unfold py_index.
  destruct (Z.ltb_spec i 0); [lia|].
  destruct (Z.leb_spec 0 i); [|lia].
  destruct (Z.ltb_spec i (len l)); [|lia].
  simpl. destruct (nth_error l (Z.to_nat i)) eqn:E.
  - eauto.
  - apply nth_error_None in E. unfold len in *. lia.
Qed.

Lemma py_index_neg {A : Type} (l : list A) (i : Z) :
  - len l <= i < 0 ->
  exists a, nth_error l (Z.to_nat (i + len l)) = Some a /\ py_index l i = Ok a.
Proof.
  intros Hi. unfold py_index.
  destruct (Z.ltb_spec i 0); [|lia].
  destruct (Z.leb_spec 0 (i + len l)); [|lia].
  destruct (Z.ltb_spec (i + len l) (len l)); [|lia].
  simpl. destruct (nth_error l (Z.to_nat (i + len l))) eqn:E.
  - eauto.
  - apply nth_error_None in E. unfold len in *. lia.
Qed.

Lemma py_index_raise {A : Type} (l : list A) (i : Z) (e : exn) :
  py_index l i = Raise e -> e = IndexError.
Proof.
  unfold py_index.
  destruct ((0 <=? _) && (_ <? _)); [destruct (nth_error _ _)|]; congruence.
Qed.

Lemma py_index_In {A : Type} (l : list A) (i : Z) (a : A) :
  py_index l i = Ok a -> In a l.
Proof.
  unfold py_index.
  destruct ((0 <=? _) && (_ <? _)); [|discriminate].
  destruct (nth_error _ _) eqn:E; [|discriminate].
  intros [= <-]. eapply nth_error_In; eauto.
Qed.

Lemma py_index_nil {A : Type} (i : Z) : py_index (@nil A) i = Raise IndexError.
Proof.
  unfold py_index, len. simpl.
  destruct (i <? 0); destruct ((0 <=? _) && (_ <? _)) eqn:E; try reflexivity;
    apply andb_prop in E; destruct E as [E1 E2];
    apply Z.leb_le in E1; apply Z.ltb_lt in E2; lia.
Qed.

Lemma py_range_In (n i : Z) : In i (py_range n) <-> 0 <= i < n.
Proof.
  unfold py_range. rewrite in_map_iff. split.
  - intros (k & <- & Hk). apply in_seq in Hk. lia.
  - intros Hi. exists (Z.to_nat i). split; [lia|]. apply in_seq. lia.
Qed.

Lemma py_range_nonpos (n : Z) : n <= 0 -> py_range n = [].
Proof.
  intros Hn. unfold py_range. replace (Z.to_nat n) with 0%nat by lia. reflexivity.
Qed.

Lemma py_range_length (n : Z) : 0 <= n -> len (py_range n) = n.
Proof.
  intros Hn. unfold len, py_range. rewrite length_map, length_seq. lia.
Qed.

Lemma Forall2_nth_error_l {A B : Type} (P : A -> B -> Prop) (l : list A)
  (l' : list B) (k : nat) (a : A) :
  Forall2 P l l' -> nth_error l k = Some a ->
  exists b, nth_error l' k = Some b /\ P a b.
Proof.
  intros Hf. revert k. induction Hf as [|x y l l' Hxy Hf IH]; intros k.
  - destruct k; discriminate.
  - destruct k as [|k]; simpl.
    + intros [= <-]. eauto.
    + apply IH.
Qed.

(** ** Loops *)

(** A loop whose body only appends appends the concatenation. *)
Lemma for_each_appends {X C : Type} (xs : list X)
  (body : X -> list C -> result (list C)) (g : X -> list C) :
  (forall x m, In x xs -> body x m = Ok (m ++ g x)) ->
  forall m, for_each xs body m = Ok (m ++ flat_map g xs).
Proof.
  induction xs as [|x xs IH]; intros Hb m; simpl.
  - now rewrite app_nil_r.
  - rewrite Hb by now left. simpl.
    rewrite IH by (intros; apply Hb; now right).
    now rewrite app_assoc.
Qed.

(** A loop whose body can only extend the list extends it. *)
Lemma for_each_extends {X C : Type} (xs : list X)
  (body : X -> list C -> result (list C)) :
  (forall x m m', body x m = Ok m' -> exists ext, m' = m ++ ext) ->
  forall m m', for_each xs body m = Ok m' -> exists ext, m' = m ++ ext.
Proof.
  intros Hb. induction xs as [|x xs IH]; intros m m'; simpl.
  - intros [= <-]. exists []. now rewrite app_nil_r.
  - destruct (body x m) as [m1|e] eqn:E; simpl; [|discriminate].
    intros Hr. apply Hb in E as [e1 ->]. apply IH in Hr as [e2 ->].
    exists (e1 ++ e2). now rewrite app_assoc.
Qed.

(** A loop whose body leaves the state alone leaves it alone. *)
Lemma for_each_keeps {X St : Type} (xs : list X) (body : X -> St -> result St) :
  (forall x s s', body x s = Ok s' -> s' = s) ->
  forall s s', for_each xs body s = Ok s' -> s' = s.
Proof.
  intros Hb. induction xs as [|x xs IH]; intros s s'; simpl.
  - congruence.
  - destruct (body x s) as [s1|e] eqn:E; simpl; [|discriminate].
    intros Hr. apply Hb in E as ->. now apply IH.
Qed.

Lemma for_each_raise {X St : Type} (xs : list X) (body : X -> St -> result St) :
  (forall x s e, body x s = Raise e -> e = IndexError) ->
  forall s e, for_each xs body s = Raise e -> e = IndexError.
Proof.
  intros Hb. induction xs as [|x xs IH]; intros s e; simpl.
  - discriminate.
  - destruct (body x s) as [s1|e1] eqn:E; simpl.
    + apply IH.
    + intros [= <-]. eapply Hb; eauto.
Qed.

(** A loop in which one iteration fails from every state fails. *)
Lemma for_each_fails {X St : Type} (xs : list X) (body : X -> St -> result St)
  (x0 : X) :
  In x0 xs -> (forall s, exists e, body x0 s = Raise e) ->
  forall s, exists e, for_each xs body s = Raise e.
Proof.
  intros Hin Hf. induction xs as [|x xs IH]; [contradiction|].
  intros s. simpl. destruct Hin as [->|Hin].
  - destruct (Hf s) as [e ->]. simpl. eauto.
  - destruct (body x s) as [s1|e1]; simpl; [now apply IH | eauto].
Qed.

(** ** [sorted] *)

Section SortedFacts.
Variables (A K : Type).
Variable lt : K -> K -> bool.
Variable key : A -> K.

Lemma insert_stable_perm (x : A) (l : list A) :
  Permutation (insert_stable lt key x l) (x :: l).
Proof.
  induction l as [|y l IH]; simpl; [reflexivity|].
  destruct (lt (key y) (key x)); [|reflexivity].
  rewrite IH. apply perm_swap.
Qed.

Lemma sort_stable_perm (l : list A) : Permutation (sort_stable lt key l) l.
Proof.
  induction l as [|x l IH]; simpl; [reflexivity|].
  rewrite insert_stable_perm. now constructor.
Qed.

Lemma py_sorted_perm (reverse : bool) (l : list A) :
  Permutation (py_sorted lt key reverse l) l.
Proof.
  unfold py_sorted. destruct reverse.
  - rewrite <- Permutation_rev, sort_stable_perm. symmetry. apply Permutation_rev.
  - apply sort_stable_perm.
Qed.

(** An element greater than all of [l] goes to the end. *)
Lemma insert_stable_all_lt (x : A) (l : list A) :
  (forall y, In y l -> lt (key y) (key x) = true) ->
  insert_stable lt key x l = l ++ [x].
Proof.
  induction l as [|y l IH]; intros Hl; simpl; [reflexivity|].
  rewrite Hl by now left. f_equal. apply IH. intros; apply Hl; now right.
Qed.

(** An element not greater than the last one stays before it. *)
Lemma insert_stable_keeps_last (x c : A) (l : list A) :
  lt (key c) (key x) = false ->
  exists l', insert_stable lt key x (l ++ [c]) = l' ++ [c].
Proof.
  intros Hc. induction l as [|y l [l' IH]]; simpl.
  - rewrite Hc. now exists [x].
  - destruct (lt (key y) (key x)).
    + rewrite IH. now exists (y :: l').
    + now exists (x :: y :: l).
Qed.

Hypothesis lt_asym : forall a b, lt a b = true -> lt b a = false.

Lemma lt_irrefl (a : K) : lt a a = false.
Proof.
  destruct (lt a a) eqn:E; [|reflexivity]. now rewrite (lt_asym _ _ E) in E.
Qed.

(** Stability: the elements of one key keep their order. *)
Lemma insert_stable_filter (p : A -> bool) (x : A) (l : list A) :
  (forall y, p x = true -> p y = true -> lt (key y) (key x) = false) ->
  filter p (insert_stable lt key x l) = filter p (x :: l).
Proof.
  intros Hp. induction l as [|y l IH]; [reflexivity|].
  simpl insert_stable. destruct (lt (key y) (key x)) eqn:E; [|reflexivity].
  simpl filter at 1. rewrite IH. simpl.
  destruct (p x) eqn:Ex, (p y) eqn:Ey; try reflexivity.
  now rewrite Hp in E.
Qed.

Lemma sort_stable_filter (p : A -> bool) (l : list A) :
  (forall x y, p x = true -> p y = true -> lt (key y) (key x) = false) ->
  filter p (sort_stable lt key l) = filter p l.
Proof.
  intros Hp. induction l as [|x l IH]; [reflexivity|].
  simpl sort_stable. rewrite insert_stable_filter by (intros; now apply Hp).
  simpl. now rewrite IH.
Qed.

Lemma filter_rev (p : A -> bool) (l : list A) :
  filter p (rev l) = rev (filter p l).
Proof.
  induction l as [|x l IH]; [reflexivity|].
  simpl. rewrite filter_app, IH. simpl. destruct (p x); simpl.
  - reflexivity.
  - now rewrite app_nil_r.
Qed.

Lemma py_sorted_filter (p : A -> bool) (reverse : bool) (l : list A) :
  (forall x y, p x = true -> p y = true -> lt (key y) (key x) = false) ->
  filter p (py_sorted lt key reverse l) = filter p l.
Proof.
  intros Hp. unfold py_sorted. destruct reverse.
  - now rewrite filter_rev, sort_stable_filter, filter_rev, rev_involutive.
  - now apply sort_stable_filter.
Qed.

Hypothesis lt_negtrans :
  forall a b c, lt a c = true -> lt a b = true \/ lt b c = true.

(** The ascending sort ends with the last of the greatest elements. *)
Lemma sort_stable_last (l : list A) :
  l <> [] ->
  exists before c after s,
    l = before ++ c :: after /\
    sort_stable lt key l = s ++ [c] /\
    (forall c', In c' l -> lt (key c) (key c') = false) /\
    (forall c', In c' after -> lt (key c') (key c) = true).
Proof.
  induction l as [|x l IH]; [congruence|]. intros _.
  destruct l as [|x' l].
  - exists [], x, [], []. repeat split; try reflexivity.
    + intros c' [<-|[]]. apply lt_irrefl.
    + intros c' [].
  - destruct IH as (before & c & after & s & Hl & Hs & Hmax & Hafter); [congruence|].
    simpl sort_stable in *. rewrite Hs.
    destruct (lt (key c) (key x)) eqn:E.
    + assert (Hall : forall y, In y (x' :: l) -> lt (key y) (key x) = true).
      { intros y Hy. destruct (lt_negtrans (key c) (key y) (key x) E) as [H'|H'];
          [|assumption]. now rewrite (Hmax y Hy) in H'. }
      rewrite insert_stable_all_lt.
      * exists [], x, (x' :: l), (s ++ [c]). repeat split; try reflexivity.
        -- intros c' [<-|Hc']; [apply lt_irrefl|]. apply lt_asym. now apply Hall.
        -- assumption.
      * intros y Hy. apply Hall.
        eapply Permutation_in; [|rewrite <- Hs in Hy; exact Hy].
        apply (sort_stable_perm (x' :: l)).
    + destruct (insert_stable_keeps_last x c s E) as [s' Hs'].
      exists (x :: before), c, after, s'. repeat split.
      * simpl. now rewrite Hl.
      * assumption.
      * intros c' [<-|Hc']; [assumption|]. now apply Hmax.
      * assumption.
Qed.

(** [sorted(l, key=key, reverse=True)[0]] is the first of the elements
    whose key is greatest. *)
Lemma py_sorted_reverse_head (l : list A) :
  l <> [] ->
  exists before c after rest,
    l = before ++ c :: after /\
    py_sorted lt key true l = c :: rest /\
    (forall c', In c' l -> lt (key c) (key c') = false) /\
    (forall c', In c' before -> lt (key c') (key c) = true).
Proof.
  intros Hl.
  destruct (sort_stable_last (rev l)) as (b & c & a & s & Hr & Hs & Hmax & Ha).
  { intros E. apply Hl. rewrite <- (rev_involutive l), E. reflexivity. }
  exists (rev a), c, (rev b), (rev s). repeat split.
  - rewrite <- (rev_involutive l), Hr, rev_app_distr. simpl.
    now rewrite <- app_assoc.
  - unfold py_sorted. rewrite Hs, rev_app_distr. reflexivity.
  - intros c' Hc'. apply Hmax. now apply in_rev in Hc'.
  - intros c' Hc'. apply Ha. now apply in_rev.
Qed.
End SortedFacts.

(** ** Well-formed n-best sets *)

Lemma same_lens_length {A B : Type} (xs : list (list A)) (ys : list (list B)) :
  same_lens xs ys = true -> List.length xs = List.length ys.
Proof.
  revert ys. induction xs as [|x xs IH]; intros [|y ys]; simpl; try discriminate.
  - reflexivity.
  - intros E. apply andb_prop in E as [_ E]. f_equal. now apply IH.
Qed.

Lemma same_lens_rank {A B : Type} (xs : list (list A)) (ys : list (list B)) (n : Z) :
  same_lens xs ys = true -> len (rank xs n) = len (rank ys n).
Proof.
  unfold rank. generalize (Z.to_nat n) as k. revert ys.
  induction xs as [|x xs IH]; intros [|y ys] k; simpl; try discriminate.
  - now destruct k.
  - intros E. apply andb_prop in E as [E1 E2]. apply Nat.eqb_eq in E1.
    destruct k as [|k]; [unfold len; now rewrite E1 | now apply IH].
Qed.

Lemma py_index_rank {A : Type} (l : list (list A)) (n : Z) :
  0 <= n < len l -> py_index l n = Ok (rank l n).
Proof.
  intros Hn. destruct (py_index_nonneg l n Hn) as (a & Ha & ->).
  unfold rank. f_equal. symmetry. now apply nth_error_nth.
Qed.

Lemma py_index_total {A : Type} (l : list A) (i : Z) :
  - len l <= i < len l -> exists a, py_index l i = Ok a.
Proof.
  intros Hi. destruct (Z.lt_ge_cases i 0).
  - destruct (py_index_neg l i) as (a & _ & Ha); [lia|eauto].
  - destruct (py_index_nonneg l i) as (a & _ & Ha); [lia|eauto].
Qed.

Lemma wf_nbest_inv {S Row : Type} (nbest : Z) (hyps : list (list Z))
  (aws : list (list Row)) (scores : list (list S)) :
  wf_nbest nbest hyps aws scores = true ->
  nbest <= len hyps /\ len aws = len hyps /\ len scores = len hyps /\
  (forall n, len (rank aws n) = len (rank hyps n)) /\
  (forall n, len (rank scores n) = len (rank hyps n)).
Proof.
  unfold wf_nbest. intros E.
  apply andb_prop in E as [E E4]. apply andb_prop in E as [E E3].
  apply andb_prop in E as [E1 E2]. apply Z.leb_le in E2.
  pose proof (same_lens_length _ _ E3). pose proof (same_lens_length _ _ E4).
  repeat split; unfold len in *; try lia.
  - intros n. symmetry. now apply same_lens_rank.
  - intros n. symmetry. now apply same_lens_rank.
Qed.

Lemma py_index2_rank {A : Type} (X : list (list (list A))) (Xb : list (list A))
  (b n : Z) :
  py_index X b = Ok Xb -> 0 <= n < len Xb -> py_index2 X b n = Ok (rank Xb n).
Proof.
  intros Hb Hn. unfold py_index2. rewrite Hb. simpl. now apply py_index_rank.
Qed.

(** ** The cross-splice search *)

Section FusionFacts.
Context {S Row : Type} `{Score S} `{Attention Row}.

Variables (nbest_hyps_fwd : list (list (list Z)))
          (aws_fwd : list (list (list Row)))
          (scores_fwd : list (list (list S)))
          (nbest_hyps_bwd : list (list (list Z)))
          (aws_bwd : list (list (list Row)))
          (scores_bwd : list (list (list S))).

Local Abbreviation body :=
  (splice_body nbest_hyps_fwd aws_fwd scores_fwd nbest_hyps_bwd aws_bwd scores_bwd).
Local Abbreviation appended :=
  (appended_at nbest_hyps_fwd aws_fwd scores_fwd nbest_hyps_bwd aws_bwd scores_bwd).
Local Abbreviation loop_i_b :=
  (splice_i_b nbest_hyps_fwd aws_fwd scores_fwd nbest_hyps_bwd aws_bwd scores_bwd).
Local Abbreviation loop_i_f :=
  (splice_i_f nbest_hyps_fwd aws_fwd scores_fwd nbest_hyps_bwd aws_bwd scores_bwd).
Local Abbreviation search :=
  (splice_search nbest_hyps_fwd aws_fwd scores_fwd nbest_hyps_bwd aws_bwd scores_bwd).

Section Item.
(** One batch item [b] and its two n-best sets. *)
Variables (b nbest : Z).
Variables (HF : list (list Z)) (AF : list (list Row)) (SF : list (list S))
          (HB : list (list Z)) (AB : list (list Row)) (SB : list (list S)).
Hypothesis item_hf : py_index nbest_hyps_fwd b = Ok HF.
Hypothesis item_af : py_index aws_fwd b = Ok AF.
Hypothesis item_sf : py_index scores_fwd b = Ok SF.
Hypothesis item_hb : py_index nbest_hyps_bwd b = Ok HB.
Hypothesis item_ab : py_index aws_bwd b = Ok AB.
Hypothesis item_sb : py_index scores_bwd b = Ok SB.
Hypothesis wf_fwd : wf_nbest nbest HF AF SF = true.
Hypothesis wf_bwd : wf_nbest nbest HB AB SB = true.

(** One iteration: every read succeeds, and the candidate is appended
    exactly when the three timesteps are ordered and the tokens
    agree. *)
Lemma splice_body_spec (n_f n_b i_f i_b : Z) :
  0 <= n_f < nbest -> 0 <= n_b < nbest ->
  0 <= i_f < len (rank AF n_f) - 1 -> 0 <= i_b < len (rank AB n_b) - 1 ->
  exists r_prev r_curr r_next tok_f tok_b sf_i sf_p sb_i sb_n,
    py_index (rank AB n_b) (i_b + 1) = Ok r_prev /\
    py_index (rank AF n_f) i_f = Ok r_curr /\
    py_index (rank AB n_b) (i_b - 1) = Ok r_next /\
    py_index (rank HF n_f) i_f = Ok tok_f /\
    py_index (rank HB n_b) i_b = Ok tok_b /\
    py_index (rank SF n_f) i_f = Ok sf_i /\
    py_index (rank SF n_f) (i_f - 1) = Ok sf_p /\
    py_index (rank SB n_b) i_b = Ok sb_i /\
    py_index (rank SB n_b) (i_b + 1) = Ok sb_n /\
    forall merged,
      body b n_f n_b i_f i_b merged =
      Ok (if (argmax r_prev <=? argmax r_curr) &&
             (argmax r_curr <=? argmax r_next) && (tok_f =? tok_b)
          then merged ++
               [mk_cand (firstn (Z.to_nat (i_f + 1)) (rank HF n_f) ++
                         skipn (Z.to_nat (i_b + 1)) (rank HB n_b))
                        (sadd (sadd sf_p sb_n)
                              (py_max (ssub sf_i sf_p) (ssub sb_i sb_n)))]
          else merged).
Proof.
  intros Hnf Hnb Hif Hib.
  destruct (wf_nbest_inv _ _ _ _ wf_fwd) as (F1 & F2 & F3 & F4 & F5).
  destruct (wf_nbest_inv _ _ _ _ wf_bwd) as (B1 & B2 & B3 & B4 & B5).
  specialize (F4 n_f). specialize (F5 n_f).
  specialize (B4 n_b). specialize (B5 n_b).
  destruct (py_index_total (rank AB n_b) (i_b + 1)) as [r_prev E1]; [lia|].
  destruct (py_index_total (rank AF n_f) i_f) as [r_curr E2]; [lia|].
  destruct (py_index_total (rank AB n_b) (i_b - 1)) as [r_next E3]; [lia|].
  destruct (py_index_total (rank HF n_f) i_f) as [tok_f E4]; [lia|].
  destruct (py_index_total (rank HB n_b) i_b) as [tok_b E5]; [lia|].
  destruct (py_index_total (rank SF n_f) i_f) as [sf_i E6]; [lia|].
  destruct (py_index_total (rank SF n_f) (i_f - 1)) as [sf_p E7]; [lia|].
  destruct (py_index_total (rank SB n_b) i_b) as [sb_i E8]; [lia|].
  destruct (py_index_total (rank SB n_b) (i_b + 1)) as [sb_n E9]; [lia|].
  exists r_prev, r_curr, r_next, tok_f, tok_b, sf_i, sf_p, sb_i, sb_n.
  repeat (split; [assumption|]).
  intros merged. unfold splice_body.
  rewrite (py_index2_rank aws_bwd AB b n_b) by (assumption || lia).
  rewrite (py_index2_rank aws_fwd AF b n_f) by (assumption || lia).
  rewrite (py_index2_rank nbest_hyps_fwd HF b n_f) by (assumption || lia).
  rewrite (py_index2_rank nbest_hyps_bwd HB b n_b) by (assumption || lia).
  rewrite (py_index2_rank scores_fwd SF b n_f) by (assumption || lia).
  rewrite (py_index2_rank scores_bwd SB b n_b) by (assumption || lia).
  cbn [bind]. rewrite E1. cbn [bind]. rewrite E2. cbn [bind].
  rewrite E3. cbn [bind].
  destruct (argmax r_prev <=? argmax r_curr); [|reflexivity].
  destruct (argmax r_curr <=? argmax r_next); [|reflexivity].
  rewrite E4. cbn [bind]. rewrite E5. cbn [bind].
  destruct (tok_f =? tok_b); [|reflexivity].
  rewrite E6. cbn [bind]. rewrite E7. cbn [bind].
  rewrite E8. cbn [bind]. rewrite E9. cbn [bind].
  unfold py_slice_to, py_slice_from.
  destruct (Z.ltb_spec (i_f + 1) 0); [lia|].
  destruct (Z.ltb_spec (i_b + 1) 0); [lia|].
  reflexivity.
Qed.

Lemma splice_body_appended (n_f n_b i_f i_b : Z) (merged : list (cand S)) :
  0 <= n_f < nbest -> 0 <= n_b < nbest ->
  0 <= i_f < len (rank AF n_f) - 1 -> 0 <= i_b < len (rank AB n_b) - 1 ->
  body b n_f n_b i_f i_b merged = Ok (merged ++ appended b n_f n_b i_f i_b).
Proof.
  intros Hnf Hnb Hif Hib.
  destruct (splice_body_spec n_f n_b i_f i_b Hnf Hnb Hif Hib)
    as (r1 & r2 & r3 & t1 & t2 & s1 & s2 & s3 & s4 & _ & _ & _ & _ & _ & _ & _ & _ & _ & Hb).
  unfold appended_at. rewrite (Hb []), (Hb merged).
  destruct (_ && _); simpl; [reflexivity | now rewrite app_nil_r].
Qed.

Lemma splice_i_b_spec (n_f n_b i_f : Z) (merged : list (cand S)) :
  0 <= n_f < nbest -> 0 <= n_b < nbest ->
  0 <= i_f < len (rank AF n_f) - 1 ->
  loop_i_b b n_f n_b i_f merged =
  Ok (merged ++ flat_map (appended b n_f n_b i_f)
                         (py_range (len (rank AB n_b) - 1))).
Proof.
  intros Hnf Hnb Hif.
  destruct (wf_nbest_inv _ _ _ _ wf_bwd) as (B1 & B2 & _).
  unfold splice_i_b.
  rewrite (py_index2_rank aws_bwd AB b n_b) by (assumption || lia).
  cbn [bind]. apply for_each_appends.
  intros i_b m Hin. apply py_range_In in Hin.
  now apply splice_body_appended.
Qed.

Lemma splice_i_f_spec (n_f n_b : Z) (merged : list (cand S)) :
  0 <= n_f < nbest -> 0 <= n_b < nbest ->
  loop_i_f b n_f n_b merged =
  Ok (merged ++
      flat_map (fun i_f => flat_map (appended b n_f n_b i_f)
                                    (py_range (len (rank AB n_b) - 1)))
               (py_range (len (rank AF n_f) - 1))).
Proof.
  intros Hnf Hnb.
  destruct (wf_nbest_inv _ _ _ _ wf_fwd) as (F1 & F2 & _).
  unfold splice_i_f.
  rewrite (py_index2_rank aws_fwd AF b n_f) by (assumption || lia).
  cbn [bind].
  apply (for_each_appends _ _
           (fun i_f => flat_map (appended b n_f n_b i_f)
                                (py_range (len (rank AB n_b) - 1)))).
  intros i_f m Hin. apply py_range_In in Hin.
  now apply splice_i_b_spec.
Qed.

Lemma splice_search_spec (merged : list (cand S)) :
  search nbest b merged =
  Ok (merged ++
      flat_map (fun n_f =>
        flat_map (fun n_b =>
          flat_map (fun i_f =>
            flat_map (appended b n_f n_b i_f)
                     (py_range (len (rank AB n_b) - 1)))
            (py_range (len (rank AF n_f) - 1)))
          (py_range nbest))
        (py_range nbest)).
Proof.
  unfold splice_search.
  apply (for_each_appends _ _
           (fun n_f =>
              flat_map (fun n_b =>
                flat_map (fun i_f =>
                  flat_map (appended b n_f n_b i_f)
                           (py_range (len (rank AB n_b) - 1)))
                  (py_range (len (rank AF n_f) - 1)))
                (py_range nbest))).
  intros n_f m Hnf. apply py_range_In in Hnf.
  apply (for_each_appends _ _
           (fun n_b =>
              flat_map (fun i_f =>
                flat_map (appended b n_f n_b i_f)
                         (py_range (len (rank AB n_b) - 1)))
                (py_range (len (rank AF n_f) - 1)))).
  intros n_b m' Hnb. apply py_range_In in Hnb.
  now apply splice_i_f_spec.
Qed.
Lemma appended_at_spec (n_f n_b i_f i_b : Z) :
  0 <= n_f < nbest -> 0 <= n_b < nbest ->
  0 <= i_f < len (rank AF n_f) - 1 -> 0 <= i_b < len (rank AB n_b) - 1 ->
  exists r_prev r_curr r_next tok_f tok_b sf_i sf_p sb_i sb_n,
    py_index (rank AB n_b) (i_b + 1) = Ok r_prev /\
    py_index (rank AF n_f) i_f = Ok r_curr /\
    py_index (rank AB n_b) (i_b - 1) = Ok r_next /\
    py_index (rank HF n_f) i_f = Ok tok_f /\
    py_index (rank HB n_b) i_b = Ok tok_b /\
    py_index (rank SF n_f) i_f = Ok sf_i /\
    py_index (rank SF n_f) (i_f - 1) = Ok sf_p /\
    py_index (rank SB n_b) i_b = Ok sb_i /\
    py_index (rank SB n_b) (i_b + 1) = Ok sb_n /\
    appended b n_f n_b i_f i_b =
    if (argmax r_prev <=? argmax r_curr) &&
       (argmax r_curr <=? argmax r_next) && (tok_f =? tok_b)
    then [mk_cand (firstn (Z.to_nat (i_f + 1)) (rank HF n_f) ++
                   skipn (Z.to_nat (i_b + 1)) (rank HB n_b))
                  (sadd (sadd sf_p sb_n)
                        (py_max (ssub sf_i sf_p) (ssub sb_i sb_n)))]
    else [].
Proof.
  intros Hnf Hnb Hif Hib.
  destruct (splice_body_spec n_f n_b i_f i_b Hnf Hnb Hif Hib)
    as (r1 & r2 & r3 & t1 & t2 & s1 & s2 & s3 & s4 &
        E1 & E2 & E3 & E4 & E5 & E6 & E7 & E8 & E9 & Hb).
  exists r1, r2, r3, t1, t2, s1, s2, s3, s4.
  repeat (split; [assumption|]).
  unfold appended_at. rewrite (Hb []). now destruct (_ && _).
Qed.

(** C1. In the cross-splice search of one batch item, the loops visit
    every pair of ranks [n_f], [n_b] and every step [i_f], [i_b] but the
    last of each alignment, in this order, and append what each iteration
    yields. An iteration reads the backward rows [i_b + 1] and [i_b - 1]
    and the forward row [i_f]; it appends a candidate if and only if
    [t_prev <= t_curr <= t_next] and the forward token at [i_f] is the
    backward token at [i_b]. The candidate is the forward tokens up to
    [i_f] followed by the backward tokens from [i_b + 1], and its score is
    [forward_score[i_f - 1] + backward_score[i_b + 1] +
     max(forward_score[i_f] - forward_score[i_f - 1],
         backward_score[i_b] - backward_score[i_b + 1])]. *)
Theorem cross_splice_search :
  (forall merged,
      search nbest b merged =
      Ok (merged ++
          flat_map (fun n_f =>
            flat_map (fun n_b =>
              flat_map (fun i_f =>
                flat_map (appended b n_f n_b i_f)
                         (py_range (len (rank AB n_b) - 1)))
                (py_range (len (rank AF n_f) - 1)))
              (py_range nbest))
            (py_range nbest))) /\
  (forall n_f n_b i_f i_b,
      0 <= n_f < nbest -> 0 <= n_b < nbest ->
      0 <= i_f < len (rank AF n_f) - 1 -> 0 <= i_b < len (rank AB n_b) - 1 ->
      exists r_prev r_curr r_next tok_f tok_b sf_i sf_p sb_i sb_n,
        py_index (rank AB n_b) (i_b + 1) = Ok r_prev /\
        py_index (rank AF n_f) i_f = Ok r_curr /\
        py_index (rank AB n_b) (i_b - 1) = Ok r_next /\
        py_index (rank HF n_f) i_f = Ok tok_f /\
        py_index (rank HB n_b) i_b = Ok tok_b /\
        py_index (rank SF n_f) i_f = Ok sf_i /\
        py_index (rank SF n_f) (i_f - 1) = Ok sf_p /\
        py_index (rank SB n_b) i_b = Ok sb_i /\
        py_index (rank SB n_b) (i_b + 1) = Ok sb_n /\
        appended b n_f n_b i_f i_b =
        if (argmax r_prev <=? argmax r_curr) &&
           (argmax r_curr <=? argmax r_next) && (tok_f =? tok_b)
        then [mk_cand (firstn (Z.to_nat (i_f + 1)) (rank HF n_f) ++
                       skipn (Z.to_nat (i_b + 1)) (rank HB n_b))
                      (sadd (sadd sf_p sb_n)
                            (py_max (ssub sf_i sf_p) (ssub sb_i sb_n)))]
        else []).
Proof.
  split.
  - apply splice_search_spec.
  - apply appended_at_spec.
Qed.

Lemma py_index_last {A : Type} (l : list A) :
  1 <= len l ->
  exists a, nth_error l (List.length l - 1) = Some a /\ py_index l (-1) = Ok a.
Proof.
  intros Hl. destruct (py_index_neg l (-1)) as (a & Ha & Hp); [lia|].
  exists a. split; [|assumption].
  replace (List.length l - 1)%nat with (Z.to_nat (-1 + len l)); [assumption|].
  unfold len. lia.
Qed.

(** C9. The search never raises on a well-formed item, and its first
    steps wrap around: at [i_b = 0] the row read for [t_next] is the last
    backward alignment row, and at [i_f = 0] the prefix score
    [forward_score[i_f - 1]] is the last cumulative forward score; the
    candidates of these iterations are built from those values. At the
    last searched [i_b] the index [i_b + 1] is the last row itself. *)
Theorem cross_splice_wraps_around :
  (forall merged, exists merged', search nbest b merged = Ok merged') /\
  (forall n_f n_b i_f,
      0 <= n_f < nbest -> 0 <= n_b < nbest ->
      0 <= i_f < len (rank AF n_f) - 1 -> 0 < len (rank AB n_b) - 1 ->
      exists r_prev r_curr r_last tok_f tok_b sf_i sf_p sb_i sb_n,
        nth_error (rank AB n_b) (List.length (rank AB n_b) - 1) = Some r_last /\
        py_index (rank AB n_b) (0 - 1) = Ok r_last /\
        py_index (rank AB n_b) 1 = Ok r_prev /\
        py_index (rank AF n_f) i_f = Ok r_curr /\
        py_index (rank HF n_f) i_f = Ok tok_f /\
        py_index (rank HB n_b) 0 = Ok tok_b /\
        py_index (rank SF n_f) i_f = Ok sf_i /\
        py_index (rank SF n_f) (i_f - 1) = Ok sf_p /\
        py_index (rank SB n_b) 0 = Ok sb_i /\
        py_index (rank SB n_b) 1 = Ok sb_n /\
        appended b n_f n_b i_f 0 =
        if (argmax r_prev <=? argmax r_curr) &&
           (argmax r_curr <=? argmax r_last) && (tok_f =? tok_b)
        then [mk_cand (firstn (Z.to_nat (i_f + 1)) (rank HF n_f) ++
                       skipn 1 (rank HB n_b))
                      (sadd (sadd sf_p sb_n)
                            (py_max (ssub sf_i sf_p) (ssub sb_i sb_n)))]
        else []) /\
  (forall n_f n_b i_b,
      0 <= n_f < nbest -> 0 <= n_b < nbest ->
      0 < len (rank AF n_f) - 1 -> 0 <= i_b < len (rank AB n_b) - 1 ->
      exists r_prev r_curr r_next tok_f tok_b sf_0 sf_last sb_i sb_n,
        nth_error (rank SF n_f) (List.length (rank SF n_f) - 1) = Some sf_last /\
        py_index (rank SF n_f) (0 - 1) = Ok sf_last /\
        py_index (rank AB n_b) (i_b + 1) = Ok r_prev /\
        py_index (rank AF n_f) 0 = Ok r_curr /\
        py_index (rank AB n_b) (i_b - 1) = Ok r_next /\
        py_index (rank HF n_f) 0 = Ok tok_f /\
        py_index (rank HB n_b) i_b = Ok tok_b /\
        py_index (rank SF n_f) 0 = Ok sf_0 /\
        py_index (rank SB n_b) i_b = Ok sb_i /\
        py_index (rank SB n_b) (i_b + 1) = Ok sb_n /\
        appended b n_f n_b 0 i_b =
        if (argmax r_prev <=? argmax r_curr) &&
           (argmax r_curr <=? argmax r_next) && (tok_f =? tok_b)
        then [mk_cand (firstn 1 (rank HF n_f) ++
                       skipn (Z.to_nat (i_b + 1)) (rank HB n_b))
                      (sadd (sadd sf_last sb_n)
                            (py_max (ssub sf_0 sf_last) (ssub sb_i sb_n)))]
        else []) /\
  (forall n_b i_b,
      0 <= n_b < nbest -> i_b = len (rank AB n_b) - 2 -> 0 <= i_b ->
      exists r_prev,
        nth_error (rank AB n_b) (List.length (rank AB n_b) - 1) = Some r_prev /\
        py_index (rank AB n_b) (i_b + 1) = Ok r_prev).
Proof.
  destruct (wf_nbest_inv _ _ _ _ wf_fwd) as (F1 & F2 & F3 & F4 & F5).
  destruct (wf_nbest_inv _ _ _ _ wf_bwd) as (B1 & B2 & B3 & B4 & B5).
  split; [|split; [|split]].
  - intros merged. rewrite splice_search_spec. eauto.
  - intros n_f n_b i_f Hnf Hnb Hif Hab.
    destruct (appended_at_spec n_f n_b i_f 0 Hnf Hnb Hif)
      as (r1 & r2 & r3 & t1 & t2 & s1 & s2 & s3 & s4 &
          E1 & E2 & E3 & E4 & E5 & E6 & E7 & E8 & E9 & Ha); [lia|].
    destruct (py_index_last (rank AB n_b)) as (rl & Hl1 & Hl2); [lia|].
    change (0 - 1) with (-1) in *. change (0 + 1) with 1 in *.
    assert (r3 = rl) as -> by congruence.
    exists r1, r2, rl, t1, t2, s1, s2, s3, s4.
    repeat (split; [assumption|]). exact Ha.
  - intros n_f n_b i_b Hnf Hnb Haf Hib.
    destruct (appended_at_spec n_f n_b 0 i_b Hnf Hnb)
      as (r1 & r2 & r3 & t1 & t2 & s1 & s2 & s3 & s4 &
          E1 & E2 & E3 & E4 & E5 & E6 & E7 & E8 & E9 & Ha); [lia|lia|].
    specialize (F5 n_f). specialize (F4 n_f).
    destruct (py_index_last (rank SF n_f)) as (sl & Hl1 & Hl2); [lia|].
    change (0 - 1) with (-1) in *. change (0 + 1) with 1 in *.
    assert (s2 = sl) as -> by congruence.
    exists r1, r2, r3, t1, t2, s1, sl, s3, s4.
    repeat (split; [assumption|]). exact Ha.
  - intros n_b i_b Hnb -> Hib.
    destruct (py_index_nonneg (rank AB n_b) (len (rank AB n_b) - 2 + 1))
      as (r & Hr1 & Hr2); [lia|].
    exists r. split; [|assumption].
    replace (List.length (rank AB n_b) - 1)%nat
      with (Z.to_nat (len (rank AB n_b) - 2 + 1)); [assumption|].
    unfold len in *. lia.
Qed.
End Item.
End FusionFacts.

(** ** Seeding the candidate list *)

Lemma nth_error_last {A : Type} (l : list A) (a d : A) :
  nth_error l (List.length l - 1) = Some a -> last l d = a.
Proof.
  induction l as [|x l IH]; [discriminate|].
  destruct l as [|y l].
  - simpl. congruence.
  - intros E. change (last (x :: y :: l) d) with (last (y :: l) d). apply IH.
    replace (List.length (y :: l) - 1)%nat with (List.length l) by (simpl; lia).
    replace (List.length (x :: y :: l) - 1)%nat with (Datatypes.S (List.length l)) in E
      by (simpl; lia).
    exact E.
Qed.

Lemma py_slice_to_removelast {A : Type} (l : list A) :
  py_slice_to l (-1) = removelast l.
Proof.
  unfold py_slice_to. rewrite removelast_firstn_len.
  change (-1 <? 0) with true. cbv iota. f_equal. unfold len.
  rewrite <- Nat.sub_1_r. lia.
Qed.

Lemma py_slice_from_tl {A : Type} (l : list A) : py_slice_from l 1 = tl l.
Proof. now destruct l. Qed.

Lemma py_index_hd (l : list Z) :
  1 <= len l -> py_index l 0 = Ok (hd 0 l).
Proof.
  intros Hl. destruct (py_index_nonneg l 0) as (a & Ha & ->); [lia|].
  destruct l; simpl in *; congruence.
Qed.

Section SeedFacts.
Context {S : Type} `{Score S}.

Variables (nbest_hyps_fwd : list (list (list Z)))
          (scores_fwd : list (list (list S)))
          (nbest_hyps_bwd : list (list (list Z)))
          (scores_bwd : list (list (list S))).

(** C2. Step 1 of the fusion, for the hypothesis of rank [n] of item
    [b]. Forward: a hypothesis of more than one token that ends with the
    end marker is seeded without it, with the second-to-last cumulative
    score; one that does not end with it is seeded whole with its last
    score; a hypothesis of at most one token adds nothing. Backward: the
    same with the first token and the second, resp. first, score. The
    loop body seeds the forward hypothesis, then the backward one. In
    particular [[t1, t2, eos]] with scores [[s1, s2, s3]] is seeded as
    [[t1, t2]] with score [s2]. *)
Theorem seed_candidates (b n : Z) (merged : list (cand S)) :
  (forall h sc,
      py_index2 nbest_hyps_fwd b n = Ok h ->
      py_index2 scores_fwd b n = Ok sc ->
      List.length sc = List.length h ->
      (1 < len h -> last h 0 = eos ->
       exists s, nth_error sc (List.length sc - 2) = Some s /\
                 seed_fwd nbest_hyps_fwd scores_fwd b n merged =
                 Ok (merged ++ [mk_cand (removelast h) s])) /\
      (1 < len h -> last h 0 <> eos ->
       exists s, nth_error sc (List.length sc - 1) = Some s /\
                 seed_fwd nbest_hyps_fwd scores_fwd b n merged =
                 Ok (merged ++ [mk_cand h s])) /\
      (len h <= 1 ->
       seed_fwd nbest_hyps_fwd scores_fwd b n merged = Ok merged)) /\
  (forall h sc,
      py_index2 nbest_hyps_bwd b n = Ok h ->
      py_index2 scores_bwd b n = Ok sc ->
      List.length sc = List.length h ->
      (1 < len h -> hd 0 h = eos ->
       exists s, nth_error sc 1 = Some s /\
                 seed_bwd nbest_hyps_bwd scores_bwd b n merged =
                 Ok (merged ++ [mk_cand (tl h) s])) /\
      (1 < len h -> hd 0 h <> eos ->
       exists s, nth_error sc 0 = Some s /\
                 seed_bwd nbest_hyps_bwd scores_bwd b n merged =
                 Ok (merged ++ [mk_cand h s])) /\
      (len h <= 1 ->
       seed_bwd nbest_hyps_bwd scores_bwd b n merged = Ok merged)) /\
  (forall merged1,
      seed_fwd nbest_hyps_fwd scores_fwd b n merged = Ok merged1 ->
      seed_step nbest_hyps_fwd scores_fwd nbest_hyps_bwd scores_bwd b n merged =
      seed_bwd nbest_hyps_bwd scores_bwd b n merged1) /\
  (forall t1 t2 s1 s2 s3,
      py_index2 nbest_hyps_fwd b n = Ok [t1; t2; eos] ->
      py_index2 scores_fwd b n = Ok [s1; s2; s3] ->
      seed_fwd nbest_hyps_fwd scores_fwd b n merged =
      Ok (merged ++ [mk_cand [t1; t2] s2])).
Proof.
  split; [|split; [|split]].
  - intros h sc Hh Hsc Hlen.
    assert (Hl : len sc = len h) by (unfold len; lia).
    unfold seed_fwd. rewrite Hh, Hsc. cbn [bind].
    split; [|split].
    + intros H1 Heos. destruct (Z.ltb_spec 1 (len h)); [|lia].
      destruct (py_index_last h) as (t & Ht1 & Ht2); [lia|].
      rewrite Ht2. cbn [bind].
      apply nth_error_last with (d := 0) in Ht1. rewrite Ht1 in Heos.
      rewrite Heos, Z.eqb_refl.
      destruct (py_index_neg sc (-2)) as (s & Hs1 & Hs2); [lia|].
      rewrite Hs2. cbn [bind]. exists s. split.
      * replace (List.length sc - 2)%nat with (Z.to_nat (-2 + len sc));
          [assumption | unfold len; lia].
      * now rewrite py_slice_to_removelast.
    + intros H1 Heos. destruct (Z.ltb_spec 1 (len h)); [|lia].
      destruct (py_index_last h) as (t & Ht1 & Ht2); [lia|].
      rewrite Ht2. cbn [bind].
      apply nth_error_last with (d := 0) in Ht1. rewrite Ht1 in Heos.
      destruct (Z.eqb_spec t eos); [contradiction|].
      destruct (py_index_last sc) as (s & Hs1 & Hs2); [lia|].
      rewrite Hs2. cbn [bind]. eauto.
    + intros H1. destruct (Z.ltb_spec 1 (len h)); [lia|]. reflexivity.
  - intros h sc Hh Hsc Hlen.
    assert (Hl : len sc = len h) by (unfold len; lia).
    unfold seed_bwd. rewrite Hh, Hsc. cbn [bind].
    split; [|split].
    + intros H1 Heos. destruct (Z.ltb_spec 1 (len h)); [|lia].
      rewrite py_index_hd by lia. cbn [bind].
      rewrite Heos, Z.eqb_refl.
      destruct (py_index_nonneg sc 1) as (s & Hs1 & Hs2); [lia|].
      rewrite Hs2. cbn [bind]. exists s. split; [assumption|].
      now rewrite py_slice_from_tl.
    + intros H1 Heos. destruct (Z.ltb_spec 1 (len h)); [|lia].
      rewrite py_index_hd by lia. cbn [bind].
      destruct (Z.eqb_spec (hd 0 h) eos); [contradiction|].
      destruct (py_index_nonneg sc 0) as (s & Hs1 & Hs2); [lia|].
      rewrite Hs2. cbn [bind]. eauto.
    + intros H1. destruct (Z.ltb_spec 1 (len h)); [lia|]. reflexivity.
  - intros merged1 Hm. unfold seed_step. now rewrite Hm.
  - intros t1 t2 s1 s2 s3 Hh Hsc.
    unfold seed_fwd. rewrite Hh, Hsc. reflexivity.
Qed.
End SeedFacts.

(** ** Exceptions of the fusion *)

Lemma oie_ok {A : Type} (a : A) : only_index_error (Ok a).
Proof. intros e. discriminate. Qed.

Lemma oie_py_index {A : Type} (l : list A) (i : Z) : only_index_error (py_index l i).
Proof. intros e. apply py_index_raise. Qed.

Lemma oie_bind {A B : Type} (m : result A) (k : A -> result B) :
  only_index_error m -> (forall a, only_index_error (k a)) ->
  only_index_error (bind m k).
Proof.
  intros Hm Hk e. destruct m as [a|e']; simpl.
  - apply Hk.
  - intros [= <-]. now apply Hm.
Qed.

Lemma oie_py_index2 {A : Type} (l : list (list A)) (b n : Z) :
  only_index_error (py_index2 l b n).
Proof. apply oie_bind; [|intros ?]; apply oie_py_index. Qed.

Lemma oie_for_each {X St : Type} (xs : list X) (body : X -> St -> result St) (s : St) :
  (forall x s', only_index_error (body x s')) ->
  only_index_error (for_each xs body s).
Proof. intros Hb e. apply for_each_raise. intros x s' e'. apply Hb. Qed.

Ltac oie :=
  repeat first
    [ apply oie_ok
    | apply oie_py_index
    | apply oie_py_index2
    | apply oie_bind; [|intros ?]
    | apply oie_for_each; intros ? ?
    | match goal with
      | |- only_index_error (if ?c then _ else _) => destruct c
      end ].

Ltac step_ok H :=
  repeat match type of H with
    | bind ?m _ = Ok _ =>
        let E := fresh "E" in
        destruct m eqn:E; cbn [bind] in H; [|discriminate H]
    | (if ?c then _ else _) = Ok _ => destruct c
    end.

Section FuseFacts.
Context {S Row : Type} `{Score S} `{Attention Row}.

Variables (nbest_hyps_fwd : list (list (list Z)))
          (aws_fwd : list (list (list Row)))
          (scores_fwd : list (list (list S)))
          (nbest_hyps_bwd : list (list (list Z)))
          (aws_bwd : list (list (list Row)))
          (scores_bwd : list (list (list S))).

Local Abbreviation seeding :=
  (seed_step nbest_hyps_fwd scores_fwd nbest_hyps_bwd scores_bwd).
Local Abbreviation search :=
  (splice_search nbest_hyps_fwd aws_fwd scores_fwd nbest_hyps_bwd aws_bwd scores_bwd).
Local Abbreviation merged_of_item :=
  (merged_of nbest_hyps_fwd aws_fwd scores_fwd nbest_hyps_bwd aws_bwd scores_bwd).
Local Abbreviation fuse :=
  (fuse_item nbest_hyps_fwd aws_fwd scores_fwd nbest_hyps_bwd aws_bwd scores_bwd).
Local Abbreviation fusion :=
  (fwd_bwd_attention nbest_hyps_fwd aws_fwd scores_fwd
                     nbest_hyps_bwd aws_bwd scores_bwd).

Lemma fuse_item_only_index_error (nbest b : Z) (best_hyps : list (list Z)) :
  only_index_error (fuse nbest b best_hyps).
Proof.
  unfold fuse_item, merged_of, select, splice_search, splice_i_f, splice_i_b,
    splice_body, seed_step, seed_fwd, seed_bwd.
  oie.
Qed.

Lemma fwd_bwd_attention_only_index_error : only_index_error fusion.
Proof.
  unfold fwd_bwd_attention. apply oie_bind; [apply oie_py_index|].
  intros h0. apply oie_for_each. intros b best.
  apply fuse_item_only_index_error.
Qed.

(** The search only ever appends to [merged]. *)
Lemma splice_search_extends (nbest b : Z) (merged merged' : list (cand S)) :
  search nbest b merged = Ok merged' -> exists spliced, merged' = merged ++ spliced.
Proof.
  unfold splice_search. apply for_each_extends. clear merged merged'.
  intros n_f m m'. apply for_each_extends. clear m m'.
  intros n_b m m' Hm. unfold splice_i_f in Hm. step_ok Hm.
  revert m m' Hm. apply for_each_extends.
  intros i_f m m' Hm. unfold splice_i_b in Hm. step_ok Hm.
  revert m m' Hm. apply for_each_extends.
  intros i_b m m' Hm. unfold splice_body in Hm. step_ok Hm;
    injection Hm as <-; eauto; exists []; now rewrite app_nil_r.
Qed.
Lemma fuse_items_pointwise (nbest : Z) (bs : list Z) (acc best : list (list Z)) :
  for_each bs (fuse nbest) acc = Ok best ->
  exists hs,
    best = acc ++ hs /\
    Forall2 (fun b h => exists merged,
                 merged_of_item nbest b = Ok merged /\ select merged = Ok h)
            bs hs.
Proof.
  revert acc. induction bs as [|b bs IH]; intros acc; simpl.
  - intros [= <-]. exists []. split; [now rewrite app_nil_r | constructor].
  - destruct (fuse nbest b acc) as [acc'|] eqn:E; cbn [bind]; [|discriminate].
    intros Hr. apply IH in Hr as (hs & -> & Hhs).
    unfold fuse_item in E.
    destruct (merged_of_item nbest b) as [merged|] eqn:Em; cbn [bind] in E;
      [|discriminate].
    destruct (select merged) as [h|] eqn:Eh; cbn [bind] in E; [|discriminate].
    injection E as <-. exists (h :: hs). split.
    + now rewrite <- app_assoc.
    + constructor; eauto.
Qed.

(** The fusion returns one hypothesis per batch item, the [b]-th being
    the one selected among the candidates of item [b]. *)
Lemma fwd_bwd_attention_per_item (best : list (list Z)) :
  fusion = Ok best ->
  len best = len nbest_hyps_fwd /\
  exists nbest,
    forall b h,
      nth_error best b = Some h ->
      exists merged,
        merged_of_item nbest (Z.of_nat b) = Ok merged /\ select merged = Ok h.
Proof.
  unfold fwd_bwd_attention.
  destruct (py_index nbest_hyps_fwd 0) as [h0|]; cbn [bind]; [|discriminate].
  intros Hr. apply fuse_items_pointwise in Hr as (hs & -> & Hhs).
  simpl. split.
  - unfold len at 1. rewrite <- (Forall2_length Hhs).
    fold (len (py_range (len nbest_hyps_fwd))).
    apply py_range_length, len_nonneg.
  - exists (len h0). intros b h Hb.
    apply Forall2_flip in Hhs.
    destruct (Forall2_nth_error_l _ _ _ _ _ Hhs Hb) as (i & Hi & Hp).
    unfold py_range in Hi. rewrite nth_error_map in Hi.
    destruct (nth_error (seq 0 _) b) as [k|] eqn:Ek; [|discriminate].
    injection Hi as <-.
    assert (k = b) as ->.
    { assert (Hlt : (b < List.length (seq 0 (Z.to_nat (len nbest_hyps_fwd))))%nat)
        by (apply nth_error_Some; congruence).
      rewrite length_seq in Hlt.
      apply (nth_error_nth _ _ 0%nat) in Ek. rewrite seq_nth in Ek by assumption.
      simpl in Ek. congruence. }
    exact Hp.
Qed.

(** C3. For a batch item whose candidate list is not empty, the fusion
    appends the hypothesis of a candidate of maximal score, and of these
    the first in insertion order: every candidate before it has a
    strictly smaller score. The seeded candidates come before all spliced
    ones, so when a seeded candidate has the maximal score (a spliced one
    may have exactly the same) the selected candidate is a seeded one. *)
Theorem fusion_selects_first_best (HO : @ScoreOrder S _) (nbest b : Z)
  (best_hyps : list (list Z)) (seeds merged : list (cand S)) :
  for_each (py_range nbest) (seeding b) [] = Ok seeds ->
  search nbest b seeds = Ok merged ->
  merged <> [] ->
  exists spliced before c after,
    merged = seeds ++ spliced /\
    merged = before ++ c :: after /\
    fuse nbest b best_hyps = Ok (best_hyps ++ [hyp c]) /\
    (forall c', In c' merged -> sltb (score c) (score c') = false) /\
    (forall c', In c' before -> sltb (score c') (score c) = true) /\
    ((exists c_seed, In c_seed seeds /\ sltb (score c_seed) (score c) = false) ->
     exists after', seeds = before ++ c :: after') /\
    (forall c_seed c_spliced,
        In c_seed seeds -> In c_spliced spliced ->
        score c_spliced = score c_seed -> score c = score c_spliced ->
        exists after', seeds = before ++ c :: after').
Proof.
  intros Hseed Hsearch Hne.
  destruct (splice_search_extends _ _ _ _ Hsearch) as [spliced Hsp].
  destruct (py_sorted_reverse_head _ _ sltb (@score S) sltb_asym sltb_negtrans
              merged Hne)
    as (before & c & after & rest & Hm & Hs & Hmax & Hbefore).
  assert (Htie : (exists c_seed, In c_seed seeds /\
                                 sltb (score c_seed) (score c) = false) ->
                 exists after', seeds = before ++ c :: after').
  { intros (c_seed & Hin & Hlt).
    assert (Heq : seeds ++ spliced = before ++ c :: after) by congruence.
    apply app_eq_app in Heq as [l [[E1 E2]|[E1 E2]]].
    - destruct l as [|x l].
      + rewrite app_nil_r in E1. subst seeds.
        rewrite (Hbefore _ Hin) in Hlt. discriminate.
      + injection E2 as <- _. eauto.
    - assert (Hb : In c_seed before) by (rewrite E1; apply in_or_app; now left).
      rewrite (Hbefore _ Hb) in Hlt. discriminate. }
  exists spliced, before, c, after.
  split; [assumption|]. split; [assumption|].
  split; [|split; [assumption|split; [assumption|split; [assumption|]]]].
  - unfold fuse_item, merged_of. rewrite Hseed. cbn [bind]. rewrite Hsearch.
    cbn [bind]. unfold select. rewrite Hs. reflexivity.
  - intros c_seed c_sp Hin _ E1 E2. apply Htie. exists c_seed. split; [assumption|].
    rewrite E2, E1. apply lt_irrefl. apply sltb_asym.
Qed.

(** C4 as the code has it. When every forward and every backward
    hypothesis of some batch item has a single token, and with it a single
    alignment row, nothing is seeded and nothing is spliced for that
    item: [merged[0]] then raises [IndexError], and so does the fusion
    (unless an earlier item already did; no other exception can be
    raised). *)
Theorem degenerate_item_raises_IndexError (b : Z)
  (HF HB : list (list Z)) (AF : list (list Row)) :
  0 <= b < len nbest_hyps_fwd ->
  py_index nbest_hyps_fwd b = Ok HF ->
  py_index nbest_hyps_bwd b = Ok HB ->
  py_index aws_fwd b = Ok AF ->
  forallb (fun h => len h =? 1) HF = true ->
  forallb (fun h => len h =? 1) HB = true ->
  forallb (fun a => len a =? 1) AF = true ->
  (forall nbest, merged_of_item nbest b = Ok [] \/
                 exists e, merged_of_item nbest b = Raise e) /\
  fusion = Raise IndexError.
Proof.
  intros Hb Hhf Hhb Haf HlF HlB HlA.
  rewrite forallb_forall in HlF, HlB, HlA.
  assert (Hseed : forall nbest m m',
             for_each (py_range nbest) (seeding b) m = Ok m' -> m' = m).
  { intros nbest. apply for_each_keeps. intros n m m' Hm.
    unfold seed_step, seed_fwd, seed_bwd, py_index2 in Hm.
    rewrite Hhf, Hhb in Hm. cbn [bind] in Hm.
    destruct (py_index HF n) as [h|] eqn:E1; cbn [bind] in Hm; [|discriminate].
    apply py_index_In, HlF, Z.eqb_eq in E1.
    destruct (Z.ltb_spec 1 (len h)); [lia|]. cbn [bind] in Hm.
    destruct (py_index HB n) as [h'|] eqn:E2; cbn [bind] in Hm; [|discriminate].
    apply py_index_In, HlB, Z.eqb_eq in E2.
    destruct (Z.ltb_spec 1 (len h')); [lia|]. congruence. }
  assert (Hsearch : forall nbest m m', search nbest b m = Ok m' -> m' = m).
  { intros nbest. unfold splice_search. apply for_each_keeps.
    intros n_f. apply for_each_keeps. intros n_b m m' Hm.
    unfold splice_i_f, py_index2 in Hm. rewrite Haf in Hm. cbn [bind] in Hm.
    destruct (py_index AF n_f) as [a|] eqn:E1; cbn [bind] in Hm; [|discriminate].
    apply py_index_In, HlA, Z.eqb_eq in E1. rewrite E1 in Hm.
    simpl in Hm. congruence. }
  assert (Hmerged : forall nbest m, merged_of_item nbest b = Ok m -> m = []).
  { intros nbest m Hm. unfold merged_of in Hm.
    destruct (for_each (py_range nbest) (seeding b) []) as [m0|] eqn:E;
      cbn [bind] in Hm; [|discriminate].
    apply Hseed in E as ->. now apply Hsearch in Hm. }
  split.
  - intros nbest. destruct (merged_of_item nbest b) as [m|e] eqn:E; [|eauto].
    left. f_equal. now apply (Hmerged nbest).
  - destruct fusion as [hs|e] eqn:E.
    + exfalso. unfold fwd_bwd_attention in E.
      destruct (py_index nbest_hyps_fwd 0) as [h0|]; cbn [bind] in E; [|discriminate].
      destruct (for_each_fails (py_range (len nbest_hyps_fwd)) (fuse (len h0)) b)
        with (s := @nil (list Z)) as [e He].
      * now apply py_range_In.
      * intros best. unfold fuse_item.
        destruct (merged_of_item (len h0) b) as [m|e] eqn:Em; cbn [bind]; [|eauto].
        apply Hmerged in Em as ->. unfold select, py_sorted.
        cbn [rev sort_stable app]. rewrite py_index_nil. cbn [bind]. eauto.
      * congruence.
    + f_equal. now apply fwd_bwd_attention_only_index_error.
Qed.
End FuseFacts.

(** ** Sorted lists *)

Lemma StronglySorted_app {A : Type} (R : A -> A -> Prop) (l1 l2 : list A) :
  StronglySorted R l1 -> StronglySorted R l2 ->
  (forall a b, In a l1 -> In b l2 -> R a b) ->
  StronglySorted R (l1 ++ l2).
Proof.
  intros H1 H2 H12. induction H1 as [|x l1 H1 IH Hx]; simpl; [assumption|].
  constructor.
  - apply IH. intros a b Ha Hb. apply H12; [now right | assumption].
  - apply Forall_app. split; [assumption|].
    apply Forall_forall. intros b Hb. apply H12; [now left | assumption].
Qed.

Lemma StronglySorted_rev {A : Type} (R : A -> A -> Prop) (l : list A) :
  StronglySorted R l -> StronglySorted (fun a b => R b a) (rev l).
Proof.
  induction 1 as [|x l Hl IH Hx]; simpl; [constructor|].
  apply StronglySorted_app; [assumption | repeat constructor |].
  intros a b Ha [<-|[]]. apply in_rev in Ha.
  rewrite Forall_forall in Hx. now apply Hx.
Qed.

Lemma StronglySorted_map {A B : Type} (R : B -> B -> Prop) (f : A -> B) (l : list A) :
  StronglySorted (fun a b => R (f a) (f b)) l -> StronglySorted R (map f l).
Proof.
  induction 1 as [|x l Hl IH Hx]; simpl; constructor; [assumption|].
  apply Forall_map. exact Hx.
Qed.

Lemma StronglySorted_filter {A : Type} (R : A -> A -> Prop) (p : A -> bool)
  (l : list A) :
  StronglySorted R l -> StronglySorted R (filter p l).
Proof.
  induction 1 as [|x l Hl IH Hx]; simpl; [constructor|].
  destruct (p x); [|assumption]. constructor; [assumption|].
  rewrite Forall_forall in *. intros y Hy. apply filter_In in Hy as [Hy _].
  now apply Hx.
Qed.

Lemma StronglySorted_split {A : Type} (R : A -> A -> Prop) (l1 l2 l3 : list A)
  (i j : A) :
  StronglySorted R (l1 ++ i :: l2 ++ j :: l3) -> R i j.
Proof.
  induction l1 as [|x l1 IH]; simpl; intros Hs.
  - apply StronglySorted_inv in Hs as [_ Hi].
    rewrite Forall_forall in Hi. apply Hi, in_elt.
  - apply StronglySorted_inv in Hs as [Hs _]. now apply IH.
Qed.

Lemma py_range_sorted (n : Z) : StronglySorted Z.lt (py_range n).
Proof.
  unfold py_range. generalize (Z.to_nat n) as k. generalize 0%nat as a.
  intros a k. revert a. induction k as [|k IH]; intros a; simpl; constructor.
  - apply IH.
  - apply Forall_forall. intros j Hj. apply in_map_iff in Hj as (m & <- & Hm).
    apply in_seq in Hm. lia.
Qed.

Section SortedByZ.
Variable A : Type.
Variable key : A -> Z.

Lemma insert_stable_sorted (x : A) (l : list A) :
  StronglySorted (fun a b => key a <= key b) l ->
  StronglySorted (fun a b => key a <= key b) (insert_stable Z.ltb key x l).
Proof.
  induction 1 as [|y l Hl IH Hy]; simpl.
  - repeat constructor.
  - destruct (Z.ltb_spec (key y) (key x)).
    + constructor; [assumption|].
      apply Forall_forall. intros z Hz.
      apply (Permutation_in _ (insert_stable_perm _ _ Z.ltb key x l)) in Hz.
      destruct Hz as [<-|Hz]; [lia|].
      rewrite Forall_forall in Hy. now apply Hy.
    + constructor; [now constructor|].
      constructor; [assumption|].
      rewrite Forall_forall in *. intros z Hz. specialize (Hy z Hz). lia.
Qed.

Lemma sort_stable_sorted (l : list A) :
  StronglySorted (fun a b => key a <= key b) (sort_stable Z.ltb key l).
Proof.
  induction l as [|x l IH]; simpl; [constructor|].
  now apply insert_stable_sorted.
Qed.

(** [sorted(l, key=key, reverse=True)] is in non-increasing key order. *)
Lemma py_sorted_reverse_sorted (l : list A) :
  StronglySorted (fun a b => key b <= key a) (py_sorted Z.ltb key true l).
Proof.
  unfold py_sorted.
  apply (StronglySorted_rev (fun a b => key a <= key b)), sort_stable_sorted.
Qed.
End SortedByZ.

(** ** The Permutation Index *)

Lemma map_m_Forall2 {X Y : Type} (f : X -> result Y) (xs : list X) (ys : list Y) :
  map_m f xs = Ok ys <-> Forall2 (fun x y => f x = Ok y) xs ys.
Proof.
  revert ys. induction xs as [|x xs IH]; intros ys; simpl.
  - split.
    + intros [= <-]. constructor.
    + intros Hf. inversion Hf. reflexivity.
  - split.
    + destruct (f x) as [y|] eqn:E; simpl; [|discriminate].
      destruct (map_m f xs) as [ys'|] eqn:E'; simpl; [|discriminate].
      intros [= <-]. constructor; [assumption|]. now apply IH.
    + intros Hf. inversion Hf as [|x' y l l' Hy Hl]; subst.
      rewrite Hy. simpl. apply IH in Hl. rewrite Hl. reflexivity.
Qed.

Lemma map_m_map {X Y : Type} (f : X -> result Y) (g : X -> Y) (xs : list X) :
  (forall x, In x xs -> f x = Ok (g x)) -> map_m f xs = Ok (map g xs).
Proof.
  induction xs as [|x xs IH]; intros Hf; simpl; [reflexivity|].
  rewrite Hf by now left. simpl. rewrite IH by (intros; apply Hf; now right).
  reflexivity.
Qed.

Lemma py_index_nth_error {A : Type} (l : list A) (k : nat) (a : A) :
  nth_error l k = Some a -> py_index l (Z.of_nat k) = Ok a.
Proof.
  intros Hk. assert (k < List.length l)%nat by (apply nth_error_Some; congruence).
  destruct (py_index_nonneg l (Z.of_nat k)) as (a' & Ha & ->); [unfold len; lia|].
  rewrite Nat2Z.id in Ha. congruence.
Qed.

Lemma py_index_nth {A : Type} (l : list A) (i : Z) (d : A) :
  0 <= i < len l -> py_index l i = Ok (nth (Z.to_nat i) l d).
Proof.
  intros Hi. destruct (py_index_nonneg l i Hi) as (a & Ha & ->).
  f_equal. symmetry. now apply nth_error_nth.
Qed.

Lemma map_nth_range {A : Type} (l : list A) (d : A) :
  map (fun i => nth (Z.to_nat i) l d) (py_range (len l)) = l.
Proof.
  unfold py_range, len. rewrite Nat2Z.id, map_map.
  induction l as [|x l IH]; [reflexivity|].
  simpl. f_equal. rewrite <- seq_shift, map_map.
  rewrite <- IH at 2. apply map_ext. intros k.
  now rewrite !Nat2Z.id.
Qed.

Lemma Forall2_range {A : Type} (P : Z -> A -> Prop) (l : list A) :
  (forall k a, nth_error l k = Some a -> P (Z.of_nat k) a) ->
  Forall2 P (py_range (len l)) l.
Proof.
  unfold py_range, len. rewrite Nat2Z.id.
  enough (Hg : forall s, (forall k a, nth_error l k = Some a -> P (Z.of_nat (s + k)) a) ->
                         Forall2 P (map Z.of_nat (seq s (List.length l))) l)
    by (intros Hp; apply (Hg 0%nat); exact Hp).
  induction l as [|x l IH]; intros s Hp; simpl; constructor.
  - specialize (Hp 0%nat x eq_refl). now rewrite Nat.add_0_r in Hp.
  - apply IH. intros k a Hk. replace (Datatypes.S s + k)%nat with (s + Datatypes.S k)%nat by lia.
    now apply Hp.
Qed.

Lemma Forall2_map_left {A A' B : Type} (P : A' -> B -> Prop) (f : A -> A')
  (l : list A) (l' : list B) :
  Forall2 (fun a b => P (f a) b) l l' -> Forall2 P (map f l) l'.
Proof. induction 1; simpl; now constructor. Qed.

Lemma index_of_In (j : Z) (perm : list Z) :
  In j perm ->
  0 <= index_of j perm < len perm /\
  nth_error perm (Z.to_nat (index_of j perm)) = Some j.
Proof.
  induction perm as [|p perm IH]; [contradiction|].
  intros Hin. cbn [index_of]. destruct (Z.eqb_spec p j) as [->|Hne].
  - split; [unfold len; simpl; lia | reflexivity].
  - destruct Hin as [->|Hin]; [contradiction|].
    destruct (IH Hin) as [Hr Hn]. split.
    + unfold len in *.
      change (List.length (p :: perm)) with (Datatypes.S (List.length perm)). lia.
    + replace (Z.to_nat (1 + index_of j perm))
        with (Datatypes.S (Z.to_nat (index_of j perm))) by lia.
      exact Hn.
Qed.

(** Taking the items by a permutation of their positions and then by its
    inverse is the identity. *)
Lemma take_perm_inverse {X : Type} (xs ys : list X) (perm : list Z) :
  Permutation perm (py_range (len xs)) ->
  take_perm xs perm = Ok ys ->
  take_perm ys (inv_perm perm) = Ok xs.
Proof.
  intros Hperm Hys. unfold take_perm in *. apply map_m_Forall2 in Hys.
  apply map_m_Forall2. unfold inv_perm.
  assert (Hlen : len perm = len xs).
  { unfold len. rewrite (Permutation_length Hperm).
    fold (len (py_range (len xs))). apply py_range_length, len_nonneg. }
  rewrite Hlen. apply Forall2_map_left. apply Forall2_range.
  intros k a Hk.
  assert (Hin : In (Z.of_nat k) perm).
  { apply (Permutation_in _ (Permutation_sym Hperm)). apply py_range_In.
    assert (k < List.length xs)%nat by (apply nth_error_Some; congruence).
    unfold len. lia. }
  destruct (index_of_In _ _ Hin) as [Hr Hn].
  destruct (Forall2_nth_error_l _ _ _ _ _ Hys Hn) as (y & Hy & Hxy).
  rewrite (py_index_nth_error _ _ _ Hk) in Hxy. injection Hxy as <-.
  rewrite <- (Z2Nat.id (index_of (Z.of_nat k) perm)) by lia.
  now apply py_index_nth_error.
Qed.

Section EncodeFacts.
Variable Frame : Type.

Lemma sort_perm_perm (xs : list (list Frame)) :
  Permutation (sort_perm xs) (py_range (len xs)).
Proof. apply py_sorted_perm. Qed.

Lemma sort_perm_range (xs : list (list Frame)) (i : Z) :
  In i (sort_perm xs) -> 0 <= i < len xs.
Proof.
  intros Hi. apply py_range_In.
  exact (Permutation_in _ (sort_perm_perm xs) Hi).
Qed.

(** The list comprehension of [encode] never raises. *)
Lemma take_sort_perm (xs : list (list Frame)) :
  take_perm xs (sort_perm xs) =
  Ok (map (fun i => nth (Z.to_nat i) xs []) (sort_perm xs)).
Proof.
  apply map_m_map. intros i Hi. apply py_index_nth. now apply sort_perm_range.
Qed.
End EncodeFacts.

(** ** [encode] *)

Section ModelFacts.
Variables (Frame Enc LM Conv Refs : Type).
Context {S Row : Type} `{Score S} `{Attention Row}.

Local Abbreviation Model := (@Seq2seq Frame Enc LM Conv Refs S Row).

(** C7. [encode] sorts the batch by descending length: the items it
    hands to the encoder are the input items in the order of [perm_idx],
    their lengths never increase, [perm_idx] is a permutation of
    [0 .. B-1], and of two items of the same length the one that came
    first in the input still comes first. *)
Theorem encode_sorts_by_length (self : Model) (xs : list (list Frame))
  (task : string) :
  exists xs',
    take_perm xs (sort_perm xs) = Ok xs' /\
    encode self xs task = Ok (enc self xs' task, sort_perm xs) /\
    Permutation (sort_perm xs) (py_range (len xs)) /\
    Permutation xs' xs /\
    StronglySorted (fun a b => len b <= len a) xs' /\
    (forall l1 i l2 j l3,
        sort_perm xs = l1 ++ i :: l2 ++ j :: l3 ->
        item_len xs i = item_len xs j -> i < j).
Proof.
  exists (map (fun i => nth (Z.to_nat i) xs []) (sort_perm xs)).
  split; [apply take_sort_perm|].
  split; [unfold encode; now rewrite take_sort_perm|].
  split; [apply sort_perm_perm|].
  split; [|split].
  - rewrite <- (map_nth_range xs []) at 2.
    apply Permutation_map, sort_perm_perm.
  - apply StronglySorted_map.
    exact (py_sorted_reverse_sorted _ (item_len xs) (py_range (len xs))).
  - intros l1 i l2 j l3 Hs Hij.
    set (p := fun k => item_len xs k =? item_len xs i).
    assert (Hf : filter p (sort_perm xs) = filter p (py_range (len xs))).
    { apply py_sorted_filter. intros x y Hx Hy. unfold p in *.
      apply Z.eqb_eq in Hx, Hy. apply Z.ltb_ge. lia. }
    assert (Hsorted : StronglySorted Z.lt (filter p (sort_perm xs))).
    { rewrite Hf. apply StronglySorted_filter, py_range_sorted. }
    rewrite Hs in Hsorted.
    rewrite filter_app in Hsorted. simpl in Hsorted.
    rewrite filter_app in Hsorted. simpl in Hsorted.
    assert (Hi : p i = true) by (unfold p; apply Z.eqb_refl).
    assert (Hj : p j = true) by (unfold p; apply Z.eqb_eq; congruence).
    rewrite Hi, Hj in Hsorted.
    exact (StronglySorted_split _ _ _ _ _ _ Hsorted).
Qed.

(** ** The dispatcher, path by path *)

Lemma encode_eq (self : Model) (xs : list (list Frame)) (task : string) :
  encode self xs task = Ok (enc self (sorted_batch xs) task, sort_perm xs).
Proof. unfold encode, sorted_batch. now rewrite take_sort_perm. Qed.

Lemma decode_ctc_path (self : Model) xs dp nbest exclude_eos idx2token refs ctc task :
  ctc_path self ctc = true ->
  decode self xs dp nbest exclude_eos idx2token refs ctc task =
  match choose_rnnlm self dp (decode_dir self task) with
  | Raise e => ([], Raise e)
  | Ok lm =>
      match dec self (decode_dir self task) with
      | None => ([], Raise AttributeError)
      | Some d =>
          ([call_decode_ctc (decode_dir self task) (dp_beam_width dp) lm],
           Ok (Ret3 (decode_ctc d (enc self (sorted_batch xs) task)
                                (dp_beam_width dp) lm)
                    None (sort_perm xs)))
      end
  end.
Proof.
  unfold ctc_path, choose_rnnlm. intros Hc. unfold decode.
  rewrite encode_eq. cbn [lift tbind]. rewrite Hc. unfold get_dec.
  destruct (if Qgtb _ _ then _ else _); [|reflexivity].
  destruct (dec self _); reflexivity.
Qed.

Lemma decode_greedy_path (self : Model) xs dp nbest exclude_eos idx2token refs ctc task :
  ctc_path self ctc = false -> greedy_path dp = true ->
  decode self xs dp nbest exclude_eos idx2token refs ctc task =
  match dec self (decode_dir self task) with
  | None => ([], Raise AttributeError)
  | Some d =>
      let g := greedy d (enc self (sorted_batch xs) task)
                      (dp_max_len_ratio dp) exclude_eos in
      ([call_greedy LM (decode_dir self task) (dp_max_len_ratio dp) exclude_eos],
       Ok (Ret3 (fst g) (Some (snd g)) (sort_perm xs)))
  end.
Proof.
  unfold ctc_path, greedy_path. intros Hc Hg. unfold decode.
  rewrite encode_eq. cbn [lift tbind]. rewrite Hc, Hg. unfold get_dec.
  destruct (dec self _) as [d|]; [|reflexivity].
  cbn. now destruct (greedy d _ _ _).
Qed.

Lemma decode_beam_path (self : Model) xs dp nbest exclude_eos idx2token refs ctc task :
  ctc_path self ctc = false -> greedy_path dp = false ->
  dp_fwd_bwd_attention dp = false ->
  decode self xs dp nbest exclude_eos idx2token refs ctc task =
  match choose_rnnlm self dp (decode_dir self task) with
  | Raise e => ([], Raise e)
  | Ok lm =>
      match dec self (decode_dir self task) with
      | None => ([], Raise AttributeError)
      | Some d =>
          let r := beam_search d (enc self (sorted_batch xs) task) dp lm nbest
                               exclude_eos idx2token refs in
          ([call_beam_search (decode_dir self task) lm nbest exclude_eos],
           if nbest =? 1 then
             best_hyps <- map_m (fun hyp => py_index hyp 0) (fst (fst r)) ;;
             aws1 <- map_m (fun aw => py_index aw 0) (snd (fst r)) ;;
             Ok (Ret3 best_hyps (Some aws1) (sort_perm xs))
           else Ok (Ret4 (fst (fst r)) (snd (fst r)) (snd r) (sort_perm xs)))
      end
  end.
Proof.
  unfold ctc_path, greedy_path, choose_rnnlm. intros Hc Hg Hf. unfold decode.
  rewrite encode_eq. cbn [lift tbind]. rewrite Hc, Hg, Hf. unfold get_dec.
  destruct (if Qgtb _ _ then _ else _) as [lm|]; [|reflexivity].
  destruct (dec self _) as [d|]; [|reflexivity].
  cbn. destruct (beam_search d _ _ _ _ _ _ _) as [[hs aws] sc]. cbn.
  destruct (nbest =? 1); [|reflexivity].
  destruct (map_m _ hs); [|reflexivity]. cbn.
  destruct (map_m _ aws); reflexivity.
Qed.

Lemma decode_fusion_path (self : Model) xs dp nbest exclude_eos idx2token refs ctc task :
  ctc_path self ctc = false -> dp_fwd_bwd_attention dp = true ->
  decode self xs dp nbest exclude_eos idx2token refs ctc task =
  match dec self "fwd" with
  | None => ([], Raise AttributeError)
  | Some d_fwd =>
      let f := beam_search d_fwd (enc self (sorted_batch xs) task) dp None
                           (dp_beam_width dp) false idx2token refs in
      match dec self "bwd" with
      | None => ([call_beam_search "fwd" None (dp_beam_width dp) false],
                 Raise AttributeError)
      | Some d_bwd =>
          let g := beam_search d_bwd (enc self (sorted_batch xs) task) dp None
                               (dp_beam_width dp) false idx2token refs in
          ([call_beam_search "fwd" None (dp_beam_width dp) false;
            call_beam_search "bwd" None (dp_beam_width dp) false],
           best_hyps <- fwd_bwd_attention (fst (fst f)) (snd (fst f)) (snd f)
                                          (fst (fst g)) (snd (fst g)) (snd g) ;;
           Ok (Ret3 best_hyps None (sort_perm xs)))
      end
  end.
Proof.
  unfold ctc_path, greedy_path. intros Hc Hf. unfold decode.
  rewrite encode_eq. cbn [lift tbind]. rewrite Hc, Hf.
  rewrite andb_false_r. unfold get_dec.
  destruct (dec self "fwd") as [d1|]; [|reflexivity].
  cbn. destruct (beam_search d1 _ _ _ _ _ _ _) as [[hs1 aws1] sc1]. cbn.
  destruct (dec self "bwd") as [d2|]; [|reflexivity].
  cbn. destruct (beam_search d2 _ _ _ _ _ _ _) as [[hs2 aws2] sc2]. cbn.
  destruct (fwd_bwd_attention _ _ _ _ _ _); reflexivity.
Qed.
(** When the main task's CTC weight opens the CTC-only path, the only
    decoder method called is [decode_ctc], and no alignments are
    returned. *)
Lemma ctc_path_calls_only_decode_ctc (self : Model) xs dp nbest exclude_eos
  idx2token refs ctc task :
  ctc_path self ctc = true ->
  (fst (decode self xs dp nbest exclude_eos idx2token refs ctc task) = [] /\
   exists e, snd (decode self xs dp nbest exclude_eos idx2token refs ctc task)
             = Raise e) \/
  (exists lm hyps,
      decode self xs dp nbest exclude_eos idx2token refs ctc task =
      ([call_decode_ctc (decode_dir self task) (dp_beam_width dp) lm],
       Ok (Ret3 hyps None (sort_perm xs)))).
Proof.
  intros Hc. rewrite decode_ctc_path by assumption.
  destruct (choose_rnnlm self dp _) as [lm|e]; [|left; simpl; eauto].
  destruct (dec self _) as [d|]; [right; eauto | left; simpl; eauto].
Qed.

(** C8 as the code has it. In the CTC-only path and in the
    single-direction beam-search path with a language-model weight above
    0: when no language model is registered for the selected direction
    the [assert] fails, so the call raises [AssertionError] before any
    decoder is called; when one is registered it is the one passed to
    the decoder. *)
Theorem rescoring_needs_language_model (self : Model) xs dp nbest exclude_eos
  idx2token refs ctc task :
  Qgtb (dp_rnnlm_weight dp) 0 = true ->
  ctc_path self ctc = true \/
  (ctc_path self ctc = false /\ greedy_path dp = false /\
   dp_fwd_bwd_attention dp = false) ->
  (rnnlm self (decode_dir self task) = None ->
   decode self xs dp nbest exclude_eos idx2token refs ctc task =
   ([], Raise AssertionError)) /\
  (forall lm d,
      rnnlm self (decode_dir self task) = Some lm ->
      dec self (decode_dir self task) = Some d ->
      fst (decode self xs dp nbest exclude_eos idx2token refs ctc task) =
      [if ctc_path self ctc
       then call_decode_ctc (decode_dir self task) (dp_beam_width dp) (Some lm)
       else call_beam_search (decode_dir self task) (Some lm) nbest exclude_eos]).
Proof.
  intros Hw Hpath. split.
  - intros Hlm. destruct Hpath as [Hc|(Hc & Hg & Hf)].
    + rewrite decode_ctc_path by assumption.
      unfold choose_rnnlm, get_rnnlm. now rewrite Hw, Hlm.
    + rewrite decode_beam_path by assumption.
      unfold choose_rnnlm, get_rnnlm. now rewrite Hw, Hlm.
  - intros lm d Hlm Hd. destruct Hpath as [Hc|(Hc & Hg & Hf)].
    + rewrite decode_ctc_path by assumption.
      unfold choose_rnnlm, get_rnnlm. now rewrite Hw, Hlm, Hd, Hc.
    + rewrite decode_beam_path by assumption.
      unfold choose_rnnlm, get_rnnlm. now rewrite Hw, Hlm, Hd, Hc.
Qed.

(** C10. The shape of what [decode] returns when it returns. The
    CTC-only path and the fusion path return a 3-tuple whose second
    component is [None]; single-direction beam search returns a 3-tuple
    of the top-rank hypotheses and alignments when [nbest] is 1, and the
    4-tuple of n-best lists, alignments and scores when [nbest] is 2 or
    more. *)
Theorem decode_result_arity (self : Model) xs dp nbest exclude_eos
  idx2token refs ctc task :
  (forall lm d,
      ctc_path self ctc = true ->
      choose_rnnlm self dp (decode_dir self task) = Ok lm ->
      dec self (decode_dir self task) = Some d ->
      snd (decode self xs dp nbest exclude_eos idx2token refs ctc task) =
      Ok (Ret3 (decode_ctc d (enc self (sorted_batch xs) task)
                           (dp_beam_width dp) lm)
               None (sort_perm xs))) /\
  (forall d_fwd d_bwd best_hyps,
      ctc_path self ctc = false -> dp_fwd_bwd_attention dp = true ->
      dec self "fwd" = Some d_fwd -> dec self "bwd" = Some d_bwd ->
      let f := beam_search d_fwd (enc self (sorted_batch xs) task) dp None
                           (dp_beam_width dp) false idx2token refs in
      let g := beam_search d_bwd (enc self (sorted_batch xs) task) dp None
                           (dp_beam_width dp) false idx2token refs in
      fwd_bwd_attention (fst (fst f)) (snd (fst f)) (snd f)
                        (fst (fst g)) (snd (fst g)) (snd g) = Ok best_hyps ->
      snd (decode self xs dp nbest exclude_eos idx2token refs ctc task) =
      Ok (Ret3 best_hyps None (sort_perm xs))) /\
  (forall lm d best_hyps aws1,
      ctc_path self ctc = false -> greedy_path dp = false ->
      dp_fwd_bwd_attention dp = false ->
      choose_rnnlm self dp (decode_dir self task) = Ok lm ->
      dec self (decode_dir self task) = Some d ->
      nbest = 1 ->
      let r := beam_search d (enc self (sorted_batch xs) task) dp lm nbest
                           exclude_eos idx2token refs in
      map_m (fun hyp => py_index hyp 0) (fst (fst r)) = Ok best_hyps ->
      map_m (fun aw => py_index aw 0) (snd (fst r)) = Ok aws1 ->
      snd (decode self xs dp nbest exclude_eos idx2token refs ctc task) =
      Ok (Ret3 best_hyps (Some aws1) (sort_perm xs))) /\
  (forall lm d,
      ctc_path self ctc = false -> greedy_path dp = false ->
      dp_fwd_bwd_attention dp = false ->
      choose_rnnlm self dp (decode_dir self task) = Ok lm ->
      dec self (decode_dir self task) = Some d ->
      2 <= nbest ->
      let r := beam_search d (enc self (sorted_batch xs) task) dp lm nbest
                           exclude_eos idx2token refs in
      snd (decode self xs dp nbest exclude_eos idx2token refs ctc task) =
      Ok (Ret4 (fst (fst r)) (snd (fst r)) (snd r) (sort_perm xs))).
Proof.
  split; [|split; [|split]].
  - intros lm d Hc Hlm Hd. rewrite decode_ctc_path by assumption.
    now rewrite Hlm, Hd.
  - intros d1 d2 best Hc Hf Hd1 Hd2 f g Hfuse.
    rewrite decode_fusion_path by assumption. rewrite Hd1, Hd2.
    cbn [snd]. fold f g. now rewrite Hfuse.
  - intros lm d best aws1 Hc Hg Hf Hlm Hd Hn r Hh Ha.
    rewrite decode_beam_path by assumption. rewrite Hlm, Hd.
    cbn [snd]. fold r. rewrite Hn in *. simpl (1 =? 1).
    now rewrite Hh, Ha.
  - intros lm d Hc Hg Hf Hlm Hd Hn r.
    rewrite decode_beam_path by assumption. rewrite Hlm, Hd.
    cbn [snd]. destruct (Z.eqb_spec nbest 1); [lia|]. reflexivity.
Qed.

Lemma py_index_map {A B : Type} (f : A -> B) (l : list A) (i : Z) (a : A) :
  py_index l i = Ok a -> py_index (map f l) i = Ok (f a).
Proof.
  unfold py_index, len. rewrite length_map.
  destruct ((0 <=? _) && (_ <? _)); [|discriminate].
  rewrite nth_error_map. destruct (nth_error l _); [|discriminate].
  now intros [= <-].
Qed.

Lemma take_perm_map {A B : Type} (f : A -> B) (xs ys : list A) (perm : list Z) :
  take_perm xs perm = Ok ys -> take_perm (map f xs) perm = Ok (map f ys).
Proof.
  unfold take_perm. rewrite !map_m_Forall2.
  induction 1; simpl; constructor; [now apply py_index_map | assumption].
Qed.

(** C6 as the code has it. The Permutation Index of [encode] followed
    by its inverse restores the original order of the batch. [decode]
    itself does not restore it: the decoders see the length-sorted batch
    only, and what they return is handed back together with [perm_idx].
    In each of the CTC-only, greedy and single-direction top-rank
    beam-search paths, when the decoder method of that path works item by
    item, whatever the other methods do, [decode(batch)[i]] is the result
    for [batch[perm_idx[i]]], and the inverse of [perm_idx] puts the
    hypotheses back in the original order. In the fusion path the [b]-th
    hypothesis is the one selected among the candidates of the [b]-th
    item of the sorted batch. *)
Theorem decode_returns_sorted_order (self : Model) xs dp nbest exclude_eos
  idx2token refs ctc task :
  (take_perm xs (sort_perm xs) = Ok (sorted_batch xs) /\
   take_perm (sorted_batch xs) (inv_perm (sort_perm xs)) = Ok xs) /\
  (forall f : list Frame -> list Z,
      (forall i k,
          nth_error (sort_perm xs) i = Some k ->
          nth_error (map f (sorted_batch xs)) i =
          nth_error (map f xs) (Z.to_nat k)) /\
      take_perm (map f (sorted_batch xs)) (inv_perm (sort_perm xs)) =
      Ok (map f xs)) /\
  (forall (f : list Frame -> list Z) (d : @Decoder Enc LM Conv Refs S Row)
          (lm : option LM),
      ctc_path self ctc = true ->
      dec self (decode_dir self task) = Some d ->
      choose_rnnlm self dp (decode_dir self task) = Ok lm ->
      (forall items, decode_ctc d (enc self items task) (dp_beam_width dp) lm =
                     map f items) ->
      snd (decode self xs dp nbest exclude_eos idx2token refs ctc task) =
      Ok (Ret3 (map f (sorted_batch xs)) None (sort_perm xs))) /\
  (forall (f : list Frame -> list Z) (d : @Decoder Enc LM Conv Refs S Row),
      ctc_path self ctc = false ->
      greedy_path dp = true ->
      dec self (decode_dir self task) = Some d ->
      (forall items, fst (greedy d (enc self items task) (dp_max_len_ratio dp)
                                 exclude_eos) = map f items) ->
      exists aws,
        snd (decode self xs dp nbest exclude_eos idx2token refs ctc task) =
        Ok (Ret3 (map f (sorted_batch xs)) (Some aws) (sort_perm xs))) /\
  (forall (f : list Frame -> list Z) (d : @Decoder Enc LM Conv Refs S Row)
          (lm : option LM),
      ctc_path self ctc = false ->
      greedy_path dp = false ->
      dp_fwd_bwd_attention dp = false ->
      nbest = 1 ->
      dec self (decode_dir self task) = Some d ->
      choose_rnnlm self dp (decode_dir self task) = Ok lm ->
      (forall items,
          fst (fst (beam_search d (enc self items task) dp lm 1 exclude_eos
                                idx2token refs)) = map (fun x => [f x]) items /\
          exists a,
            snd (fst (beam_search d (enc self items task) dp lm 1 exclude_eos
                                  idx2token refs)) = map (fun x => [a x]) items) ->
      exists aws,
        snd (decode self xs dp nbest exclude_eos idx2token refs ctc task) =
        Ok (Ret3 (map f (sorted_batch xs)) (Some aws) (sort_perm xs))) /\
  (forall d_fwd d_bwd best_hyps aws perm_idx,
      ctc_path self ctc = false -> dp_fwd_bwd_attention dp = true ->
      dec self "fwd" = Some d_fwd -> dec self "bwd" = Some d_bwd ->
      snd (decode self xs dp nbest exclude_eos idx2token refs ctc task) =
      Ok (Ret3 best_hyps aws perm_idx) ->
      let f := beam_search d_fwd (enc self (sorted_batch xs) task) dp None
                           (dp_beam_width dp) false idx2token refs in
      let g := beam_search d_bwd (enc self (sorted_batch xs) task) dp None
                           (dp_beam_width dp) false idx2token refs in
      perm_idx = sort_perm xs /\
      len best_hyps = len (fst (fst f)) /\
      exists n,
        forall b h,
          nth_error best_hyps b = Some h ->
          exists merged,
            merged_of (fst (fst f)) (snd (fst f)) (snd f)
                      (fst (fst g)) (snd (fst g)) (snd g) n (Z.of_nat b) =
            Ok merged /\
            select merged = Ok h).
Proof.
  assert (Htake : take_perm xs (sort_perm xs) = Ok (sorted_batch xs))
    by apply take_sort_perm.
  split; [|split; [|split; [|split; [|split]]]].
  - split; [assumption|].
    apply take_perm_inverse; [apply sort_perm_perm | assumption].
  - intros f. split.
    + intros i k Hk. unfold sorted_batch. rewrite !nth_error_map, Hk. simpl.
      assert (Hr : 0 <= k < len xs)
        by (eapply sort_perm_range, nth_error_In; eauto).
      destruct (nth_error xs (Z.to_nat k)) eqn:E.
      * simpl. now rewrite (nth_error_nth _ _ _ E).
      * apply nth_error_None in E. unfold len in Hr. lia.
    + apply take_perm_inverse.
      * replace (len (map f xs)) with (len xs)
          by (unfold len; now rewrite length_map).
        apply sort_perm_perm.
      * now apply take_perm_map.
  - intros f d lm Hc Hd Hlm Hctc.
    rewrite decode_ctc_path by assumption. rewrite Hlm, Hd.
    cbn [snd]. now rewrite Hctc.
  - intros f d Hc Hg Hd Hgreedy.
    rewrite decode_greedy_path by assumption. rewrite Hd.
    cbn [snd]. rewrite Hgreedy. eauto.
  - intros f d lm Hc Hg Hf Hn Hd Hlm Hbeam.
    rewrite decode_beam_path by assumption. rewrite Hlm, Hd.
    cbn [snd]. rewrite Hn. simpl (1 =? 1).
    destruct (Hbeam (sorted_batch xs)) as (-> & a & ->).
    rewrite (map_m_map _ (fun hyp => hd [] hyp))
      by (intros x Hx; apply in_map_iff in Hx as (y & <- & _);
          reflexivity).
    rewrite (map_m_map _ (fun aw => hd [] aw))
      by (intros x Hx; apply in_map_iff in Hx as (y & <- & _);
          reflexivity).
    cbn [bind]. rewrite !map_map. simpl. eauto.
  - intros d1 d2 best aws perm Hc Hf Hd1 Hd2 Hdec f g.
    rewrite decode_fusion_path in Hdec by assumption.
    rewrite Hd1, Hd2 in Hdec. cbn [snd] in Hdec. fold f g in Hdec.
    destruct (fwd_bwd_attention _ _ _ _ _ _) as [best'|] eqn:Efuse;
      cbn [bind] in Hdec; [|discriminate].
    injection Hdec as <- _ <-.
    split; [reflexivity|]. now apply fwd_bwd_attention_per_item.
Qed.
End ModelFacts.

(* ================================================================= *)
(** * Part III: the properties on concrete inputs *)
(* ================================================================= *)

#[export] Instance ScoreOrder_Z : @ScoreOrder Z Score_Z.
Proof.
  split; simpl.
  - intros a b Hab. apply Z.ltb_lt in Hab. apply Z.ltb_ge. lia.
  - intros a b c Hac. apply Z.ltb_lt in Hac.
    destruct (Z.ltb_spec a b); [now left | right; apply Z.ltb_lt; lia].
Qed.

(** The example item: two candidates are seeded, two are spliced, and the
    first spliced one wins. *)
Example ex_merged :
  merged_of ex_hyps_fwd ex_aws_fwd ex_scores_fwd
            ex_hyps_bwd ex_aws_bwd ex_scores_bwd 1 0 =
  Ok [mk_cand [5; 6; 7] (-6); mk_cand [5; 6; 8] (-7);
      mk_cand [5; 6; 8] (-5); mk_cand [5; 6; 8] (-5)].
Proof. reflexivity. Qed.

Example ex_fusion :
  fwd_bwd_attention ex_hyps_fwd ex_aws_fwd ex_scores_fwd
                    ex_hyps_bwd ex_aws_bwd ex_scores_bwd = Ok [[5; 6; 8]].
Proof. reflexivity. Qed.

(** The splice at [i_f = 0] takes the last forward score, [-7], as
    [forward_score[i_f - 1]]: [-7 + -4 + max(-1 - -7, -7 - -4) = -5]. *)
Example ex_wrapped_splice :
  appended_at ex_hyps_fwd ex_aws_fwd ex_scores_fwd
              ex_hyps_bwd ex_aws_bwd ex_scores_bwd 0 0 0 0 1 =
  [mk_cand [5; 6; 8] (-7 + -4 + Z.max (-1 - -7) (-7 - -4))].
Proof. reflexivity. Qed.

Lemma cross_splice_search_witness :
  splice_search ex_hyps_fwd ex_aws_fwd ex_scores_fwd
                ex_hyps_bwd ex_aws_bwd ex_scores_bwd 1 0 [] =
  Ok [mk_cand [5; 6; 8] (-5); mk_cand [5; 6; 8] (-5)].
Proof.
  destruct (cross_splice_search ex_hyps_fwd ex_aws_fwd ex_scores_fwd
              ex_hyps_bwd ex_aws_bwd ex_scores_bwd 0 1
              [[5; 6; 7; 2]]
              [[[9; 0; 0; 0]; [0; 9; 0; 0]; [0; 0; 9; 0]; [0; 0; 0; 9]]]
              [[-1; -3; -6; -7]]
              [[2; 5; 6; 8]]
              [[[0; 0; 0; 9]; [0; 0; 9; 0]; [9; 0; 0; 0]; [9; 0; 0; 0]]]
              [[-8; -7; -4; -2]]
              eq_refl eq_refl eq_refl eq_refl eq_refl eq_refl eq_refl eq_refl)
    as [Hsearch _].
  rewrite Hsearch. reflexivity.
Defined.

Lemma cross_splice_wraps_around_witness :
  (exists merged',
      splice_search ex_hyps_fwd ex_aws_fwd ex_scores_fwd
                    ex_hyps_bwd ex_aws_bwd ex_scores_bwd 1 0 [] = Ok merged') /\
  (exists sf_last,
      nth_error [-1; -3; -6; -7] 3 = Some sf_last /\
      py_index [-1; -3; -6; -7] (0 - 1) = Ok sf_last).
Proof.
  destruct (cross_splice_wraps_around ex_hyps_fwd ex_aws_fwd ex_scores_fwd
              ex_hyps_bwd ex_aws_bwd ex_scores_bwd 0 1
              [[5; 6; 7; 2]]
              [[[9; 0; 0; 0]; [0; 9; 0; 0]; [0; 0; 9; 0]; [0; 0; 0; 9]]]
              [[-1; -3; -6; -7]]
              [[2; 5; 6; 8]]
              [[[0; 0; 0; 9]; [0; 0; 9; 0]; [9; 0; 0; 0]; [9; 0; 0; 0]]]
              [[-8; -7; -4; -2]]
              eq_refl eq_refl eq_refl eq_refl eq_refl eq_refl eq_refl eq_refl)
    as (Hok & _ & Hfirst & _).
  split; [exact (Hok [])|].
  destruct (Hfirst 0 0 1) as (r1 & r2 & r3 & t1 & t2 & s0 & sl & s3 & s4 &
                              Hl1 & Hl2 & _);
    try (unfold rank, len; simpl; lia).
  exists sl. split; [exact Hl1 | exact Hl2].
Defined.

Lemma seed_candidates_witness :
  exists s,
    nth_error [-1; -3; -6; -7] 2 = Some s /\
    seed_fwd ex_hyps_fwd ex_scores_fwd 0 0 [] =
    Ok ([] ++ [mk_cand (removelast [5; 6; 7; 2]) s]).
Proof.
  apply (proj1 (proj1 (seed_candidates ex_hyps_fwd ex_scores_fwd
                         ex_hyps_bwd ex_scores_bwd 0 0 [])
                      [5; 6; 7; 2] [-1; -3; -6; -7] eq_refl eq_refl eq_refl));
    reflexivity.
Defined.

Lemma fusion_selects_first_best_witness :
  exists c : cand Z,
    fuse_item ex_hyps_fwd ex_aws_fwd ex_scores_fwd
              ex_hyps_bwd ex_aws_bwd ex_scores_bwd 1 0 [] = Ok ([] ++ [hyp c]).
Proof.
  destruct (fusion_selects_first_best ex_hyps_fwd ex_aws_fwd ex_scores_fwd
              ex_hyps_bwd ex_aws_bwd ex_scores_bwd ScoreOrder_Z 1 0 []
              [mk_cand [5; 6; 7] (-6); mk_cand [5; 6; 8] (-7)]
              [mk_cand [5; 6; 7] (-6); mk_cand [5; 6; 8] (-7);
               mk_cand [5; 6; 8] (-5); mk_cand [5; 6; 8] (-5)])
    as (spliced & before & c & after & _ & _ & Hfuse & _).
  - reflexivity.
  - reflexivity.
  - discriminate.
  - exists c. exact Hfuse.
Defined.

Lemma degenerate_item_raises_IndexError_witness :
  fwd_bwd_attention deg_hyps deg_aws deg_scores deg_hyps deg_aws deg_scores =
  Raise IndexError.
Proof.
  apply (degenerate_item_raises_IndexError deg_hyps deg_aws deg_scores
           deg_hyps deg_aws deg_scores 0 [[2]] [[2]] [[[9]]]);
    solve [reflexivity | unfold deg_hyps, len; simpl; lia].
Defined.

(** C4, as stated, fails: end-marker-only hypotheses in both directions
    make the fusion raise [IndexError], not [FusionError]. *)
Lemma degenerate_item_not_FusionError :
  forallb (fun h => len h =? 1) (rank deg_hyps 0) = true /\
  fwd_bwd_attention deg_hyps deg_aws deg_scores deg_hyps deg_aws deg_scores =
  Raise IndexError /\
  fwd_bwd_attention deg_hyps deg_aws deg_scores deg_hyps deg_aws deg_scores <>
  Raise (FusionError "no viable candidate").
Proof.
  split; [reflexivity|]. split; [reflexivity|].
  vm_compute. discriminate.
Qed.

Local Open Scope string_scope.
Local Open Scope list_scope.
Local Open Scope Z_scope.

(** A batch of two items, the shorter one first. *)
Example toy_decode_greedy :
  decode (toy_model 0 0 no_lm) [[7]; [8; 9]] (toy_params 1 0 false)
         1 false None None false "ys" =
  ([call_greedy string "fwd" 1 false],
   Ok (Ret3 [[2; 2]; [1; 2]] (Some [[[1]; [1]]; [[1]; [1]]]) [1; 0])).
Proof. reflexivity. Qed.

Lemma encode_sorts_by_length_witness :
  exists xs',
    encode (toy_model 0 0 no_lm) [[7]; [8; 9]; [1]; [3; 4]] "ys" =
    Ok (xs', [1; 3; 0; 2]) /\
    StronglySorted (fun a b : list Z => len b <= len a) xs'.
Proof.
  destruct (encode_sorts_by_length _ _ _ _ _ (toy_model 0 0 no_lm)
              [[7]; [8; 9]; [1]; [3; 4]] "ys")
    as (xs' & _ & Henc & _ & _ & Hsorted & _).
  exists xs'. split; [exact Henc | exact Hsorted].
Defined.

(** C5 at a sub-task: the sub-task's CTC weight is 1 and CTC decoding
    is requested, but the dispatcher looks at the main task's CTC weight,
    0, and calls [greedy] on the sub-task's decoder. *)
Theorem decode_ignores_sub_task_ctc_weight :
  (ctc_weight_sub1 (toy_model 0 1 no_lm) == 1)%Q /\
  fst (decode (toy_model 0 1 no_lm) [[7]; [8; 9]] (toy_params 1 0 false)
              1 false None None true "ys_sub1") =
  [call_greedy string "fwd_sub1" 1 false].
Proof. split; reflexivity. Qed.

(** C6, as stated, fails: the first hypothesis returned belongs to the
    second item of the batch, the longer one. *)
Lemma decode_does_not_restore_order :
  exists hyps aws perm_idx,
    snd (decode (toy_model 0 0 no_lm) [[7]; [8; 9]] (toy_params 1 0 false)
                1 false None None false "ys") =
    Ok (Ret3 hyps aws perm_idx) /\
    nth_error hyps 0 = Some (toy_hyp [8; 9]) /\
    nth_error hyps 0 <> Some (toy_hyp [7]).
Proof.
  exists [[2; 2]; [1; 2]], (Some [[[1]; [1]]; [[1]; [1]]]), [1; 0].
  split; [reflexivity|]. split; [reflexivity|]. discriminate.
Qed.

Lemma decode_returns_sorted_order_witness :
  take_perm (sorted_batch [[7]; [8; 9]]) (inv_perm (sort_perm [[7]; [8; 9]])) =
  Ok [[7]; [8; 9]] /\
  take_perm (map toy_hyp (sorted_batch [[7]; [8; 9]]))
            (inv_perm (sort_perm [[7]; [8; 9]])) =
  Ok (map toy_hyp [[7]; [8; 9]]) /\
  snd (decode (split_model 1 no_lm) [[7]; [8; 9]] (toy_params 1 0 false)
              1 false None None false "ys") =
  Ok (Ret3 (map ctc_hyp (sorted_batch [[7]; [8; 9]])) None
           (sort_perm [[7]; [8; 9]])) /\
  (exists aws,
      snd (decode (split_model 0 no_lm) [[7]; [8; 9]] (toy_params 1 1 false)
                  1 false None None false "ys") =
      Ok (Ret3 (map toy_hyp (sorted_batch [[7]; [8; 9]])) (Some aws)
               (sort_perm [[7]; [8; 9]]))) /\
  (exists aws,
      snd (decode (split_model 0 no_lm) [[7]; [8; 9]] (toy_params 2 0 false)
                  1 false None None false "ys") =
      Ok (Ret3 (map toy_hyp (sorted_batch [[7]; [8; 9]])) (Some aws)
               (sort_perm [[7]; [8; 9]]))) /\
  len [[2]; [1]] = 2.
Proof.
  destruct (decode_returns_sorted_order _ _ _ _ _ (split_model 1 no_lm)
              [[7]; [8; 9]] (toy_params 1 0 false) 1 false None None false "ys")
    as ((_ & Hback) & Hany & Hctc & _).
  destruct (decode_returns_sorted_order _ _ _ _ _ (split_model 0 no_lm)
              [[7]; [8; 9]] (toy_params 1 1 false) 1 false None None false "ys")
    as (_ & _ & _ & Hgreedy & _).
  destruct (decode_returns_sorted_order _ _ _ _ _ (split_model 0 no_lm)
              [[7]; [8; 9]] (toy_params 2 0 false) 1 false None None false "ys")
    as (_ & _ & _ & _ & Hbeam & _).
  destruct (decode_returns_sorted_order _ _ _ _ _ (toy_model 0 0 no_lm)
              [[7]; [8; 9]] (toy_params 2 0 true) 1 false None None false "ys")
    as (_ & _ & _ & _ & _ & Hfusion).
  split; [exact Hback|].
  split; [exact (proj2 (Hany toy_hyp))|].
  split.
  { apply (Hctc ctc_hyp split_decoder None).
    - reflexivity.
    - reflexivity.
    - reflexivity.
    - intros items. reflexivity. }
  split.
  { apply (Hgreedy toy_hyp split_decoder).
    - reflexivity.
    - reflexivity.
    - reflexivity.
    - intros items. reflexivity. }
  split.
  { apply (Hbeam toy_hyp split_decoder None).
    - reflexivity.
    - reflexivity.
    - reflexivity.
    - reflexivity.
    - reflexivity.
    - reflexivity.
    - intros items. split; [reflexivity|].
      exists (fun _ => [[1]; [1]]). reflexivity. }
  destruct (Hfusion toy_decoder toy_decoder [[2]; [1]] None [1; 0])
    as (_ & Hlen & _); try reflexivity.
Defined.

(** C8, as stated, fails: without a language model the call raises
    [AssertionError], not [ConfigurationError]. *)
Lemma missing_language_model_not_ConfigurationError :
  rnnlm (toy_model 1 0 no_lm) "fwd" = None /\
  decode (toy_model 1 0 no_lm) [[7]; [8; 9]] (toy_params 1 1 false)
         1 false None None false "ys" = ([], Raise AssertionError) /\
  snd (decode (toy_model 1 0 no_lm) [[7]; [8; 9]] (toy_params 1 1 false)
              1 false None None false "ys") <> Raise ConfigurationError.
Proof.
  split; [reflexivity|]. split; [reflexivity|].
  vm_compute. discriminate.
Qed.

Lemma rescoring_needs_language_model_witness :
  decode (toy_model 1 0 no_lm) [[7]; [8; 9]] (toy_params 1 1 false)
         1 false None None false "ys" = ([], Raise AssertionError) /\
  fst (decode (toy_model 0 0 lm_by_name) [[7]; [8; 9]] (toy_params 2 1 false)
              1 false None None false "ys") =
  [call_beam_search "fwd" (Some "rnnlm_fwd") 1 false].
Proof.
  split.
  - apply (proj1 (rescoring_needs_language_model _ _ _ _ _ (toy_model 1 0 no_lm)
                    [[7]; [8; 9]] (toy_params 1 1 false) 1 false None None
                    false "ys" eq_refl (or_introl eq_refl))).
    reflexivity.
  - apply (proj2 (rescoring_needs_language_model _ _ _ _ _ (toy_model 0 0 lm_by_name)
                    [[7]; [8; 9]] (toy_params 2 1 false) 1 false None None
                    false "ys" eq_refl
                    (or_intror (conj eq_refl (conj eq_refl eq_refl))))
                 "rnnlm_fwd" toy_decoder); reflexivity.
Defined.

Lemma decode_result_arity_witness :
  snd (decode (toy_model 1 0 no_lm) [[7]; [8; 9]] (toy_params 1 0 false)
              1 false None None false "ys") =
  Ok (Ret3 [[2; 2]; [1; 2]] None [1; 0]) /\
  snd (decode (toy_model 0 0 no_lm) [[7]; [8; 9]] (toy_params 2 0 true)
              1 false None None false "ys") =
  Ok (Ret3 [[2]; [1]] None [1; 0]) /\
  snd (decode (toy_model 0 0 no_lm) [[7]; [8; 9]] (toy_params 2 0 false)
              1 false None None false "ys") =
  Ok (Ret3 [[2; 2]; [1; 2]] (Some [[[1]; [1]]; [[1]; [1]]]) [1; 0]) /\
  snd (decode (toy_model 0 0 no_lm) [[7]; [8; 9]] (toy_params 2 0 false)
              2 false None None false "ys") =
  Ok (Ret4 [[[2; 2]]; [[1; 2]]] [[[[1]; [1]]]; [[[1]; [1]]]]
           [[[-1; -2]]; [[-1; -2]]] [1; 0]).
Proof.
  split; [|split; [|split]].
  - apply (proj1 (decode_result_arity _ _ _ _ _ (toy_model 1 0 no_lm) [[7]; [8; 9]]
                    (toy_params 1 0 false) 1 false None None false "ys")
                 None toy_decoder); reflexivity.
  - apply (proj1 (proj2 (decode_result_arity _ _ _ _ _ (toy_model 0 0 no_lm) [[7]; [8; 9]]
                           (toy_params 2 0 true) 1 false None None false "ys"))
                 toy_decoder toy_decoder [[2]; [1]]); reflexivity.
  - apply (proj1 (proj2 (proj2 (decode_result_arity _ _ _ _ _ (toy_model 0 0 no_lm)
                                  [[7]; [8; 9]] (toy_params 2 0 false) 1 false
                                  None None false "ys")))
                 None toy_decoder [[2; 2]; [1; 2]] [[[1]; [1]]; [[1]; [1]]]);
      reflexivity.
  - apply (proj2 (proj2 (proj2 (decode_result_arity _ _ _ _ _ (toy_model 0 0 no_lm)
                                  [[7]; [8; 9]] (toy_params 2 0 false) 2 false
                                  None None false "ys")))
                 None toy_decoder); solve [reflexivity | lia].
Defined.

(* ================================================================= *)
(** * Part IV: further properties of the fusion, the sort and the
      dispatcher *)
(* ================================================================= *)

Lemma for_each_invariant {X St : Type} (P : St -> Prop) (xs : list X)
  (body : X -> St -> result St) :
  (forall x s s', In x xs -> P s -> body x s = Ok s' -> P s') ->
  forall s s', P s -> for_each xs body s = Ok s' -> P s'.
Proof.
  induction xs as [|x xs IH]; intros Hb s s' Hs; simpl.
  - now intros [= <-].
  - destruct (body x s) as [s1|] eqn:E; cbn [bind]; [|discriminate].
    apply IH.
    + intros y t t' Hy. apply Hb. now right.
    + eapply Hb; eauto. now left.
Qed.

Lemma for_each_total {X St : Type} (xs : list X) (body : X -> St -> result St) :
  (forall x s, In x xs -> exists s', body x s = Ok s') ->
  forall s, exists s', for_each xs body s = Ok s'.
Proof.
  induction xs as [|x xs IH]; intros Hb s; simpl; [eauto|].
  destruct (Hb x s) as [s1 ->]; [now left|]. cbn [bind].
  apply IH. intros y t Hy. apply Hb. now right.
Qed.

Lemma py_index_nonempty {A : Type} (l : list A) (i : Z) (a : A) :
  py_index l i = Ok a -> l <> [].
Proof. intros Hi ->. now rewrite py_index_nil in Hi. Qed.

Lemma py_slice_to_nonempty {A : Type} (l : list A) (k : Z) :
  0 < k -> l <> [] -> py_slice_to l k <> [].
Proof.
  intros Hk Hl. unfold py_slice_to. destruct (Z.ltb_spec k 0); [lia|].
  destruct l as [|x l]; [congruence|].
  destruct (Z.to_nat k) as [|n] eqn:E; [lia|]. discriminate.
Qed.

Lemma py_slice_to_minus1_nonempty {A : Type} (l : list A) :
  1 < len l -> py_slice_to l (-1) <> [].
Proof.
  intros Hl. rewrite py_slice_to_removelast.
  destruct l as [|x [|y l]]; unfold len in Hl; simpl in *; try lia.
  discriminate.
Qed.

Lemma py_slice_from_1_nonempty {A : Type} (l : list A) :
  1 < len l -> py_slice_from l 1 <> [].
Proof.
  intros Hl. rewrite py_slice_from_tl.
  destruct l as [|x [|y l]]; unfold len in Hl; simpl in *; try lia.
  discriminate.
Qed.

Ltac step_ok_eq H :=
  repeat match type of H with
    | bind ?m _ = Ok _ =>
        let E := fresh "E" in
        destruct m eqn:E; cbn [bind] in H; [|discriminate H]
    | (if ?c then _ else _) = Ok _ =>
        let C := fresh "C" in destruct c eqn:C
    end.

Section FusionMore.
Context {S Row : Type} `{Score S} `{Attention Row}.

Variables (nbest_hyps_fwd : list (list (list Z)))
          (aws_fwd : list (list (list Row)))
          (scores_fwd : list (list (list S)))
          (nbest_hyps_bwd : list (list (list Z)))
          (aws_bwd : list (list (list Row)))
          (scores_bwd : list (list (list S))).

Local Abbreviation seeding :=
  (seed_step nbest_hyps_fwd scores_fwd nbest_hyps_bwd scores_bwd).
Local Abbreviation search :=
  (splice_search nbest_hyps_fwd aws_fwd scores_fwd nbest_hyps_bwd aws_bwd scores_bwd).
Local Abbreviation merged_of_item :=
  (merged_of nbest_hyps_fwd aws_fwd scores_fwd nbest_hyps_bwd aws_bwd scores_bwd).
Local Abbreviation fuse :=
  (fuse_item nbest_hyps_fwd aws_fwd scores_fwd nbest_hyps_bwd aws_bwd scores_bwd).
Local Abbreviation fusion :=
  (fwd_bwd_attention nbest_hyps_fwd aws_fwd scores_fwd
                     nbest_hyps_bwd aws_bwd scores_bwd).

Lemma Forall_snoc {A : Type} (P : A -> Prop) (l : list A) (a : A) :
  Forall P l -> P a -> Forall P (l ++ [a]).
Proof. intros Hl Ha. apply Forall_app. split; [assumption | now constructor]. Qed.

Lemma seed_fwd_nonempty_hyps (b n : Z) (m m' : list (cand S)) :
  Forall (fun c => hyp c <> []) m ->
  seed_fwd nbest_hyps_fwd scores_fwd b n m = Ok m' ->
  Forall (fun c => hyp c <> []) m'.
Proof.
  intros Hm Hstep. unfold seed_fwd in Hstep.
  step_ok_eq Hstep; injection Hstep as <-; try assumption;
    apply Z.ltb_lt in C; apply Forall_snoc; try assumption; simpl.
  - now apply py_slice_to_minus1_nonempty.
  - intros ->. unfold len in C. simpl in C. lia.
Qed.

Lemma seed_bwd_nonempty_hyps (b n : Z) (m m' : list (cand S)) :
  Forall (fun c => hyp c <> []) m ->
  seed_bwd nbest_hyps_bwd scores_bwd b n m = Ok m' ->
  Forall (fun c => hyp c <> []) m'.
Proof.
  intros Hm Hstep. unfold seed_bwd in Hstep.
  step_ok_eq Hstep; injection Hstep as <-; try assumption;
    apply Z.ltb_lt in C; apply Forall_snoc; try assumption; simpl.
  - now apply py_slice_from_1_nonempty.
  - intros ->. unfold len in C. simpl in C. lia.
Qed.

(** No candidate ever has an empty hypothesis. *)
Lemma merged_of_nonempty_hyps (nbest b : Z) (merged : list (cand S)) :
  merged_of_item nbest b = Ok merged ->
  Forall (fun c => hyp c <> []) merged.
Proof.
  unfold merged_of.
  destruct (for_each (py_range nbest) (seeding b) []) as [seeds|] eqn:Es;
    cbn [bind]; [|discriminate].
  assert (Hseeds : Forall (fun c : cand S => hyp c <> []) seeds).
  { revert Es. apply for_each_invariant; [|constructor].
    intros n m m' _ Hm Hstep. unfold seed_step in Hstep.
    destruct (seed_fwd _ _ b n m) as [m1|] eqn:E1; cbn [bind] in Hstep;
      [|discriminate].
    eapply seed_bwd_nonempty_hyps; [|exact Hstep].
    eapply seed_fwd_nonempty_hyps; eauto. }
  revert Hseeds. unfold splice_search. apply for_each_invariant.
  intros n_f m m' _ Hm. revert m m' Hm. apply for_each_invariant.
  intros n_b m m' _ Hm Hstep. unfold splice_i_f in Hstep. step_ok_eq Hstep.
  revert Hm Hstep. apply for_each_invariant.
  intros i_f m1 m1' Hif Hm1 Hstep. apply py_range_In in Hif.
  unfold splice_i_b in Hstep. step_ok_eq Hstep.
  revert Hm1 Hstep. apply for_each_invariant.
  intros i_b m2 m2' _ Hm2 Hstep.
  unfold splice_body in Hstep. step_ok_eq Hstep; injection Hstep as <-;
    try assumption.
  apply Forall_snoc; [assumption|]. simpl.
  intros Happ. apply app_eq_nil in Happ as [Hto _]. revert Hto.
  apply py_slice_to_nonempty; [lia|].
  eapply py_index_nonempty; eauto.
Qed.

Lemma select_In (merged : list (cand S)) (h : list Z) :
  select merged = Ok h -> exists c, In c merged /\ hyp c = h.
Proof.
  unfold select.
  destruct (py_index _ 0) as [c|] eqn:E; cbn [bind]; [|discriminate].
  intros [= <-]. exists c. split; [|reflexivity].
  apply py_index_In in E.
  exact (Permutation_in _ (py_sorted_perm _ _ sltb (@score S) true merged) E).
Qed.

(** X1. What the fusion returns: one hypothesis per batch item, each the
    hypothesis of a candidate of that item, and never an empty one. *)
Theorem fusion_returns_nonempty_hypotheses (best : list (list Z)) :
  fusion = Ok best ->
  len best = len nbest_hyps_fwd /\
  Forall (fun h => h <> []) best.
Proof.
  intros Hf. destruct (fwd_bwd_attention_per_item _ _ _ _ _ _ _ Hf) as [Hlen [nbest Hb]].
  split; [assumption|].
  apply Forall_forall. intros h Hh. apply In_nth_error in Hh as [b Hh].
  destruct (Hb b h Hh) as (merged & Hm & Hs).
  apply select_In in Hs as (c & Hc & <-).
  apply merged_of_nonempty_hyps in Hm. rewrite Forall_forall in Hm. now apply Hm.
Qed.

Lemma seed_fwd_appends (b n : Z) (h : list Z) (sc : list S) :
  py_index2 nbest_hyps_fwd b n = Ok h ->
  py_index2 scores_fwd b n = Ok sc ->
  len sc = len h ->
  exists ext,
    (forall m, seed_fwd nbest_hyps_fwd scores_fwd b n m = Ok (m ++ ext)) /\
    (1 < len h -> ext <> []).
Proof.
  intros Hh Hsc Hlen. unfold seed_fwd. rewrite Hh, Hsc. cbn [bind].
  destruct (Z.ltb_spec 1 (len h)).
  - destruct (py_index_total h (-1)) as [t ->]; [lia|]. cbn [bind].
    destruct (t =? eos).
    + destruct (py_index_total sc (-2)) as [s ->]; [lia|]. cbn [bind].
      eexists. split; [reflexivity | discriminate].
    + destruct (py_index_total sc (-1)) as [s ->]; [lia|]. cbn [bind].
      eexists. split; [reflexivity | discriminate].
  - exists []. split; [intros m; now rewrite app_nil_r | lia].
Qed.

Lemma seed_bwd_appends (b n : Z) (h : list Z) (sc : list S) :
  py_index2 nbest_hyps_bwd b n = Ok h ->
  py_index2 scores_bwd b n = Ok sc ->
  len sc = len h ->
  exists ext,
    (forall m, seed_bwd nbest_hyps_bwd scores_bwd b n m = Ok (m ++ ext)) /\
    (1 < len h -> ext <> []).
Proof.
  intros Hh Hsc Hlen. unfold seed_bwd. rewrite Hh, Hsc. cbn [bind].
  destruct (Z.ltb_spec 1 (len h)).
  - destruct (py_index_total h 0) as [t ->]; [lia|]. cbn [bind].
    destruct (t =? eos).
    + destruct (py_index_total sc 1) as [s ->]; [lia|]. cbn [bind].
      eexists. split; [reflexivity | discriminate].
    + destruct (py_index_total sc 0) as [s ->]; [lia|]. cbn [bind].
      eexists. split; [reflexivity | discriminate].
  - exists []. split; [intros m; now rewrite app_nil_r | lia].
Qed.

Lemma flat_map_nonempty {A B : Type} (g : A -> list B) (l : list A) (x : A) :
  In x l -> g x <> [] -> flat_map g l <> [].
Proof.
  intros Hin Hg Hnil. apply Hg.
  destruct (g x) as [|y r] eqn:E; [reflexivity|].
  assert (Hy : In y (flat_map g l))
    by (apply in_flat_map; exists x; split; [assumption | rewrite E; now left]).
  now rewrite Hnil in Hy.
Qed.

Lemma select_total (merged : list (cand S)) :
  merged <> [] -> exists h, select merged = Ok h.
Proof.
  intros Hm. unfold select.
  pose proof (py_sorted_perm _ _ sltb (@score S) true merged) as Hp.
  destruct (py_sorted sltb (@score S) true merged) as [|c rest].
  - apply Permutation_nil in Hp. congruence.
  - destruct (py_index_nonneg (c :: rest) 0) as (a & _ & ->);
      [unfold len; simpl; lia|].
    cbn [bind]. eauto.
Qed.

(** One well-formed item with a hypothesis of more than one token is
    fused without an exception. *)
Lemma fuse_item_total (nbest b : Z) (acc : list (list Z))
  (HF : list (list Z)) (AF : list (list Row)) (SF : list (list S))
  (HB : list (list Z)) (AB : list (list Row)) (SB : list (list S)) :
  py_index nbest_hyps_fwd b = Ok HF -> py_index aws_fwd b = Ok AF ->
  py_index scores_fwd b = Ok SF -> py_index nbest_hyps_bwd b = Ok HB ->
  py_index aws_bwd b = Ok AB -> py_index scores_bwd b = Ok SB ->
  wf_nbest nbest HF AF SF = true -> wf_nbest nbest HB AB SB = true ->
  (exists n, 0 <= n < nbest /\ (1 < len (rank HF n) \/ 1 < len (rank HB n))) ->
  exists acc', fuse nbest b acc = Ok acc'.
Proof.
  intros Hhf Haf Hsf Hhb Hab Hsb Wf Wb (n0 & Hn0 & Hlong).
  destruct (wf_nbest_inv _ _ _ _ Wf) as (F1 & F2 & F3 & F4 & F5).
  destruct (wf_nbest_inv _ _ _ _ Wb) as (B1 & B2 & B3 & B4 & B5).
  set (g := fun n => match seeding b n [] with Ok l => l | Raise _ => [] end).
  assert (Hstep : forall n, 0 <= n < nbest ->
            (forall m, seeding b n m = Ok (m ++ g n)) /\
            (1 < len (rank HF n) \/ 1 < len (rank HB n) -> g n <> [])).
  { intros n Hn.
    destruct (seed_fwd_appends b n (rank HF n) (rank SF n)) as (e1 & He1 & Hl1);
      [apply py_index2_rank; (assumption || lia)
      |apply py_index2_rank; (assumption || lia)
      |apply F5 |].
    destruct (seed_bwd_appends b n (rank HB n) (rank SB n)) as (e2 & He2 & Hl2);
      [apply py_index2_rank; (assumption || lia)
      |apply py_index2_rank; (assumption || lia)
      |apply B5 |].
    assert (Hall : forall m, seeding b n m = Ok (m ++ e1 ++ e2)).
    { intros m. unfold seed_step. rewrite He1. cbn [bind]. rewrite He2.
      now rewrite app_assoc. }
    assert (Hg : g n = e1 ++ e2) by (unfold g; now rewrite (Hall [])).
    rewrite Hg. split; [exact Hall|].
    intros [Hl|Hl] Hnil; apply app_eq_nil in Hnil as [N1 N2];
      [exact (Hl1 Hl N1) | exact (Hl2 Hl N2)]. }
  assert (Hseeds : for_each (py_range nbest) (seeding b) [] =
                   Ok ([] ++ flat_map g (py_range nbest))).
  { apply for_each_appends. intros n m Hn. apply py_range_In in Hn.
    now apply Hstep. }
  unfold fuse_item, merged_of. rewrite Hseeds. cbn [bind app].
  rewrite (splice_search_spec _ _ _ _ _ _ b nbest HF AF SF HB AB SB) by assumption.
  cbn [bind].
  destruct (select_total
              (flat_map g (py_range nbest) ++
               flat_map (fun n_f =>
                 flat_map (fun n_b =>
                   flat_map (fun i_f =>
                     flat_map (appended_at nbest_hyps_fwd aws_fwd scores_fwd
                                 nbest_hyps_bwd aws_bwd scores_bwd b n_f n_b i_f)
                              (py_range (len (rank AB n_b) - 1)))
                     (py_range (len (rank AF n_f) - 1)))
                   (py_range nbest))
                 (py_range nbest))) as [h Hh].
  - intros Hnil. apply app_eq_nil in Hnil as [Hnil _]. revert Hnil.
    apply (flat_map_nonempty g _ n0); [now apply py_range_In|].
    now apply Hstep.
  - rewrite Hh. cbn [bind]. eauto.
Qed.

(** On a batch of at least one item, where every item has, for both
    directions, at least as many hypotheses as the first item's forward
    list, one alignment row and one score per token, and some hypothesis
    of more than one token, the fusion of the model returns a result. *)
Lemma fusion_total_on_well_formed :
  1 <= len nbest_hyps_fwd ->
  (forall b, 0 <= b < len nbest_hyps_fwd ->
     exists HF AF SF HB AB SB,
       py_index nbest_hyps_fwd b = Ok HF /\ py_index aws_fwd b = Ok AF /\
       py_index scores_fwd b = Ok SF /\ py_index nbest_hyps_bwd b = Ok HB /\
       py_index aws_bwd b = Ok AB /\ py_index scores_bwd b = Ok SB /\
       wf_nbest (len (rank nbest_hyps_fwd 0)) HF AF SF = true /\
       wf_nbest (len (rank nbest_hyps_fwd 0)) HB AB SB = true /\
       exists n, 0 <= n < len (rank nbest_hyps_fwd 0) /\
                 (1 < len (rank HF n) \/ 1 < len (rank HB n))) ->
  exists best, fusion = Ok best.
Proof.
  intros HB1 Hitems. unfold fwd_bwd_attention.
  rewrite py_index_rank by lia. cbn [bind].
  apply for_each_total. intros b acc Hb. apply py_range_In in Hb.
  destruct (Hitems b Hb)
    as (HF & AF & SF & HB & AB & SB & E1 & E2 & E3 & E4 & E5 & E6 & W1 & W2 & Hn).
  eapply fuse_item_total; eauto.
Qed.

(** X4. The number of hypotheses per item is read off the first item's
    forward list. An item with fewer forward or fewer backward
    hypotheses than that makes the whole call raise [IndexError]. *)
Theorem ragged_nbest_raises_IndexError (b : Z) (F0 : list (list Z)) :
  0 <= b < len nbest_hyps_fwd ->
  py_index nbest_hyps_fwd 0 = Ok F0 ->
  (exists HF, py_index nbest_hyps_fwd b = Ok HF /\ len HF < len F0) \/
  (exists HB, py_index nbest_hyps_bwd b = Ok HB /\ len HB < len F0) ->
  fusion = Raise IndexError.
Proof.
  intros Hb Hfirst Hshort.
  assert (Hfail : forall acc, exists e, fuse (len F0) b acc = Raise e).
  { intros acc. unfold fuse_item, merged_of.
    assert (Hs : exists e, for_each (py_range (len F0)) (seeding b) [] = Raise e).
    { destruct Hshort as [(HF & E & Hlt)|(HB & E & Hlt)].
      - apply (for_each_fails _ _ (len HF)).
        + apply py_range_In. pose proof (len_nonneg HF). lia.
        + intros m. unfold seed_step, seed_fwd, py_index2. rewrite E. cbn [bind].
          destruct (py_index HF (len HF)) as [h|e] eqn:Ei; cbn [bind]; [|eauto].
          exfalso. unfold py_index in Ei.
          pose proof (len_nonneg HF).
          destruct (Z.ltb_spec (len HF) 0); [lia|].
          destruct (Z.ltb_spec (len HF) (len HF)); [lia|].
          rewrite andb_false_r in Ei. discriminate.
      - apply (for_each_fails _ _ (len HB)).
        + apply py_range_In. pose proof (len_nonneg HB). lia.
        + intros m. unfold seed_step.
          destruct (seed_fwd _ _ b (len HB) m) as [m1|e]; cbn [bind]; [|eauto].
          unfold seed_bwd, py_index2. rewrite E. cbn [bind].
          destruct (py_index HB (len HB)) as [h|e] eqn:Ei; cbn [bind]; [|eauto].
          exfalso. unfold py_index in Ei.
          pose proof (len_nonneg HB).
          destruct (Z.ltb_spec (len HB) 0); [lia|].
          destruct (Z.ltb_spec (len HB) (len HB)); [lia|].
          rewrite andb_false_r in Ei. discriminate. }
    destruct Hs as [e ->]. cbn [bind]. eauto. }
  destruct fusion as [best|e] eqn:E.
  - exfalso. unfold fwd_bwd_attention in E. rewrite Hfirst in E. cbn [bind] in E.
    destruct (for_each_fails (py_range (len nbest_hyps_fwd)) (fuse (len F0)) b)
      with (s := @nil (list Z)) as [e He]; [now apply py_range_In | exact Hfail |].
    congruence.
  - f_equal.
    exact (fwd_bwd_attention_only_index_error nbest_hyps_fwd aws_fwd scores_fwd
             nbest_hyps_bwd aws_bwd scores_bwd e E).
Qed.
End FusionMore.

(** X2. Which exceptions the fusion raises. When every alignment row
    has an arg-max (none is empty), the only exception the fusion can
    raise is [IndexError], and on an empty batch it does raise it
    ([nbest_hyps_fwd[0]]). The call is the one with [idx2token=None], in
    which no code of the caller runs. *)
Theorem fusion_raises_only_IndexError {S : Type} `{Score S}
  (nbest_hyps_fwd : list (list (list Z)))
  (aws_fwd : list (list (list (list Z))))
  (scores_fwd : list (list (list S)))
  (nbest_hyps_bwd : list (list (list Z)))
  (aws_bwd : list (list (list (list Z))))
  (scores_bwd : list (list (list S))) :
  rows_nonempty aws_fwd = true ->
  rows_nonempty aws_bwd = true ->
  only_index_error
    (fwd_bwd_attention nbest_hyps_fwd aws_fwd scores_fwd
                       nbest_hyps_bwd aws_bwd scores_bwd) /\
  (nbest_hyps_fwd = [] ->
   fwd_bwd_attention nbest_hyps_fwd aws_fwd scores_fwd
                     nbest_hyps_bwd aws_bwd scores_bwd = Raise IndexError).
Proof.
  intros _ _. split.
  - apply fwd_bwd_attention_only_index_error.
  - intros Hb. unfold fwd_bwd_attention. rewrite Hb. reflexivity.
Qed.

(** X3. On a batch of at least one item, where every alignment row has
    an arg-max (none is empty) and every item has, for both directions,
    at least as many hypotheses as the first item's forward list, one
    alignment row and one score per token, and some hypothesis of more
    than one token, the fusion returns a result. *)
Theorem fusion_returns_on_well_formed_batch {S : Type} `{Score S}
  (nbest_hyps_fwd : list (list (list Z)))
  (aws_fwd : list (list (list (list Z))))
  (scores_fwd : list (list (list S)))
  (nbest_hyps_bwd : list (list (list Z)))
  (aws_bwd : list (list (list (list Z))))
  (scores_bwd : list (list (list S))) :
  rows_nonempty aws_fwd = true ->
  rows_nonempty aws_bwd = true ->
  1 <= len nbest_hyps_fwd ->
  (forall b, 0 <= b < len nbest_hyps_fwd ->
     exists HF AF SF HB AB SB,
       py_index nbest_hyps_fwd b = Ok HF /\ py_index aws_fwd b = Ok AF /\
       py_index scores_fwd b = Ok SF /\ py_index nbest_hyps_bwd b = Ok HB /\
       py_index aws_bwd b = Ok AB /\ py_index scores_bwd b = Ok SB /\
       wf_nbest (len (rank nbest_hyps_fwd 0)) HF AF SF = true /\
       wf_nbest (len (rank nbest_hyps_fwd 0)) HB AB SB = true /\
       exists n, 0 <= n < len (rank nbest_hyps_fwd 0) /\
                 (1 < len (rank HF n) \/ 1 < len (rank HB n))) ->
  exists best,
    fwd_bwd_attention nbest_hyps_fwd aws_fwd scores_fwd
                      nbest_hyps_bwd aws_bwd scores_bwd = Ok best.
Proof.
  intros _ _. apply fusion_total_on_well_formed.
Qed.

(** ** A batch that is already sorted *)

Lemma StronglySorted_nth {A : Type} (R : A -> A -> Prop) (l : list A) (d : A) :
  StronglySorted R l ->
  forall i j, (i < j < List.length l)%nat -> R (nth i l d) (nth j l d).
Proof.
  induction 1 as [|x l Hl IH Hx]; intros i j Hij; simpl in Hij; [lia|].
  destruct j as [|j]; [lia|]. destruct i as [|i]; simpl.
  - rewrite Forall_forall in Hx. apply Hx, nth_In. lia.
  - apply IH. lia.
Qed.

Lemma StronglySorted_weaken {A : Type} (R Q : A -> A -> Prop) (l : list A) :
  (forall a b, In a l -> In b l -> R a b -> Q a b) ->
  StronglySorted R l -> StronglySorted Q l.
Proof.
  intros HRQ Hs. induction Hs as [|x l Hl IH Hx]; constructor.
  - apply IH. intros a b Ha Hb. apply HRQ; now right.
  - rewrite Forall_forall in *. intros y Hy.
    apply HRQ; [now left | now right | now apply Hx].
Qed.

Lemma sort_stable_sorted_id {A : Type} (key : A -> Z) (l : list A) :
  StronglySorted (fun a b => key a <= key b) l ->
  sort_stable Z.ltb key l = l.
Proof.
  induction 1 as [|x l Hl IH Hx]; simpl; [reflexivity|].
  rewrite IH. destruct l as [|y l]; [reflexivity|]. simpl.
  apply Forall_inv in Hx. destruct (Z.ltb_spec (key y) (key x)); [lia|reflexivity].
Qed.

(** [sorted(l, key=key, reverse=True)] leaves a list alone whose keys
    never increase. *)
Lemma py_sorted_reverse_sorted_id {A : Type} (key : A -> Z) (l : list A) :
  StronglySorted (fun a b => key b <= key a) l ->
  py_sorted Z.ltb key true l = l.
Proof.
  intros Hs. unfold py_sorted. rewrite sort_stable_sorted_id.
  - apply rev_involutive.
  - exact (StronglySorted_rev (fun a b => key b <= key a) l Hs).
Qed.

Section EncodeMore.
Variable Frame : Type.

(** X5. A batch whose lengths never increase is left in place:
    [perm_idx] is [0, 1, ..., B-1] and the encoder receives the batch as
    it was given. *)
Theorem sorted_batch_is_left_in_place (xs : list (list Frame)) :
  StronglySorted (fun a b => len b <= len a) xs ->
  sort_perm xs = py_range (len xs) /\ sorted_batch xs = xs.
Proof.
  intros Hs.
  assert (Hp : sort_perm xs = py_range (len xs)).
  { unfold sort_perm. apply py_sorted_reverse_sorted_id.
    apply (StronglySorted_weaken Z.lt); [|apply py_range_sorted].
    intros i j Hi Hj Hij. apply py_range_In in Hi, Hj. unfold item_len.
    apply (StronglySorted_nth _ xs [] Hs (Z.to_nat i) (Z.to_nat j)).
    unfold len in *. lia. }
  split; [assumption|].
  unfold sorted_batch. rewrite Hp. apply map_nth_range.
Qed.
End EncodeMore.

Lemma sorted_batch_is_left_in_place_witness :
  sort_perm [[8; 9]; [7]; [6]] = [0; 1; 2] /\
  sorted_batch [[8; 9]; [7]; [6]] = [[8; 9]; [7]; [6]].
Proof.
  apply (sorted_batch_is_left_in_place Z [[8; 9]; [7]; [6]]).
  repeat constructor; unfold len; simpl; lia.
Defined.

(** ** What the dispatcher ignores *)

Section DispatchMore.
Variables (Frame Enc LM Conv Refs : Type).
Context {S Row : Type} `{Score S} `{Attention Row}.

Local Abbreviation Model := (@Seq2seq Frame Enc LM Conv Refs S Row).

(** X6. Greedy decoding and the fusion never consult a language model:
    whatever [rnnlm_weight] is and whether a model is registered or not,
    the call cannot fail on the [assert], and every decoder is called
    without a language model. *)
Theorem greedy_and_fusion_use_no_language_model (self : Model) xs dp nbest
  exclude_eos idx2token refs ctc task :
  ctc_path self ctc = false ->
  greedy_path dp = true \/ dp_fwd_bwd_attention dp = true ->
  Forall (@without_lm LM)
         (fst (decode self xs dp nbest exclude_eos idx2token refs ctc task)) /\
  snd (decode self xs dp nbest exclude_eos idx2token refs ctc task) <>
  Raise AssertionError.
Proof.
  intros Hc Hpath. destruct (greedy_path dp) eqn:Hg.
  - rewrite decode_greedy_path by assumption.
    destruct (dec self _); simpl; split;
      try discriminate; repeat constructor.
  - destruct Hpath as [|Hf]; [discriminate|].
    rewrite decode_fusion_path by assumption.
    destruct (dec self "fwd") as [d1|]; [|simpl; split; [constructor|discriminate]].
    destruct (dec self "bwd") as [d2|];
      [|simpl; split; [repeat constructor|discriminate]].
    cbn [fst snd]. split; [repeat constructor|].
    intros Hr.
    destruct (fwd_bwd_attention _ _ _ _ _ _) as [best|e] eqn:E;
      cbn [bind] in Hr; [discriminate|].
    injection Hr as ->.
    now apply fwd_bwd_attention_only_index_error in E.
Qed.

(** X7. [nbest] matters to single-direction beam search only: in the
    CTC-only, greedy and fusion paths the call makes the same decoder
    calls and returns the same 3-tuple whatever [nbest] is. *)
Theorem nbest_is_ignored_outside_beam_search (self : Model) xs dp nbest nbest'
  exclude_eos idx2token refs ctc task :
  ctc_path self ctc = true \/ greedy_path dp = true \/
  dp_fwd_bwd_attention dp = true ->
  decode self xs dp nbest exclude_eos idx2token refs ctc task =
  decode self xs dp nbest' exclude_eos idx2token refs ctc task.
Proof.
  intros Hpath. destruct (ctc_path self ctc) eqn:Hc.
  - now rewrite !decode_ctc_path by assumption.
  - destruct Hpath as [|[Hg|Hf]]; [discriminate|..].
    + now rewrite !decode_greedy_path by assumption.
    + now rewrite !decode_fusion_path by assumption.
Qed.
End DispatchMore.

Lemma greedy_and_fusion_use_no_language_model_witness :
  fst (decode (toy_model 0 0 lm_by_name) [[7]; [8; 9]] (toy_params 2 1 true)
              1 false None None false "ys") =
  [call_beam_search "fwd" None 2 false; call_beam_search "bwd" None 2 false] /\
  snd (decode (toy_model 0 0 no_lm) [[7]; [8; 9]] (toy_params 2 1 true)
              1 false None None false "ys") <> Raise AssertionError.
Proof.
  split; [reflexivity|].
  apply (greedy_and_fusion_use_no_language_model _ _ _ _ _
           (toy_model 0 0 no_lm) [[7]; [8; 9]] (toy_params 2 1 true)
           1 false None None false "ys" eq_refl (or_intror eq_refl)).
Defined.

Lemma nbest_is_ignored_outside_beam_search_witness :
  decode (toy_model 0 0 no_lm) [[7]; [8; 9]] (toy_params 1 0 false)
         5 false None None false "ys" =
  decode (toy_model 0 0 no_lm) [[7]; [8; 9]] (toy_params 1 0 false)
         1 false None None false "ys".
Proof.
  apply (nbest_is_ignored_outside_beam_search _ _ _ _ _
           (toy_model 0 0 no_lm) [[7]; [8; 9]] (toy_params 1 0 false) 5 1
           false None None false "ys").
  right. left. reflexivity.
Defined.

(** ** The constructor *)

Lemma Qgtb_true (a b : Q) : Qgtb a b = true <-> (b < a)%Q.
Proof.
  unfold Qgtb. rewrite negb_true_iff. split.
  - intros E. apply Qnot_le_lt. intros Hle. apply Qle_bool_iff in Hle. congruence.
  - intros Hlt. destruct (Qle_bool a b) eqn:E; [|reflexivity].
    apply Qle_bool_iff in E. lra.
Qed.

Lemma Qgtb_false (a b : Q) : Qgtb a b = false <-> (a <= b)%Q.
Proof.
  unfold Qgtb. rewrite negb_false_iff. apply Qle_bool_iff.
Qed.

Lemma Qltb_true (a b : Q) : Qltb a b = true <-> (a < b)%Q.
Proof. apply (Qgtb_true b a). Qed.

Lemma Qltb_false (a b : Q) : Qltb a b = false <-> (b <= a)%Q.
Proof. apply (Qgtb_false b a). Qed.

Lemma Qgeb_true (a b : Q) : Qgeb a b = true <-> (b <= a)%Q.
Proof. apply Qle_bool_iff. Qed.

Lemma Qgeb_false (a b : Q) : Qgeb a b = false <-> (a < b)%Q.
Proof.
  unfold Qgeb. split.
  - intros E. apply Qnot_le_lt. intros Hle. apply Qle_bool_iff in Hle. congruence.
  - intros Hlt. destruct (Qle_bool b a) eqn:E; [|reflexivity].
    apply Qle_bool_iff in E. lra.
Qed.

(** What the constructor leaves behind, case by case. *)
Lemma init_spec (a : init_args) :
  let has_fwd := Qgtb (1 - a_bwd_weight a) 0 || Qgtb (a_ctc_weight a) 0 in
  let has_bwd := Qgtb (a_bwd_weight a) 0 in
  if a_rnnlm_cold_fusion a && has_fwd then init a = Raise AttributeError
  else
    exists b,
      init a = Ok b /\
      m_fwd_weight b = (1 - a_bwd_weight a)%Q /\
      m_bwd_weight b = a_bwd_weight a /\
      m_ctc_weight b = a_ctc_weight a /\
      m_args_rnnlm_cold_fusion b = false /\
      m_decs b =
      (if Qgtb (a_sub2_weight a) 1 || (a_mtl_per_batch a && a_dict_sub2 a)
       then [("fwd_sub2"%string, init_sub2_decoder a)] else [])
        ++ (if Qgtb (a_sub1_weight a) 0 || (a_mtl_per_batch a && a_dict_sub1 a)
            then [("fwd_sub1"%string, init_sub1_decoder a)] else [])
        ++ (if has_bwd
            then [("bwd"%string,
                   {| da_attention := Some (attention_for (a_attn_nheads a));
                      da_vocab := a_vocab a;
                      da_ctc_weight := 0;
                      da_backward := Some true;
                      da_rnnlm_cold_fusion := Some false;
                      da_global_weight := a_bwd_weight a |})] else [])
        ++ (if has_fwd
            then [("fwd"%string,
                   {| da_attention :=
                        if Qltb (a_ctc_weight a) 1
                        then Some (attention_for (a_attn_nheads a)) else None;
                      da_vocab := a_vocab a;
                      da_ctc_weight := a_ctc_weight a;
                      da_backward := Some false;
                      da_rnnlm_cold_fusion := Some false;
                      da_global_weight :=
                        (1 - a_sub1_weight a - a_sub2_weight a - a_bwd_weight a)%Q |})]
            else []).
Proof.
  cbv zeta. unfold init, init_directions.
  destruct (Qgtb (1 - a_bwd_weight a) 0 || Qgtb (a_ctc_weight a) 0) eqn:Ef;
    destruct (Qgtb (a_bwd_weight a) 0) eqn:Eb.
  4: { exfalso. apply orb_false_elim in Ef as [Ef _].
       apply Qgtb_false in Ef, Eb. lra. }
  all: destruct (a_rnnlm_cold_fusion a) eqn:Ec;
    cbn [andb app for_each init_main_decoder bind String.eqb Ascii.eqb Bool.eqb orb];
    try reflexivity;
    eexists; (split; [reflexivity|]);
    cbn [m_fwd_weight m_bwd_weight m_ctc_weight m_args_rnnlm_cold_fusion m_decs];
    repeat (split; [reflexivity|]);
    destruct (Qgtb (a_sub2_weight a) 1 || (a_mtl_per_batch a && a_dict_sub2 a));
    destruct (Qgtb (a_sub1_weight a) 0 || (a_mtl_per_batch a && a_dict_sub1 a));
    destruct (Qltb (a_ctc_weight a) 1); reflexivity.
Qed.

Lemma init_lookup (a : init_args) (b : built) :
  init a = Ok b ->
  let has_fwd := Qgtb (1 - a_bwd_weight a) 0 || Qgtb (a_ctc_weight a) 0 in
  (a_rnnlm_cold_fusion a && has_fwd = false) /\
  m_fwd_weight b = (1 - a_bwd_weight a)%Q /\
  m_bwd_weight b = a_bwd_weight a /\
  m_ctc_weight b = a_ctc_weight a /\
  m_args_rnnlm_cold_fusion b = false /\
  lookup_attr "fwd" (m_decs b) =
  (if has_fwd
   then Some {| da_attention :=
                  if Qltb (a_ctc_weight a) 1
                  then Some (attention_for (a_attn_nheads a)) else None;
                da_vocab := a_vocab a;
                da_ctc_weight := a_ctc_weight a;
                da_backward := Some false;
                da_rnnlm_cold_fusion := Some false;
                da_global_weight :=
                  (1 - a_sub1_weight a - a_sub2_weight a - a_bwd_weight a)%Q |}
   else None) /\
  lookup_attr "bwd" (m_decs b) =
  (if Qgtb (a_bwd_weight a) 0
   then Some {| da_attention := Some (attention_for (a_attn_nheads a));
                da_vocab := a_vocab a;
                da_ctc_weight := 0;
                da_backward := Some true;
                da_rnnlm_cold_fusion := Some false;
                da_global_weight := a_bwd_weight a |}
   else None) /\
  lookup_attr "fwd_sub1" (m_decs b) =
  (if Qgtb (a_sub1_weight a) 0 || (a_mtl_per_batch a && a_dict_sub1 a)
   then Some (init_sub1_decoder a) else None) /\
  lookup_attr "fwd_sub2" (m_decs b) =
  (if Qgtb (a_sub2_weight a) 1 || (a_mtl_per_batch a && a_dict_sub2 a)
   then Some (init_sub2_decoder a) else None) /\
  lookup_attr "bwd_sub1" (m_decs b) = None /\
  lookup_attr "bwd_sub2" (m_decs b) = None.
Proof.
  intros Hb. pose proof (init_spec a) as Hs. cbv zeta in *.
  destruct (a_rnnlm_cold_fusion a && _) eqn:Ec; [congruence|].
  destruct Hs as (b' & Hb' & F1 & F2 & F3 & F4 & F5).
  assert (b' = b) as -> by congruence.
  split; [reflexivity|].
  repeat (split; [assumption|]).
  rewrite F5.
  destruct (Qgtb (a_sub2_weight a) 1 || (a_mtl_per_batch a && a_dict_sub2 a));
    destruct (Qgtb (a_sub1_weight a) 0 || (a_mtl_per_batch a && a_dict_sub1 a));
    destruct (Qgtb (a_bwd_weight a) 0);
    destruct (Qgtb (1 - a_bwd_weight a) 0 || Qgtb (a_ctc_weight a) 0);
    repeat split; reflexivity.
Qed.

Lemma map_m_raise {X Y : Type} (f : X -> result Y) (xs : list X) (e : exn) :
  (forall x e', f x = Raise e' -> e' = IndexError) ->
  map_m f xs = Raise e -> e = IndexError.
Proof.
  intros Hf. induction xs as [|x xs IH]; simpl; [discriminate|].
  destruct (f x) as [y|e'] eqn:E; cbn [bind].
  - destruct (map_m f xs) as [ys|e'']; cbn [bind]; [discriminate|].
    intros [= <-]. now apply IH.
  - intros [= <-]. eapply Hf; eauto.
Qed.

Section InitFacts.
Variables (Frame Enc LM Conv Refs : Type).
Context {S Row : Type} `{Score S} `{Attention Row}.

Variable realise : decoder_args -> @Decoder Enc LM Conv Refs S Row.
Variable encoder : list (list Frame) -> string -> Enc.
Variable lms : string -> option LM.

Local Abbreviation model b := (model_of b realise encoder lms).

Lemma choose_rnnlm_raise (self : @Seq2seq Frame Enc LM Conv Refs S Row) dp dir e :
  choose_rnnlm self dp dir = Raise e -> e = AssertionError.
Proof.
  unfold choose_rnnlm, get_rnnlm.
  destruct (Qgtb _ _); [|discriminate].
  destruct (rnnlm self dir); [discriminate|]. now intros [= <-].
Qed.

Lemma decode_dir_main (b : built) :
  decode_dir (model b) "ys" =
  (if Qgeb (m_fwd_weight b) (m_bwd_weight b) then "fwd" else "bwd")%string.
Proof. reflexivity. Qed.

Lemma init_main_decoder_exists (a : init_args) (b : built) :
  init a = Ok b -> dec (model b) (decode_dir (model b) "ys") <> None.
Proof.
  intros Hb. destruct (init_lookup a b Hb)
    as (_ & F1 & F2 & _ & _ & Lf & Lb & _).
  rewrite decode_dir_main. cbn [dec model_of]. rewrite F1, F2.
  destruct (Qgeb (1 - a_bwd_weight a) (a_bwd_weight a)) eqn:E.
  - apply Qgeb_true in E. rewrite Lf.
    assert (Hf : Qgtb (1 - a_bwd_weight a) 0 = true) by (apply Qgtb_true; lra).
    rewrite Hf. discriminate.
  - apply Qgeb_false in E. rewrite Lb.
    assert (Hw : Qgtb (a_bwd_weight a) 0 = true) by (apply Qgtb_true; lra).
    rewrite Hw. discriminate.
Qed.

(** X8. Whatever the weights, the constructor builds the decoder that
    [decode] selects for the main task: [fwd_weight >= bwd_weight] forces
    a forward decoder, the opposite a backward one. So for task ['ys']
    the CTC-only, greedy and single-direction beam-search paths never
    fail with [AttributeError]. *)
Theorem init_builds_the_selected_main_decoder (a : init_args) (b : built)
  xs dp nbest exclude_eos idx2token refs ctc :
  init a = Ok b ->
  dec (model b) (decode_dir (model b) "ys") <> None /\
  (ctc_path (model b) ctc = true \/ dp_fwd_bwd_attention dp = false ->
   snd (decode (model b) xs dp nbest exclude_eos idx2token refs ctc "ys") <>
   Raise AttributeError).
Proof.
  intros Hb. pose proof (init_main_decoder_exists a b Hb) as Hd.
  split; [assumption|]. intros Hpath.
  destruct (dec (model b) (decode_dir (model b) "ys")) as [d|] eqn:Ed;
    [|congruence].
  destruct (ctc_path (model b) ctc) eqn:Hc.
  - rewrite decode_ctc_path by assumption.
    destruct (choose_rnnlm _ dp _) as [lm|e] eqn:El.
    + rewrite Ed. discriminate.
    + apply choose_rnnlm_raise in El as ->. discriminate.
  - destruct Hpath as [|Hf]; [discriminate|].
    destruct (greedy_path dp) eqn:Hg.
    + rewrite decode_greedy_path by assumption. rewrite Ed. discriminate.
    + rewrite decode_beam_path by assumption.
      destruct (choose_rnnlm _ dp _) as [lm|e] eqn:El.
      * rewrite Ed. cbn [snd]. destruct (nbest =? 1); [|discriminate].
        destruct (map_m _ (fst _)) as [hs|e] eqn:E1; cbn [bind].
        -- destruct (map_m _ (snd _)) as [aws|e] eqn:E2; cbn [bind];
             [discriminate|].
           apply map_m_raise in E2 as ->; [discriminate|].
           intros x e'. apply py_index_raise.
        -- apply map_m_raise in E1 as ->; [discriminate|].
           intros x e'. apply py_index_raise.
      * apply choose_rnnlm_raise in El as ->. discriminate.
Qed.

(** X9. Cold fusion cannot be switched on. A model that was
    constructed has the flag [args.rnnlm_cold_fusion] cleared and every
    decoder built without cold fusion. With the flag set and a forward
    decoder due ([fwd_weight > 0] or [ctc_weight > 0]) the constructor
    raises, and what it raises is [AttributeError] ([logger.inof]), not
    [NotImplementedError]. So a call with the flag set can return only
    when no forward decoder is due ([bwd_weight >= 1] and
    [ctc_weight <= 0]), and then the flag has been cleared. *)
Theorem init_never_enables_cold_fusion (a : init_args) :
  (forall b, init a = Ok b ->
             m_args_rnnlm_cold_fusion b = false /\
             forall name da, lookup_attr name (m_decs b) = Some da ->
                             da_rnnlm_cold_fusion da <> Some true) /\
  (a_rnnlm_cold_fusion a = true ->
   Qgtb (1 - a_bwd_weight a) 0 || Qgtb (a_ctc_weight a) 0 = true ->
   init a = Raise AttributeError) /\
  (forall b, a_rnnlm_cold_fusion a = true -> init a = Ok b ->
             (1 <= a_bwd_weight a)%Q /\ (a_ctc_weight a <= 0)%Q).
Proof.
  pose proof (init_spec a) as Hs. cbv zeta in Hs.
  split; [|split].
  - intros b Hb. destruct (a_rnnlm_cold_fusion a && _); [congruence|].
    destruct Hs as (b' & Hb' & _ & _ & _ & F4 & F5).
    assert (b' = b) as -> by congruence.
    split; [assumption|]. rewrite F5. intros name da.
    destruct (Qgtb (a_sub2_weight a) 1 || (a_mtl_per_batch a && a_dict_sub2 a));
      destruct (Qgtb (a_sub1_weight a) 0 || (a_mtl_per_batch a && a_dict_sub1 a));
      destruct (Qgtb (a_bwd_weight a) 0);
      destruct (Qgtb (1 - a_bwd_weight a) 0 || Qgtb (a_ctc_weight a) 0);
      cbn [app lookup_attr];
      repeat match goal with
        | |- context [String.eqb ?k name] => destruct (String.eqb k name)
        end;
      intros [= <-]; discriminate.
  - intros Hc Hf. now rewrite Hc, Hf in Hs.
  - intros b Hc Hb. rewrite Hc in Hs. cbn [andb] in Hs.
    destruct (Qgtb (1 - a_bwd_weight a) 0 || Qgtb (a_ctc_weight a) 0) eqn:Ef;
      [congruence|].
    apply orb_false_elim in Ef as [E1 E2].
    apply Qgtb_false in E1, E2. split; [lra | assumption].
Qed.

(** X10. Sub-task decoders exist in the forward direction only. On a
    model whose backward weight exceeds its forward weight, decoding a
    sub-task asks for [dec_bwd_sub1] or [dec_bwd_sub2], which the
    constructor never sets: without language-model rescoring the
    CTC-only, greedy and single-direction beam-search paths raise
    [AttributeError] before any decoder is called. *)
Theorem sub_task_of_backward_model_raises_AttributeError (a : init_args)
  (b : built) xs dp nbest exclude_eos idx2token refs ctc task :
  init a = Ok b ->
  (1 - a_bwd_weight a < a_bwd_weight a)%Q ->
  task = "ys_sub1"%string \/ task = "ys_sub2"%string ->
  ctc_path (model b) ctc = true \/ dp_fwd_bwd_attention dp = false ->
  Qgtb (dp_rnnlm_weight dp) 0 = false ->
  decode (model b) xs dp nbest exclude_eos idx2token refs ctc task =
  ([], Raise AttributeError).
Proof.
  intros Hb Hw Htask Hpath Hlm.
  destruct (init_lookup a b Hb)
    as (_ & F1 & F2 & _ & _ & _ & _ & _ & _ & L1 & L2).
  assert (Hdir : dec (model b) (decode_dir (model b) task) = None).
  { unfold decode_dir. cbn [fwd_weight bwd_weight dec model_of].
    rewrite F1, F2. apply Qgeb_false in Hw. rewrite Hw.
    destruct Htask as [->| ->]; cbn; [now rewrite L1 | now rewrite L2]. }
  assert (Hch : choose_rnnlm (model b) dp (decode_dir (model b) task) = Ok None)
    by (unfold choose_rnnlm; now rewrite Hlm).
  destruct (ctc_path (model b) ctc) eqn:Hc.
  - rewrite decode_ctc_path by assumption. now rewrite Hch, Hdir.
  - destruct Hpath as [|Hf]; [discriminate|].
    destruct (greedy_path dp) eqn:Hg.
    + rewrite decode_greedy_path by assumption. now rewrite Hdir.
    + rewrite decode_beam_path by assumption. now rewrite Hch, Hdir.
Qed.


(** X12. The forward decoder is built without attention exactly when
    the CTC weight is 1 or more. With a CTC weight of at most 1, decoding
    the main task never runs [greedy] or [beam_search] on a decoder
    without attention: a CTC weight of 1 sends every call down the
    CTC-only path. *)
Theorem main_task_search_has_attention (a : init_args) (b : built)
  xs dp nbest exclude_eos idx2token refs ctc :
  init a = Ok b ->
  (a_ctc_weight a <= 1)%Q ->
  Forall (@attends LM b)
         (fst (decode (model b) xs dp nbest exclude_eos idx2token refs ctc "ys")).
Proof.
  intros Hb Hw.
  destruct (init_lookup a b Hb) as (_ & F1 & F2 & F3 & _ & Lf & Lb & _).
  destruct (ctc_path (model b) ctc) eqn:Hc.
  - rewrite decode_ctc_path by assumption.
    destruct (choose_rnnlm _ _ _); [|constructor].
    destruct (dec _ _); repeat constructor.
  - assert (Hlt : Qltb (a_ctc_weight a) 1 = true).
    { apply Qltb_true. unfold ctc_path in Hc. cbn [ctc_weight model_of] in Hc.
      rewrite F3 in Hc. apply orb_false_elim in Hc as [Hc _].
      assert (Hne : ~ (a_ctc_weight a == 1)%Q)
        by (intros E; apply Qeq_bool_iff in E; congruence).
      lra. }
    assert (Hfwd : forall d, dec (model b) "fwd" = Some d ->
              exists da, lookup_attr "fwd" (m_decs b) = Some da /\
                         da_attention da <> None).
    { cbn [dec model_of]. rewrite Lf, Hlt. intros d.
      destruct (Qgtb (1 - a_bwd_weight a) 0 || Qgtb (a_ctc_weight a) 0);
        cbn [option_map]; [|intros E; discriminate E].
      intros _. eexists. split; [reflexivity|]. simpl. discriminate. }
    assert (Hbwd : forall d, dec (model b) "bwd" = Some d ->
              exists da, lookup_attr "bwd" (m_decs b) = Some da /\
                         da_attention da <> None).
    { cbn [dec model_of]. rewrite Lb. intros d.
      destruct (Qgtb (a_bwd_weight a) 0);
        cbn [option_map]; [|intros E; discriminate E].
      intros _. eexists. split; [reflexivity|]. simpl. discriminate. }
    assert (Hdir : forall d, dec (model b) (decode_dir (model b) "ys") = Some d ->
              exists da, lookup_attr (decode_dir (model b) "ys") (m_decs b) = Some da /\
                         da_attention da <> None).
    { rewrite decode_dir_main. destruct (Qgeb _ _); assumption. }
    destruct (dp_fwd_bwd_attention dp) eqn:Hf.
    + rewrite decode_fusion_path by assumption.
      destruct (dec (model b) "fwd") as [d1|] eqn:E1; [|constructor].
      destruct (dec (model b) "bwd") as [d2|] eqn:E2; cbn [fst].
      * constructor; [exact (Hfwd d1 eq_refl)|].
        constructor; [exact (Hbwd d2 eq_refl) | constructor].
      * constructor; [exact (Hfwd d1 eq_refl) | constructor].
    + destruct (greedy_path dp) eqn:Hg.
      * rewrite decode_greedy_path by assumption.
        destruct (dec (model b) (decode_dir (model b) "ys")) as [d|] eqn:E;
          [|constructor].
        cbn [fst]. constructor; [exact (Hdir d eq_refl) | constructor].
      * rewrite decode_beam_path by assumption.
        destruct (choose_rnnlm _ _ _); [|constructor].
        destruct (dec (model b) (decode_dir (model b) "ys")) as [d|] eqn:E;
          [|constructor].
        cbn [fst]. constructor; [exact (Hdir d eq_refl) | constructor].
Qed.

(** X13. CTC-only decoding goes to the decoder of the dominant
    direction. On a model whose backward weight exceeds its forward
    weight this is the backward decoder, and the constructor builds that
    one with a CTC weight of 0 whatever the model's CTC weight is. *)
Theorem ctc_decoding_of_backward_model (a : init_args) (b : built)
  xs dp nbest exclude_eos idx2token refs ctc :
  init a = Ok b ->
  (1 - a_bwd_weight a < a_bwd_weight a)%Q ->
  ctc_path (model b) ctc = true ->
  Qgtb (dp_rnnlm_weight dp) 0 = false ->
  exists da,
    lookup_attr "bwd" (m_decs b) = Some da /\
    da_ctc_weight da = 0%Q /\
    fst (decode (model b) xs dp nbest exclude_eos idx2token refs ctc "ys") =
    [call_decode_ctc "bwd" (dp_beam_width dp) None].
Proof.
  intros Hb Hw Hc Hlm.
  destruct (init_lookup a b Hb) as (_ & F1 & F2 & _ & _ & _ & Lb & _).
  assert (E : Qgtb (a_bwd_weight a) 0 = true) by (apply Qgtb_true; lra).
  rewrite E in Lb. eexists. split; [exact Lb|]. split; [reflexivity|].
  rewrite decode_ctc_path by assumption.
  unfold choose_rnnlm. rewrite Hlm. rewrite decode_dir_main, F1, F2.
  apply Qgeb_false in Hw. rewrite Hw. cbn [dec model_of]. rewrite Lb.
  reflexivity.
Qed.
End InitFacts.

(** ** [get_ctc_posteriors] *)

Section PosteriorsFacts.
Variables (Frame Enc LM Conv Refs Probs Idx : Type).
Context {S Row : Type} `{Score S} `{Attention Row}.

Variable ctc_posteriors :
  @Decoder Enc LM Conv Refs S Row -> Enc -> Q -> option Z -> Probs * Idx.
Variable x_lens_of : Enc -> list Z.

Local Abbreviation posteriors := (get_ctc_posteriors ctc_posteriors x_lens_of).

Lemma get_ctc_posteriors_unfold (self : @Seq2seq Frame Enc LM Conv Refs S Row)
  xs task temperature topk (w : Q) :
  (if String.eqb task "ys" then py_assert (Qgtb (ctc_weight self) 0)
   else if String.eqb task "ys_sub1"
        then py_assert (Qgtb (ctc_weight_sub1 self) 0)
   else if String.eqb task "ys_sub2"
        then py_assert (Qgtb (ctc_weight_sub2 self) 0)
   else Ok tt) = py_assert (Qgtb w 0) ->
  posteriors self xs task temperature topk =
  if Qgtb w 0 then
    match dec self (decode_dir self task) with
    | None => Raise AttributeError
    | Some d =>
        let p := ctc_posteriors d (enc self (sorted_batch xs) task)
                                temperature topk in
        Ok (fst p, snd p, x_lens_of (enc self (sorted_batch xs) task))
    end
  else Raise AssertionError.
Proof.
  intros Hw. unfold get_ctc_posteriors. rewrite encode_eq. cbn [bind].
  rewrite Hw. unfold py_assert, get_dec.
  destruct (Qgtb w 0); [|reflexivity]. cbn [bind].
  destruct (dec self _) as [d|]; [|reflexivity]. cbn [bind].
  now destruct (ctc_posteriors d _ _ _).
Qed.

(** X14. [get_ctc_posteriors] checks the CTC weight of the task it is
    asked for: for each of the three tasks it raises [AssertionError]
    exactly when that task's CTC weight is not positive. What it
    returns are the posteriors of the selected decoder on the
    length-sorted batch, with the encoder's lengths; the permutation is
    not part of the result. *)
Theorem get_ctc_posteriors_checks_the_task_weight
  (self : @Seq2seq Frame Enc LM Conv Refs S Row) xs task temperature topk :
  (task = "ys"%string ->
   (posteriors self xs task temperature topk = Raise AssertionError <->
    (ctc_weight self <= 0)%Q)) /\
  (task = "ys_sub1"%string ->
   (posteriors self xs task temperature topk = Raise AssertionError <->
    (ctc_weight_sub1 self <= 0)%Q)) /\
  (task = "ys_sub2"%string ->
   (posteriors self xs task temperature topk = Raise AssertionError <->
    (ctc_weight_sub2 self <= 0)%Q)) /\
  (forall r, posteriors self xs task temperature topk = Ok r ->
     exists d,
       dec self (decode_dir self task) = Some d /\
       r = (fst (ctc_posteriors d (enc self (sorted_batch xs) task)
                                temperature topk),
            snd (ctc_posteriors d (enc self (sorted_batch xs) task)
                                temperature topk),
            x_lens_of (enc self (sorted_batch xs) task))).
Proof.
  assert (Hiff : forall w,
             posteriors self xs task temperature topk =
             (if Qgtb w 0 then
                match dec self (decode_dir self task) with
                | None => Raise AttributeError
                | Some d =>
                    let p := ctc_posteriors d (enc self (sorted_batch xs) task)
                                            temperature topk in
                    Ok (fst p, snd p, x_lens_of (enc self (sorted_batch xs) task))
                end
              else Raise AssertionError) ->
             (posteriors self xs task temperature topk = Raise AssertionError <->
              (w <= 0)%Q)).
  { intros w ->. destruct (Qgtb w 0) eqn:E.
    - apply Qgtb_true in E. split; [|lra].
      destruct (dec self _); discriminate.
    - apply Qgtb_false in E. split; auto. }
  split; [|split; [|split]].
  - intros ->. apply Hiff. now apply get_ctc_posteriors_unfold.
  - intros ->. apply Hiff. now apply get_ctc_posteriors_unfold.
  - intros ->. apply Hiff. now apply get_ctc_posteriors_unfold.
  - intros r Hr. unfold get_ctc_posteriors in Hr. rewrite encode_eq in Hr.
    cbn [bind] in Hr.
    destruct (if String.eqb task "ys" then _ else _) as [[]|]; cbn [bind] in Hr;
      [|discriminate].
    unfold get_dec in Hr. destruct (dec self _) as [d|]; cbn [bind] in Hr;
      [|discriminate].
    exists d. split; [reflexivity|].
    destruct (ctc_posteriors d _ _ _). now injection Hr as <-.
Qed.

(** X15. On a constructed model with a positive CTC weight the
    posteriors of the main task are always delivered: the assertion holds
    and the decoder of the dominant direction exists. *)
Theorem get_ctc_posteriors_of_built_model (a : init_args) (b : built)
  (realise : decoder_args -> @Decoder Enc LM Conv Refs S Row)
  (encoder : list (list Frame) -> string -> Enc) (lms : string -> option LM)
  xs temperature topk :
  init a = Ok b ->
  (0 < a_ctc_weight a)%Q ->
  exists d,
    dec (model_of b realise encoder lms)
        (decode_dir (model_of b realise encoder lms) "ys") = Some d /\
    posteriors (model_of b realise encoder lms) xs "ys" temperature topk =
    Ok (fst (ctc_posteriors d (encoder (sorted_batch xs) "ys") temperature topk),
        snd (ctc_posteriors d (encoder (sorted_batch xs) "ys") temperature topk),
        x_lens_of (encoder (sorted_batch xs) "ys")).
Proof.
  intros Hb Hw.
  pose proof (init_main_decoder_exists Frame Enc LM Conv Refs realise encoder lms
                a b Hb) as Hd.
  destruct (init_lookup a b Hb) as (_ & _ & _ & F3 & _).
  destruct (dec _ _) as [d|] eqn:Ed; [|congruence].
  exists d. split; [reflexivity|].
  rewrite (get_ctc_posteriors_unfold _ _ _ _ _ (a_ctc_weight a)).
  - apply Qgtb_true in Hw. rewrite Hw, Ed. reflexivity.
  - cbn. now rewrite F3.
Qed.
End PosteriorsFacts.

(** ** [_forward] *)

Lemma lbind_Forall {Ev A B : Type} (P : Ev -> Prop) (m : logged Ev A)
  (k : A -> logged Ev B) :
  Forall P (fst m) -> (forall a, Forall P (fst (k a))) ->
  Forall P (fst (lbind m k)).
Proof.
  intros Hm Hk. destruct m as [t [a|e]]; simpl in *; [|assumption].
  specialize (Hk a). destruct (k a) as [t' r]. simpl in *.
  apply Forall_app. now split.
Qed.

Lemma lbind_ok {Ev A B : Type} (m : logged Ev A) (k : A -> logged Ev B) (a : A) :
  snd m = Ok a -> snd (lbind m k) = snd (k a).
Proof.
  destruct m as [t r]. simpl. intros ->. simpl. now destruct (k a).
Qed.

Lemma lbind_ok_inv {Ev A B : Type} (m : logged Ev A) (k : A -> logged Ev B)
  (b : B) :
  snd (lbind m k) = Ok b -> exists a, snd m = Ok a /\ snd (k a) = Ok b.
Proof.
  destruct m as [t [a|e]]; simpl; [|discriminate].
  intros Hk. exists a. split; [reflexivity|]. now destruct (k a).
Qed.

Lemma lbind_llift_ok {Ev A B : Type} (a : A) (k : A -> logged Ev B) :
  lbind (llift (Ok a)) k = k a.
Proof. unfold llift, lbind. now destruct (k a). Qed.

Lemma lbind_llift_raise {Ev A B : Type} (e : exn) (k : A -> logged Ev B) :
  lbind (llift (Raise e)) k = ([], Raise e).
Proof. reflexivity. Qed.

Lemma map_m_fails {X Y : Type} (f : X -> result Y) (xs : list X) (x : X) :
  In x xs -> (exists e, f x = Raise e) -> exists e, map_m f xs = Raise e.
Proof.
  intros Hin [e He]. induction xs as [|y xs IH]; [contradiction|].
  simpl. destruct Hin as [->|Hin].
  - rewrite He. simpl. eauto.
  - destruct (f y); cbn [bind]; [|eauto].
    destruct (IH Hin) as [e' ->]. simpl. eauto.
Qed.

Section TrainingFacts.
Variables (Elem Enc Loss Val : Type).
Variable loss_add : Loss -> Loss -> Loss.
Variable loss_zero : Loss.

Local Abbreviation trainee' := (trainee Elem Enc Loss Val).
Local Abbreviation forward := (@_forward Elem Enc Loss Val loss_add loss_zero).

Lemma encode_for_eq (self : trainee') (xs : list (list Elem)) (task : string) :
  encode_for self xs task = Ok (t_enc self (sorted_batch xs) task, sort_perm xs).
Proof. unfold encode_for, sorted_batch. now rewrite take_sort_perm. Qed.

(** Reordering by [perm_idx] needs a target for every input, and takes
    no more. *)
Lemma take_perm_targets (xs ys : list (list Elem)) :
  (len ys < len xs -> take_perm ys (sort_perm xs) = Raise IndexError) /\
  (len xs <= len ys ->
   take_perm ys (sort_perm xs) =
   Ok (map (fun i => nth (Z.to_nat i) ys []) (sort_perm xs))).
Proof.
  split.
  - intros Hlt. unfold take_perm.
    destruct (map_m_fails (py_index ys) (sort_perm xs) (len ys)) as [e He].
    + apply (Permutation_in _ (Permutation_sym (sort_perm_perm _ xs))).
      apply py_range_In. pose proof (len_nonneg ys). lia.
    + destruct (py_index ys (len ys)) as [y|e] eqn:E; [|eauto].
      exfalso. unfold py_index in E. pose proof (len_nonneg ys).
      destruct (Z.ltb_spec (len ys) 0); [lia|].
      destruct (Z.ltb_spec (len ys) (len ys)); [lia|].
      rewrite andb_false_r in E. discriminate.
    + rewrite He. f_equal. eapply map_m_raise; [|exact He].
      intros x e'. apply py_index_raise.
  - intros Hle. apply map_m_map. intros i Hi. apply py_index_nth.
    apply sort_perm_range in Hi. lia.
Qed.

Lemma forward_step_calls (P : train_call Elem Enc -> Prop) (self : trainee')
  name enc_x targets k1 k2 k3 k4 st :
  P {| tc_name := name; tc_enc := enc_x; tc_targets := targets |} ->
  Forall P (fst (forward_step loss_add self name enc_x targets k1 k2 k3 k4 st)).
Proof.
  intros Hp. unfold forward_step.
  destruct (t_dec self name) as [d|]; [|constructor].
  destruct (d enc_x targets), st. simpl. now repeat constructor.
Qed.

(** X16. For speech input, [_forward] reorders the targets by the
    permutation that sorts the inputs, so that input and target stay
    paired: position [k] of both holds what position [perm_idx[k]] held.
    The main decoders, forward and backward, receive exactly these
    targets with the encoding of the sorted inputs. With fewer targets
    than inputs the call raises [IndexError] before any decoder runs;
    surplus targets are dropped without notice. *)
Theorem forward_keeps_inputs_and_targets_paired (self : trainee')
  (xs ys ys_sub1 ys_sub2 : list (list Elem)) (task : string) :
  t_input_type self = "speech"%string ->
  (len ys < len xs ->
   forward self xs ys ys_sub1 ys_sub2 task = ([], Raise IndexError)) /\
  (len xs <= len ys ->
   exists ys',
     take_perm ys (sort_perm xs) = Ok ys' /\
     len ys' = len xs /\
     (forall k i,
         nth_error (sort_perm xs) k = Some i ->
         nth_error (sorted_batch xs) k = nth_error xs (Z.to_nat i) /\
         nth_error ys' k = nth_error ys (Z.to_nat i)) /\
     Forall (fun c =>
               tc_name c = "fwd"%string \/ tc_name c = "bwd"%string ->
               tc_targets c = ys' /\
               tc_enc c = t_enc self (sorted_batch xs)
                                (if t_mtl_per_batch self then task
                                 else "all"%string) "ys")
            (fst (forward self xs ys ys_sub1 ys_sub2 task))).
Proof.
  intros Hspeech.
  assert (Henc : (if String.eqb (t_input_type self) "speech" then
                    if t_mtl_per_batch self then encode_for self xs task
                    else encode_for self xs "all"
                  else encode_for self ys_sub1 "all") =
                 Ok (t_enc self (sorted_batch xs)
                           (if t_mtl_per_batch self then task else "all"%string),
                     sort_perm xs)).
  { rewrite Hspeech. simpl String.eqb.
    destruct (t_mtl_per_batch self); apply encode_for_eq. }
  destruct (take_perm_targets xs ys) as [Hshort Hlong].
  split.
  - intros Hlt. unfold _forward. rewrite Henc, lbind_llift_ok.
    rewrite (Hshort Hlt). reflexivity.
  - intros Hle. specialize (Hlong Hle).
    exists (map (fun i => nth (Z.to_nat i) ys []) (sort_perm xs)).
    split; [assumption|]. split; [|split].
    + unfold len. rewrite length_map.
      rewrite (Permutation_length (sort_perm_perm _ xs)).
      fold (len (py_range (len xs))). apply py_range_length, len_nonneg.
    + intros k i Hk. unfold sorted_batch. rewrite !nth_error_map, Hk. simpl.
      assert (Hr : 0 <= i < len xs)
        by (eapply sort_perm_range, nth_error_In; eauto).
      split; symmetry; apply nth_error_nth'; unfold len in *; lia.
    + unfold _forward. rewrite Henc, lbind_llift_ok, Hlong, lbind_llift_ok.
      set (ys' := map (fun i => nth (Z.to_nat i) ys []) (sort_perm xs)).
      set (enc_out := t_enc self (sorted_batch xs) _).
      apply lbind_Forall.
      { unfold fwd_loss. destruct (_ && _); [|constructor].
        apply forward_step_calls. simpl. intros _. split; reflexivity. }
      intros st1. apply lbind_Forall.
      { unfold bwd_loss. destruct (Qgtb _ _); [|constructor].
        apply forward_step_calls. simpl. intros _. split; reflexivity. }
      intros st2. apply lbind_Forall.
      { unfold sub1_loss. destruct (_ || _); [|constructor].
        destruct (t_mtl_per_batch self).
        - apply forward_step_calls. simpl. intros [E|E]; discriminate.
        - apply lbind_Forall; [constructor|]. intros y1.
          apply forward_step_calls. simpl. intros [E|E]; discriminate. }
      intros st3. apply lbind_Forall; [|constructor].
      unfold sub2_loss. destruct (_ || _); [|constructor].
      destruct (t_mtl_per_batch self).
      * apply forward_step_calls. simpl. intros [E|E]; discriminate.
      * apply lbind_Forall; [constructor|]. intros y2.
        apply forward_step_calls. simpl. intros [E|E]; discriminate.
Qed.
End TrainingFacts.

Lemma init_fields (a : init_args) (b : built) :
  init a = Ok b ->
  m_main_weight b = (1 - a_sub1_weight a - a_sub2_weight a)%Q /\
  m_sub1_weight b = a_sub1_weight a /\
  m_sub2_weight b = a_sub2_weight a /\
  m_mtl_per_batch b = a_mtl_per_batch a /\
  m_input_type b = a_input_type a /\
  m_enc_type b = a_enc_type a /\
  m_bridge_layer b = a_bridge_layer a /\
  m_bridges b = init_bridges a.
Proof.
  unfold init. destruct (for_each _ _ _) as [[c attrs]|e]; cbn [bind];
    [|discriminate].
  intros [= <-]. repeat split; reflexivity.
Qed.

Lemma lbind_raises {Ev A B : Type} (m : logged Ev A) (k : A -> logged Ev B) :
  (forall a, exists e, snd (k a) = Raise e) ->
  exists e, snd (lbind m k) = Raise e.
Proof.
  intros Hk. destruct m as [t [a|e]]; simpl; [|eauto].
  destruct (Hk a) as [e He]. destruct (k a). simpl in *. eauto.
Qed.

Section BuiltTraining.
Variables (Elem Enc Loss Val : Type).
Variable loss_add : Loss -> Loss -> Loss.
Variable loss_zero : Loss.
Variable train : decoder_args -> Enc -> list (list Elem) -> Loss * dec_obs Val.
Variable encoder : list (list Elem) -> string -> string -> Enc.

Local Abbreviation trainee' := (trainee Elem Enc Loss Val).
Local Abbreviation forward := (@_forward Elem Enc Loss Val loss_add loss_zero).
Local Abbreviation learner b := (trainee_of b train encoder).

Lemma forward_unfold (self : trainee') xs ys ys_sub1 ys_sub2 task :
  let speech := String.eqb (t_input_type self) "speech" in
  let inp := if speech then xs else ys_sub1 in
  let enc_out :=
    t_enc self (sorted_batch inp)
          (if speech && t_mtl_per_batch self then task else "all"%string) in
  forward self xs ys ys_sub1 ys_sub2 task =
  (ys <~~ llift (take_perm ys (sort_perm inp)) ;;
   st <~~ fwd_loss loss_add self enc_out ys task (loss_zero, []) ;;
   st <~~ bwd_loss loss_add self enc_out ys st ;;
   st <~~ sub1_loss loss_add self enc_out (sort_perm inp) ys ys_sub1 task st ;;
   st <~~ sub2_loss loss_add self enc_out (sort_perm inp) ys ys_sub2 task st ;;
   lret st).
Proof.
  cbv zeta. unfold _forward.
  destruct (String.eqb (t_input_type self) "speech");
    [destruct (t_mtl_per_batch self)|];
    rewrite encode_for_eq, lbind_llift_ok; reflexivity.
Qed.

Lemma forward_step_some (self : trainee') name enc_x targets k1 k2 k3 k4 st d :
  t_dec self name = Some d ->
  exists st', snd (forward_step loss_add self name enc_x targets k1 k2 k3 k4 st)
              = Ok st'.
Proof.
  intros Hd. unfold forward_step. rewrite Hd.
  destruct (d enc_x targets), st. simpl. eauto.
Qed.

Lemma forward_step_none (self : trainee') name enc_x targets k1 k2 k3 k4 st :
  t_dec self name = None ->
  forward_step loss_add self name enc_x targets k1 k2 k3 k4 st
  = ([], Raise AttributeError).
Proof. intros Hd. unfold forward_step. now rewrite Hd. Qed.

(** On a constructed model without per-batch multi-task learning, the
    blocks for the main decoders and the first sub-task find their
    decoder. *)
Lemma built_blocks_return (a : init_args) (b : built) :
  init a = Ok b -> a_mtl_per_batch a = false ->
  (forall enc_out ys task st,
      exists st', snd (fwd_loss loss_add (learner b) enc_out ys task st) = Ok st') /\
  (forall enc_out ys st,
      exists st', snd (bwd_loss loss_add (learner b) enc_out ys st) = Ok st') /\
  (forall enc_out perm ys ys_sub1 ys1 task st,
      take_perm ys_sub1 perm = Ok ys1 \/ Qgtb (a_sub1_weight a) 0 = false ->
      exists st',
        snd (sub1_loss loss_add (learner b) enc_out perm ys ys_sub1 task st)
        = Ok st').
Proof.
  intros Hb Hm.
  pose proof (init_lookup a b Hb) as HL. cbv zeta in HL.
  destruct HL as (_ & F1 & F2 & _ & _ & Lf & Lb & L1 & _).
  destruct (init_fields a b Hb) as (_ & G1 & _ & Gm & _).
  split; [|split].
  - intros enc_out ys task st. unfold fwd_loss. cbn [t_fwd_weight trainee_of].
    rewrite F1. destruct (Qgtb (1 - a_bwd_weight a) 0) eqn:E; cbn [andb];
      [|simpl; eauto].
    destruct (String.eqb task "ys"); [|simpl; eauto].
    eapply forward_step_some. cbn [t_dec trainee_of]. rewrite Lf.
    reflexivity.
  - intros enc_out ys st. unfold bwd_loss. cbn [t_bwd_weight trainee_of].
    rewrite F2. destruct (Qgtb (a_bwd_weight a) 0) eqn:E; [|simpl; eauto].
    eapply forward_step_some. cbn [t_dec trainee_of]. rewrite Lb.
    reflexivity.
  - intros enc_out perm ys ys_sub1 ys1 task st Hys. unfold sub1_loss.
    cbn [t_sub1_weight t_mtl_per_batch trainee_of]. rewrite G1, Gm, Hm.
    cbn [negb andb]. rewrite andb_true_r, orb_false_r.
    destruct (Qgtb (a_sub1_weight a) 0) eqn:E; [|simpl; eauto].
    destruct Hys as [Hys|]; [|discriminate].
    rewrite Hys, lbind_llift_ok.
    eapply forward_step_some. cbn [t_dec trainee_of]. rewrite L1.
    reflexivity.
Qed.

Lemma take_perm_enough (inp ys : list (list Elem)) :
  len inp <= len ys -> exists ys', take_perm ys (sort_perm inp) = Ok ys'.
Proof.
  intros Hle. eexists. now apply take_perm_targets.
Qed.

(** X17. A training step on a constructed model, without per-batch
    multi-task learning and with a second sub-task weight that is zero
    or above one, returns: every decoder that [_forward] asks for was
    built by the constructor. The targets have to be at least as many as
    the inputs, those of a sub-task only if its weight is positive, and
    [task] one of the three task names. *)
Theorem forward_returns_on_built_model (a : init_args) (b : built)
  (xs ys ys_sub1 ys_sub2 : list (list Elem)) (task : string) :
  init a = Ok b ->
  task = "ys"%string \/ task = "ys_sub1"%string \/ task = "ys_sub2"%string ->
  a_mtl_per_batch a = false ->
  Qgtb (a_sub2_weight a) 0 = false \/ Qgtb (a_sub2_weight a) 1 = true ->
  let inp := if String.eqb (a_input_type a) "speech" then xs else ys_sub1 in
  len inp <= len ys ->
  (Qgtb (a_sub1_weight a) 0 = true -> len inp <= len ys_sub1) ->
  (Qgtb (a_sub2_weight a) 0 = true -> len inp <= len ys_sub2) ->
  exists st,
    snd (forward (learner b) xs ys ys_sub1 ys_sub2 task) = Ok st.
Proof.
  intros Hb _ Hm Hw inp Hys H1 H2.
  destruct (built_blocks_return a b Hb Hm) as (Bf & Bb & B1).
  pose proof (init_lookup a b Hb) as HL. cbv zeta in HL.
  destruct HL as (_ & _ & _ & _ & _ & _ & _ & _ & L2 & _).
  destruct (init_fields a b Hb) as (_ & _ & G2 & Gm & Gi & _).
  rewrite forward_unfold. cbn [t_input_type t_mtl_per_batch trainee_of].
  rewrite Gi, Gm, Hm, andb_false_r. fold inp.
  destruct (take_perm_enough inp ys Hys) as [ys' ->].
  rewrite lbind_llift_ok.
  set (enc_out := encoder (sorted_batch inp) "all").
  destruct (Bf enc_out ys' task (loss_zero, [])) as [st1 E1].
  rewrite (lbind_ok _ _ _ E1).
  destruct (Bb enc_out ys' st1) as [st2 E2].
  rewrite (lbind_ok _ _ _ E2).
  assert (Hs1 : exists ys1, take_perm ys_sub1 (sort_perm inp) = Ok ys1 \/
                            Qgtb (a_sub1_weight a) 0 = false).
  { destruct (Qgtb (a_sub1_weight a) 0) eqn:E.
    - destruct (take_perm_enough inp ys_sub1 (H1 eq_refl)) as [ys1 Hy].
      exists ys1. now left.
    - exists []. now right. }
  destruct Hs1 as [ys1 Hs1].
  destruct (B1 enc_out (sort_perm inp) ys' ys_sub1 ys1 task st2 Hs1) as [st3 E3].
  rewrite (lbind_ok _ _ _ E3).
  assert (E4 : exists st4,
             snd (sub2_loss loss_add (learner b) enc_out (sort_perm inp)
                            ys' ys_sub2 task st3) = Ok st4).
  { unfold sub2_loss. cbn [t_sub2_weight t_mtl_per_batch trainee_of].
    rewrite G2, Gm, Hm. cbn [negb andb]. rewrite andb_true_r, orb_false_r.
    destruct (Qgtb (a_sub2_weight a) 0) eqn:E; [|simpl; eauto].
    destruct Hw as [|Hw]; [discriminate|].
    destruct (take_perm_enough inp ys_sub2 (H2 eq_refl)) as [ys2 ->].
    rewrite lbind_llift_ok.
    eapply forward_step_some. cbn [t_dec trainee_of]. rewrite L2, Hw.
    reflexivity. }
  destruct E4 as [st4 E4]. rewrite (lbind_ok _ _ _ E4). simpl. eauto.
Qed.

(** X18. The second sub-task cannot be trained with a weight in
    (0, 1]: the constructor builds [dec_fwd_sub2] only for a weight above
    one (or for per-batch multi-task learning with a second sub-task
    dictionary), while [_forward] calls it for any positive weight. Every
    training step then raises, and with enough targets and one of the
    three task names the exception is the [AttributeError] of the
    missing decoder. *)
Theorem second_sub_task_cannot_be_trained (a : init_args) (b : built)
  (xs ys ys_sub1 ys_sub2 : list (list Elem)) (task : string) :
  init a = Ok b ->
  a_mtl_per_batch a = false ->
  Qgtb (a_sub2_weight a) 0 = true ->
  Qgtb (a_sub2_weight a) 1 = false ->
  let inp := if String.eqb (a_input_type a) "speech" then xs else ys_sub1 in
  (exists e, snd (forward (learner b) xs ys ys_sub1 ys_sub2 task) = Raise e) /\
  (task = "ys"%string \/ task = "ys_sub1"%string \/ task = "ys_sub2"%string ->
   len inp <= len ys ->
   (Qgtb (a_sub1_weight a) 0 = true -> len inp <= len ys_sub1) ->
   len inp <= len ys_sub2 ->
   snd (forward (learner b) xs ys ys_sub1 ys_sub2 task) = Raise AttributeError).
Proof.
  intros Hb Hm Hw0 Hw1 inp.
  destruct (built_blocks_return a b Hb Hm) as (Bf & Bb & B1).
  pose proof (init_lookup a b Hb) as HL. cbv zeta in HL.
  destruct HL as (_ & _ & _ & _ & _ & _ & _ & _ & L2 & _).
  destruct (init_fields a b Hb) as (_ & _ & G2 & Gm & Gi & _).
  rewrite Hw1, Hm in L2. cbn [andb orb] in L2.
  assert (S2 : forall enc_out perm ys' st,
             sub2_loss loss_add (learner b) enc_out perm ys' ys_sub2 task st =
             (ys2 <~~ llift (take_perm ys_sub2 perm) ;; ([], Raise AttributeError))).
  { intros. unfold sub2_loss. cbn [t_sub2_weight t_mtl_per_batch trainee_of].
    rewrite G2, Gm, Hm, Hw0. cbn [negb andb orb].
    destruct (take_perm ys_sub2 perm) as [ys2|e]; [|reflexivity].
    rewrite !lbind_llift_ok. apply forward_step_none.
    cbn [t_dec trainee_of]. now rewrite L2. }
  rewrite forward_unfold. cbn [t_input_type t_mtl_per_batch trainee_of].
  rewrite Gi, Gm, Hm, andb_false_r. fold inp.
  set (enc_out := encoder (sorted_batch inp) "all").
  split.
  - apply lbind_raises. intros ys'. apply lbind_raises. intros st1.
    apply lbind_raises. intros st2. apply lbind_raises. intros st3.
    assert (R : exists e, snd (sub2_loss loss_add (learner b) enc_out
                                 (sort_perm inp) ys' ys_sub2 task st3) = Raise e).
    { rewrite S2. destruct (take_perm ys_sub2 (sort_perm inp)); simpl; eauto. }
    destruct R as [e R].
    destruct (sub2_loss _ _ _ _ _ _ _ _) as [t [s|e']]; simpl in *;
      [discriminate|eauto].
  - intros _ Hys H1 H2.
    destruct (take_perm_enough inp ys Hys) as [ys' ->].
    rewrite lbind_llift_ok.
    destruct (Bf enc_out ys' task (loss_zero, [])) as [st1 E1].
    rewrite (lbind_ok _ _ _ E1).
    destruct (Bb enc_out ys' st1) as [st2 E2].
    rewrite (lbind_ok _ _ _ E2).
    assert (Hs1 : exists ys1, take_perm ys_sub1 (sort_perm inp) = Ok ys1 \/
                              Qgtb (a_sub1_weight a) 0 = false).
    { destruct (Qgtb (a_sub1_weight a) 0) eqn:E.
      - destruct (take_perm_enough inp ys_sub1 (H1 eq_refl)) as [ys1 Hy].
        exists ys1. now left.
      - exists []. now right. }
    destruct Hs1 as [ys1 Hs1].
    destruct (B1 enc_out (sort_perm inp) ys' ys_sub1 ys1 task st2 Hs1)
      as [st3 E3].
    rewrite (lbind_ok _ _ _ E3).
    rewrite S2. destruct (take_perm_enough inp ys_sub2 H2) as [ys2 ->].
    reflexivity.
Qed.
End BuiltTraining.

Lemma lbind_inv {Ev A B : Type} (m : logged Ev A) (k : A -> logged Ev B)
  (tr : list Ev) (b : B) :
  lbind m k = (tr, Ok b) ->
  exists t1 a t2, m = (t1, Ok a) /\ k a = (t2, Ok b) /\ tr = t1 ++ t2.
Proof.
  destruct m as [t1 [a|e]]; simpl; [|discriminate].
  destruct (k a) as [t2 r] eqn:E. intros [= <- ->].
  exists t1, a, t2. auto.
Qed.

Lemma lbind_llift_inv {Ev A B : Type} (r : result A) (k : A -> logged Ev B)
  (tr : list Ev) (b : B) :
  lbind (llift r) k = (tr, Ok b) -> exists a, r = Ok a /\ k a = (tr, Ok b).
Proof.
  destruct r as [a|e]; [|discriminate]. rewrite lbind_llift_ok. eauto.
Qed.

Section TrainingSum.
Variables (Elem Enc Loss Val : Type).
Variable loss_add : Loss -> Loss -> Loss.
Variable loss_zero : Loss.

Local Abbreviation trainee' := (trainee Elem Enc Loss Val).
Local Abbreviation forward := (@_forward Elem Enc Loss Val loss_add loss_zero).

Lemma forward_step_inv (self : trainee') name enc_x targets k1 k2 k3 k4 st tr st' :
  forward_step loss_add self name enc_x targets k1 k2 k3 k4 st = (tr, Ok st') ->
  exists d,
    t_dec self name = Some d /\
    tr = [{| tc_name := name; tc_enc := enc_x; tc_targets := targets |}] /\
    fst st' = loss_add (fst st) (fst (d enc_x targets)) /\
    snd st' =
    dict_set (dict_set (dict_set (dict_set (snd st)
      k1 (loss_att (snd (d enc_x targets))))
      k2 (loss_ctc (snd (d enc_x targets))))
      k3 (loss_lm (snd (d enc_x targets))))
      k4 (acc (snd (d enc_x targets))).
Proof.
  unfold forward_step. destruct (t_dec self name) as [d|]; [|discriminate].
  destruct (d enc_x targets) as [l o] eqn:E, st as [l0 o0]. intros [= <- <-].
  exists d. rewrite E. repeat split.
Qed.

(** What one block of [_forward] does when it returns: nothing, or one
    call of its decoder. *)
Lemma block_inv (self : trainee') (c : bool) name enc_x targets k1 k2 k3 k4
  st tr st' :
  (if c then forward_step loss_add self name enc_x targets k1 k2 k3 k4 st
   else lret st) = (tr, Ok st') ->
  (tr = [] /\ st' = st) \/
  exists d,
    t_dec self name = Some d /\
    tr = [{| tc_name := name; tc_enc := enc_x; tc_targets := targets |}] /\
    fst st' = loss_add (fst st) (fst (d enc_x targets)) /\
    snd st' =
    dict_set (dict_set (dict_set (dict_set (snd st)
      k1 (loss_att (snd (d enc_x targets))))
      k2 (loss_ctc (snd (d enc_x targets))))
      k3 (loss_lm (snd (d enc_x targets))))
      k4 (acc (snd (d enc_x targets))).
Proof.
  destruct c.
  - intros Hs. right. now apply forward_step_inv.
  - intros [= <- <-]. now left.
Qed.

Lemma sub_block_inv (self : trainee') (c : bool) name enc_x ys ys_sub perm
  k1 k2 k3 k4 st tr st' :
  (if c then
     if t_mtl_per_batch self
     then forward_step loss_add self name enc_x ys k1 k2 k3 k4 st
     else y <~~ llift (take_perm ys_sub perm) ;;
          forward_step loss_add self name enc_x y k1 k2 k3 k4 st
   else lret st) = (tr, Ok st') ->
  (tr = [] /\ st' = st) \/
  exists d targets,
    t_dec self name = Some d /\
    tr = [{| tc_name := name; tc_enc := enc_x; tc_targets := targets |}] /\
    fst st' = loss_add (fst st) (fst (d enc_x targets)) /\
    snd st' =
    dict_set (dict_set (dict_set (dict_set (snd st)
      k1 (loss_att (snd (d enc_x targets))))
      k2 (loss_ctc (snd (d enc_x targets))))
      k3 (loss_lm (snd (d enc_x targets))))
      k4 (acc (snd (d enc_x targets))).
Proof.
  destruct c; [|intros [= <- <-]; now left].
  intros Hs. right. destruct (t_mtl_per_batch self).
  - apply forward_step_inv in Hs as (d & Hs). eauto.
  - apply lbind_llift_inv in Hs as (y & _ & Hs).
    apply forward_step_inv in Hs as (d & Hs). eauto.
Qed.

(** X19. When [_forward] returns, the loss is the initial zero plus the
    loss of every decoder that was called, in call order, each counted
    once; no decoder is called twice; and the observation holds exactly
    four figures per decoder called, under keys that are all different,
    so that no block overwrites what another reported. *)
Theorem forward_adds_up_the_losses (self : trainee')
  (xs ys ys_sub1 ys_sub2 : list (list Elem)) (task : string)
  (calls : list (train_call Elem Enc)) (loss : Loss)
  (observation : list (string * Val)) :
  forward self xs ys ys_sub1 ys_sub2 task = (calls, Ok (loss, observation)) ->
  loss =
  fold_left (fun l c =>
               match t_dec self (tc_name c) with
               | Some d => loss_add l (fst (d (tc_enc c) (tc_targets c)))
               | None => l
               end) calls loss_zero /\
  Forall (fun c => t_dec self (tc_name c) <> None) calls /\
  NoDup (map (@tc_name Elem Enc) calls) /\
  len observation = 4 * len calls /\
  NoDup (map fst observation).
Proof.
  rewrite forward_unfold. cbv zeta. intros Hf.
  apply lbind_llift_inv in Hf as (ys' & _ & Hf).
  apply lbind_inv in Hf as (t1 & st1 & r1 & B1 & Hf & ->).
  apply lbind_inv in Hf as (t2 & st2 & r2 & B2 & Hf & ->).
  apply lbind_inv in Hf as (t3 & st3 & r3 & B3 & Hf & ->).
  apply lbind_inv in Hf as (t4 & st4 & r4 & B4 & Hf & ->).
  injection Hf as <- Hst. subst st4. rewrite app_nil_r.
  apply block_inv in B1. apply block_inv in B2.
  apply sub_block_inv in B3. apply sub_block_inv in B4.
  destruct st1 as [l1 o1], st2 as [l2 o2], st3 as [l3 o3].
  cbn [fst snd] in *.
  destruct B1 as [[-> [= -> ->]]|(d1 & D1 & -> & -> & ->)];
    destruct B2 as [[-> [= -> ->]]|(d2 & D2 & -> & -> & ->)];
    destruct B3 as [[-> [= -> ->]]|(d3 & g3 & D3 & -> & -> & ->)];
    destruct B4 as [[-> [= -> ->]]|(d4 & g4 & D4 & -> & -> & ->)];
    cbn [app fold_left map tc_name tc_enc tc_targets dict_set
         String.eqb Ascii.eqb Bool.eqb fst];
    rewrite ?D1, ?D2, ?D3, ?D4;
    (split; [reflexivity|]);
    (split; [repeat constructor; cbn [tc_name]; congruence|]);
    (split; [repeat constructor; simpl; intuition discriminate|]);
    (split; [reflexivity|]);
    repeat constructor; simpl; intuition discriminate.
Qed.

(** X20. With per-batch multi-task learning on speech input, [_forward]
    never reads [ys_sub1] and [ys_sub2]: the decoder of the task in turn
    is trained on [ys], reordered like the inputs, as is the backward
    decoder whenever its weight is positive, whatever the task. *)
Theorem per_batch_training_reads_only_ys (self : trainee')
  (xs ys ys_sub1 ys_sub2 ys_sub1' ys_sub2' : list (list Elem)) (task : string) :
  t_input_type self = "speech"%string ->
  t_mtl_per_batch self = true ->
  forward self xs ys ys_sub1 ys_sub2 task =
  forward self xs ys ys_sub1' ys_sub2' task /\
  (forall ys',
      take_perm ys (sort_perm xs) = Ok ys' ->
      Forall (fun c => tc_targets c = ys')
             (fst (forward self xs ys ys_sub1 ys_sub2 task))) /\
  (Qgtb (t_bwd_weight self) 0 = true ->
   forall st, snd (forward self xs ys ys_sub1 ys_sub2 task) = Ok st ->
              In "bwd"%string
                 (map (@tc_name Elem Enc)
                      (fst (forward self xs ys ys_sub1 ys_sub2 task)))).
Proof.
  intros Hs Hm. rewrite !forward_unfold. cbv zeta. rewrite Hs, Hm.
  cbn [String.eqb Ascii.eqb Bool.eqb andb].
  unfold sub1_loss, sub2_loss. rewrite Hm. cbn [negb andb orb].
  rewrite !andb_false_r. cbn [orb].
  split; [reflexivity|]. split.
  - intros ys' ->. rewrite lbind_llift_ok.
    apply lbind_Forall.
    { unfold fwd_loss. destruct (_ && _); [|constructor].
      now apply forward_step_calls. }
    intros st1. apply lbind_Forall.
    { unfold bwd_loss. destruct (Qgtb _ _); [|constructor].
      now apply forward_step_calls. }
    intros st2. apply lbind_Forall.
    { destruct (String.eqb task "ys_sub1"); [|constructor].
      now apply forward_step_calls. }
    intros st3. apply lbind_Forall; [|constructor].
    destruct (String.eqb task "ys_sub2"); [|constructor].
    now apply forward_step_calls.
  - intros Hb st Hok.
    destruct (lbind _ _) as [calls r] eqn:Hf. cbn [fst snd] in *. subst r.
    apply lbind_llift_inv in Hf as (ys' & _ & Hf).
    apply lbind_inv in Hf as (t1 & st1 & r1 & _ & Hf & ->).
    apply lbind_inv in Hf as (t2 & st2 & r2 & B2 & _ & ->).
    unfold bwd_loss in B2. rewrite Hb in B2.
    apply forward_step_inv in B2 as (d & _ & -> & _).
    rewrite !map_app. apply in_or_app. right. simpl. now left.
Qed.
End TrainingSum.

(** ** Bridging *)

Section BridgingFacts.
Variables (X Lens : Type).
Variable layer : string -> X -> X.

Lemma init_bridges_has (a : init_args) (name : string) :
  existsb (String.eqb name) (init_bridges a) =
  (String.eqb (a_enc_type a) "cnn" || a_bridge_layer a)
    && (String.eqb name "bridge"
        || ((Qgtb (a_sub1_weight a) 0 && String.eqb name "bridge_sub1")
            || (Qgtb (a_sub2_weight a) 0 && String.eqb name "bridge_sub2"))).
Proof.
  unfold init_bridges.
  destruct (String.eqb (a_enc_type a) "cnn" || a_bridge_layer a);
    [|reflexivity].
  destruct (Qgtb (a_sub1_weight a) 0), (Qgtb (a_sub2_weight a) 0);
    cbn [app existsb andb orb]; rewrite ?orb_false_r; reflexivity.
Qed.

(** X21. [encode] finds every bridge it applies: on a constructed model
    the bridging at its end never fails, whatever the task, the weights
    and the value of [main_weight], and leaves the lengths of the main
    output alone. With a CNN encoder, [main_weight < 1] as the model has
    it and a first sub-task of positive weight, for task ['all'] or
    ['ys_sub1'] the first sub-task receives the main output as the
    encoder returned it, passed through [bridge_sub1] only, with the main
    output's lengths: what the encoder returned under ['ys_sub1'] is
    discarded, and the main bridge is not applied to it. *)
Theorem encode_finds_its_bridges (a : init_args) (b : built) (main_weight : Q)
  (enc_out : enc_dict X Lens) (task : string) :
  init a = Ok b ->
  exists out,
    bridge_enc_out (with_main_weight b main_weight) (built_bridges b layer)
                   enc_out task = Ok out /\
    snd (out "ys"%string) = snd (enc_out "ys"%string) /\
    (a_enc_type a = "cnn"%string ->
     Qltb main_weight 1 = true ->
     Qgtb (a_sub1_weight a) 0 = true ->
     task_in task ["all"%string; "ys_sub1"%string] = true ->
     out "ys_sub1"%string =
     (layer "bridge_sub1" (fst (enc_out "ys"%string)), snd (enc_out "ys"%string))).
Proof.
  intros Hb.
  destruct (init_fields a b Hb) as (_ & G1 & G2 & _ & _ & Ge & Gl & Gb).
  unfold bridge_enc_out, apply_bridge, built_bridges.
  cbn [with_main_weight m_main_weight m_sub1_weight m_sub2_weight
       m_enc_type m_bridge_layer].
  rewrite G1, G2, Ge, Gl, Gb, !init_bridges_has.
  cbn [String.eqb Ascii.eqb Bool.eqb andb orb]. rewrite ?andb_true_r.
  rewrite ?orb_false_r.
  destruct (String.eqb (a_enc_type a) "cnn" || a_bridge_layer a) eqn:Ebr;
    destruct (String.eqb (a_enc_type a) "cnn") eqn:Ecnn;
    try (apply String.eqb_eq in Ecnn);
    destruct (Qltb main_weight 1);
    destruct (Qgtb main_weight 0);
    destruct (Qgtb (a_sub1_weight a) 0);
    destruct (Qgtb (a_sub2_weight a) 0);
    destruct (task_in task ["all"%string; "ys"%string]);
    destruct (task_in task ["all"%string; "ys_sub1"%string]);
    destruct (task_in task ["all"%string; "ys_sub2"%string]);
    cbn [andb orb bind] in *; try discriminate;
    (eexists; split; [reflexivity|]);
    (split; [reflexivity|]);
    intros H1 H2 H3 H4; try discriminate; try reflexivity;
    try (rewrite H1 in Ecnn; discriminate).
Qed.
End BridgingFacts.

(** ** The properties on concrete inputs *)

Lemma fusion_returns_nonempty_hypotheses_witness :
  len [[5; 6; 8]] = len ex_hyps_fwd /\
  Forall (fun h : list Z => h <> []) [[5; 6; 8]].
Proof.
  apply (fusion_returns_nonempty_hypotheses ex_hyps_fwd ex_aws_fwd ex_scores_fwd
           ex_hyps_bwd ex_aws_bwd ex_scores_bwd [[5; 6; 8]]).
  reflexivity.
Defined.

Lemma fusion_raises_only_IndexError_witness :
  only_index_error
    (fwd_bwd_attention deg_hyps deg_aws deg_scores deg_hyps deg_aws deg_scores) /\
  @fwd_bwd_attention Z (list Z) _ _ [] [] [] [] [] [] = Raise IndexError.
Proof.
  split.
  - apply (fusion_raises_only_IndexError deg_hyps deg_aws deg_scores
             deg_hyps deg_aws deg_scores); reflexivity.
  - apply (@fusion_raises_only_IndexError Z _ [] [] [] [] [] []); reflexivity.
Defined.

Lemma fusion_returns_on_well_formed_batch_witness :
  exists best,
    fwd_bwd_attention ex_hyps_fwd ex_aws_fwd ex_scores_fwd
                      ex_hyps_bwd ex_aws_bwd ex_scores_bwd = Ok best.
Proof.
  apply (fusion_returns_on_well_formed_batch ex_hyps_fwd ex_aws_fwd ex_scores_fwd
           ex_hyps_bwd ex_aws_bwd ex_scores_bwd).
  - reflexivity.
  - reflexivity.
  - unfold len. simpl. lia.
  - intros b Hb.
    assert (b = 0) as -> by (unfold len in Hb; simpl in Hb; lia).
    exists [[5; 6; 7; 2]],
           [[[9; 0; 0; 0]; [0; 9; 0; 0]; [0; 0; 9; 0]; [0; 0; 0; 9]]],
           [[-1; -3; -6; -7]],
           [[2; 5; 6; 8]],
           [[[0; 0; 0; 9]; [0; 0; 9; 0]; [9; 0; 0; 0]; [9; 0; 0; 0]]],
           [[-8; -7; -4; -2]].
    repeat (split; [reflexivity|]).
    exists 0. split; [unfold len; simpl; lia|].
    left. unfold len. simpl. lia.
Defined.

Lemma ragged_nbest_raises_IndexError_witness :
  @fwd_bwd_attention Z (list Z) _ _
    [[[5; 2]]; [[5; 2]]] [[[[9]; [9]]]; [[[9]; [9]]]] [[[-1; -2]]; [[-1; -2]]]
    [[[2; 5]]; []] [[[[9]; [9]]]; []] [[[-2; -1]]; []] = Raise IndexError.
Proof.
  apply (@ragged_nbest_raises_IndexError Z (list Z) _ _
           [[[5; 2]]; [[5; 2]]] [[[[9]; [9]]]; [[[9]; [9]]]]
           [[[-1; -2]]; [[-1; -2]]]
           [[[2; 5]]; []] [[[[9]; [9]]]; []] [[[-2; -1]]; []] 1 [[5; 2]]).
  - unfold len. simpl. lia.
  - reflexivity.
  - right. exists []. split; [reflexivity|]. unfold len. simpl. lia.
Defined.

Lemma init_builds_the_selected_main_decoder_witness :
  exists b,
    init (plain_args (3 # 4) 0 false) = Ok b /\
    dec (model_of b (fun _ => toy_decoder) (fun xs _ => xs) no_lm)
        (decode_dir (model_of b (fun _ => toy_decoder) (fun xs _ => xs) no_lm)
                    "ys") <> None.
Proof.
  eexists. split; [reflexivity|].
  apply (init_builds_the_selected_main_decoder Z (list (list Z)) string unit unit
           (fun _ => toy_decoder) (fun xs _ => xs) no_lm
           (plain_args (3 # 4) 0 false) _ [[7]] (toy_params 1 0 false) 1 false
           None None false).
  reflexivity.
Defined.

Lemma init_never_enables_cold_fusion_witness :
  init (plain_args 0 0 true) = Raise AttributeError /\
  exists b, init (plain_args 1 0 true) = Ok b /\
            m_args_rnnlm_cold_fusion b = false.
Proof.
  split.
  - apply (proj1 (proj2 (init_never_enables_cold_fusion (plain_args 0 0 true))));
      reflexivity.
  - eexists. split; [reflexivity|].
    apply (proj1 (init_never_enables_cold_fusion (plain_args 1 0 true))).
    reflexivity.
Defined.

Lemma sub_task_of_backward_model_raises_AttributeError_witness :
  exists b,
    init (plain_args (3 # 4) 0 false) = Ok b /\
    decode (model_of b (fun _ => toy_decoder) (fun xs _ => xs) no_lm)
           [[7]; [8; 9]] (toy_params 1 0 false) 1 false None None false "ys_sub1"
    = ([], Raise AttributeError).
Proof.
  eexists. split; [reflexivity|].
  apply (sub_task_of_backward_model_raises_AttributeError
           Z (list (list Z)) string unit unit
           (fun _ => toy_decoder) (fun xs _ => xs) no_lm
           (plain_args (3 # 4) 0 false)).
  - reflexivity.
  - reflexivity.
  - left. reflexivity.
  - right. reflexivity.
  - reflexivity.
Defined.


Lemma main_task_search_has_attention_witness :
  exists b,
    init (plain_args 0 0 false) = Ok b /\
    Forall (@attends string b)
      (fst (decode (model_of b (fun _ => toy_decoder) (fun xs _ => xs) no_lm)
                   [[7]; [8; 9]] (toy_params 1 0 false) 1 false None None false
                   "ys")).
Proof.
  eexists. split; [reflexivity|].
  apply (main_task_search_has_attention Z (list (list Z)) string unit unit
           (fun _ => toy_decoder) (fun xs _ => xs) no_lm (plain_args 0 0 false)).
  - reflexivity.
  - simpl. unfold Qle. simpl. lia.
Defined.

Lemma ctc_decoding_of_backward_model_witness :
  exists b da,
    init (plain_args (3 # 4) 1 false) = Ok b /\
    lookup_attr "bwd" (m_decs b) = Some da /\
    da_ctc_weight da = 0%Q /\
    fst (decode (model_of b (fun _ => toy_decoder) (fun xs _ => xs) no_lm)
                [[7]; [8; 9]] (toy_params 1 0 false) 1 false None None false
                "ys")
    = [call_decode_ctc "bwd" 1 None].
Proof.
  eexists.
  destruct (ctc_decoding_of_backward_model Z (list (list Z)) string unit unit
              (fun _ => toy_decoder) (fun xs _ => xs) no_lm
              (plain_args (3 # 4) 1 false) _ [[7]; [8; 9]] (toy_params 1 0 false)
              1 false None None false eq_refl eq_refl eq_refl eq_refl)
    as (da & Hl & Hw & Hc).
  exists da. split; [reflexivity|]. split; [exact Hl|]. split; [exact Hw|exact Hc].
Defined.

Lemma get_ctc_posteriors_checks_the_task_weight_witness :
  get_ctc_posteriors (fun _ (enc_out : list (list Z)) _ _ => (enc_out, tt))
                     (map len) (toy_model 0 (1 # 2) no_lm) [[7]; [8; 9]] "ys" 1 None
  = Raise AssertionError.
Proof.
  apply (proj1 (get_ctc_posteriors_checks_the_task_weight
                  Z (list (list Z)) string unit unit (list (list Z)) unit
                  (fun _ enc_out _ _ => (enc_out, tt)) (map len)
                  (toy_model 0 (1 # 2) no_lm) [[7]; [8; 9]] "ys" 1 None)).
  - reflexivity.
  - simpl. unfold Qle. simpl. lia.
Defined.

Lemma get_ctc_posteriors_of_built_model_witness :
  exists b,
    init (plain_args 0 (1 # 2) false) = Ok b /\
    get_ctc_posteriors (fun _ (enc_out : list (list Z)) _ _ => (enc_out, tt))
                       (map len)
                       (model_of b (fun _ => toy_decoder) (fun xs _ => xs) no_lm)
                       [[7]; [8; 9]] "ys" 1 None
    = Ok ([[8; 9]; [7]], tt, [2; 1]).
Proof.
  eexists. split; [reflexivity|].
  destruct (get_ctc_posteriors_of_built_model
              Z (list (list Z)) string unit unit (list (list Z)) unit
              (fun _ enc_out _ _ => (enc_out, tt)) (map len)
              (plain_args 0 (1 # 2) false) _
              (fun _ => toy_decoder) (fun xs _ => xs) no_lm
              [[7]; [8; 9]] 1 None eq_refl eq_refl)
    as (d & _ & Hp).
  exact Hp.
Defined.

Lemma forward_keeps_inputs_and_targets_paired_witness :
  _forward Z.add 0 (toy_trainee false 0) [[1]; [2; 3]] [[7]] [] [] "ys"
  = ([], Raise IndexError).
Proof.
  apply (proj1 (forward_keeps_inputs_and_targets_paired
                  Z (list (list Z)) Z Z Z.add 0 (toy_trainee false 0)
                  [[1]; [2; 3]] [[7]] [] [] "ys" eq_refl)).
  unfold len. simpl. lia.
Defined.

Lemma forward_returns_on_built_model_witness :
  exists b st,
    init (multitask_args "blstm" (1 # 4) 0) = Ok b /\
    snd (_forward Z.add 0 (trainee_of b toy_train toy_encoder)
                  [[1]; [2; 3]] [[7]; [8]] [[5]; [6]] [] "ys") = Ok st.
Proof.
  eexists.
  destruct (forward_returns_on_built_model Z (list (list Z)) Z Z Z.add 0
              toy_train toy_encoder (multitask_args "blstm" (1 # 4) 0) _
              [[1]; [2; 3]] [[7]; [8]] [[5]; [6]] [] "ys" eq_refl
              (or_introl eq_refl) eq_refl (or_introl eq_refl)) as [st Hst].
  - unfold len. simpl. lia.
  - intros _. unfold len. simpl. lia.
  - intros E. discriminate E.
  - exists st. split; [reflexivity | exact Hst].
Defined.

Lemma second_sub_task_cannot_be_trained_witness :
  exists b,
    init (multitask_args "blstm" 0 (1 # 2)) = Ok b /\
    snd (_forward Z.add 0 (trainee_of b toy_train toy_encoder)
                  [[1]; [2; 3]] [[7]; [8]] [] [[5]; [6]] "ys")
    = Raise AttributeError.
Proof.
  eexists. split; [reflexivity|].
  apply (second_sub_task_cannot_be_trained Z (list (list Z)) Z Z Z.add 0
           toy_train toy_encoder (multitask_args "blstm" 0 (1 # 2)) _
           [[1]; [2; 3]] [[7]; [8]] [] [[5]; [6]] "ys"
           eq_refl eq_refl eq_refl eq_refl).
  - left. reflexivity.
  - unfold len. simpl. lia.
  - intros E. discriminate E.
  - unfold len. simpl. lia.
Defined.

Lemma forward_adds_up_the_losses_witness :
  len [("loss.att", 1); ("loss.ctc", 2); ("loss.lm", 3); ("acc.main", 4)]
  = 4 * len [{| tc_name := "fwd"; tc_enc := [[2; 3]; [1]];
                tc_targets := [[8]; [7]] |}].
Proof.
  apply (forward_adds_up_the_losses Z (list (list Z)) Z Z Z.add 0
           (toy_trainee false 0) [[1]; [2; 3]] [[7]; [8]] [] [] "ys"
           [{| tc_name := "fwd"; tc_enc := [[2; 3]; [1]];
               tc_targets := [[8]; [7]] |}]
           2 [("loss.att", 1); ("loss.ctc", 2); ("loss.lm", 3); ("acc.main", 4)]).
  reflexivity.
Defined.

Lemma per_batch_training_reads_only_ys_witness :
  _forward Z.add 0 (toy_trainee true (1 # 2))
           [[1]; [2; 3]] [[7]; [8]] [[5]; [6]] [] "ys_sub1" =
  _forward Z.add 0 (toy_trainee true (1 # 2))
           [[1]; [2; 3]] [[7]; [8]] [] [[4]] "ys_sub1".
Proof.
  apply (per_batch_training_reads_only_ys Z (list (list Z)) Z Z Z.add 0
           (toy_trainee true (1 # 2))
           [[1]; [2; 3]] [[7]; [8]] [[5]; [6]] [] [] [[4]] "ys_sub1");
    reflexivity.
Defined.

Lemma encode_finds_its_bridges_witness :
  exists b out,
    init (multitask_args "cnn" (1 # 4) 0) = Ok b /\
    bridge_enc_out (with_main_weight b (3 # 4))
                   (built_bridges b (fun (_ : string) (x : Z) => x + 1))
                   (fun _ => (10, [3; 2])) "all" = Ok out /\
    out "ys_sub1" = (11, [3; 2]).
Proof.
  eexists.
  destruct (encode_finds_its_bridges Z (list Z) (fun _ x => x + 1)
              (multitask_args "cnn" (1 # 4) 0) _ (3 # 4)
              (fun _ => (10, [3; 2])) "all"
              eq_refl) as (out & Hout & _ & Hsub1).
  exists out. split; [reflexivity|]. split; [exact Hout|].
  apply Hsub1; reflexivity.
Defined.
